(** * pymatgen: the XRD pattern calculator and the base [Entry] class

    A shallow embedding of
    - [src/pymatgen/analysis/diffraction/xrd.py] ([XRDCalculator.__init__] and
      [XRDCalculator.get_pattern]), in [Module Xrd];
    - [src/pymatgen/entries/__init__.py] ([Entry.normalize] and
      [Entry._normalization_factor]), in [Module Entries].

    Numbers.  Python [float] and numpy [float64] values are embedded as the
    real numbers of the Standard Library: every arithmetic operation is the
    exact one, and binary64 rounding is outside the model.  The two places
    where Python and numpy differ on a zero divisor are kept apart:
    a Python [float] division raises [ZeroDivisionError] ([py_div]), a numpy
    division returns an infinity or a NaN ([np_true_divide]).

    Errors.  A Python exception is the [Raise] case of [result]; statements
    are sequenced with [do x <- e; k], which stops at the first [Raise]. *)

From Stdlib Require Import Reals Lra Lia ZArith List Sorted Permutation.
From stdpp Require Import gmap strings sorting.

Open Scope R_scope.

(** ** Exceptions and the error monad *)

Inductive exn : Type :=
| TypeError (msg : string)
| KeyError (key : string)
| ValueError (msg : string)
| IndexError
| ZeroDivisionError
| AttributeError (name : string).

Inductive result (A : Type) : Type :=
| Ok (a : A)
| Raise (e : exn).
Arguments Ok {A} a.
Arguments Raise {A} e.

Definition bind {A B : Type} (m : result A) (k : A -> result B) : result B :=
  match m with
  | Ok a => k a
  | Raise e => Raise e
  end.

Notation "'do' x <- m ; k" := (bind m (fun x => k))
  (at level 10, x name, m at level 100, k at level 200,
   format "'[v' 'do'  x  <-  m ; '/' k ']'").
Notation "'do' ' p <- m ; k" := (bind m (fun x => match x with p => k end))
  (at level 10, p pattern, m at level 100, k at level 200,
   format "'[v' 'do'  ' p  <-  m ; '/' k ']'").


(** A loop [for a in l: st = body(st, a)] whose body may raise. *)
Fixpoint for_each {S A : Type} (body : S -> A -> result S) (l : list A) (st : S)
  : result S :=
  match l with
  | [] => Ok st
  | a :: l' => do st' <- body st a; for_each body l' st'
  end.

(** Statements that read and write a state [S] (an object, a heap) and may
    raise: the state is returned as it is at the raise. *)
Definition stateful (S A : Type) : Type := S -> S * result A.

Definition sret {S A : Type} (a : A) : stateful S A := fun s => (s, Ok a).
Definition sraise {S A : Type} (e : exn) : stateful S A := fun s => (s, Raise e).
Definition slift {S A : Type} (m : result A) : stateful S A := fun s => (s, m).
Definition sbind {S A B : Type} (m : stateful S A) (k : A -> stateful S B)
  : stateful S B :=
  fun s =>
    match m s with
    | (s', Ok a) => k a s'
    | (s', Raise e) => (s', Raise e)
    end.

Notation "'run' x <- m ; k" := (sbind m (fun x => k))
  (at level 10, x name, m at level 100, k at level 200,
   format "'[v' 'run'  x  <-  m ; '/' k ']'").
Notation "m1 >> m2" := (sbind m1 (fun _ => m2))
  (at level 65, right associativity).

(** ** Comparisons of floats *)

#[global] Instance Rlt_decision : RelDecision Rlt := Rlt_dec.
#[global] Instance Rle_decision : RelDecision Rle := Rle_dec.
#[global] Instance Rgt_decision : RelDecision Rgt := Rgt_dec.
#[global] Instance Rge_decision : RelDecision Rge := Rge_dec.
#[global] Instance Req_decision : EqDecision R := Req_dec_T.

(** ** Python and numpy primitives used by the two modules *)

(** [a / b] on Python floats. *)
Definition py_div (a b : R) : result R :=
  if decide (b = 0) then Raise ZeroDivisionError else Ok (a / b).

(** [math.asin]: a domain error outside [-1, 1]. *)
Definition math_asin (v : R) : result R :=
  if decide (-1 <= v <= 1) then Ok (asin v)
  else Raise (ValueError "math domain error").

Definition math_radians (deg : R) : R := deg * (PI / 180).
Definition math_degrees (rad : R) : R := rad * (180 / PI).

(** [round(v)] of a float: to the nearest integer, a tie to the even one. *)
Definition py_round (v : R) : Z :=
  let f := Zfloor v in
  let d := v - IZR f in
  if decide (d < 1 / 2) then f
  else if decide (1 / 2 < d) then (f + 1)%Z
  else if Z.even f then f else (f + 1)%Z.

(** [max(values)]: the first largest element, [ValueError] on no element. *)
Definition py_max (values : list R) : result R :=
  match values with
  | [] => Raise (ValueError "max() iterable argument is empty")
  | v :: rest => Ok (fold_left (fun m w => if decide (m < w) then w else m) rest v)
  end.

(** The result of a numpy [float64] division: numpy does not raise on a zero
    divisor, it returns an infinity or a NaN. *)
Inductive npfloat : Type :=
| Finite (r : R)
| PosInf
| NegInf
| NaN.

Definition np_true_divide (a b : R) : npfloat :=
  if decide (b = 0) then
    if decide (0 < a) then PosInf else if decide (a < 0) then NegInf else NaN
  else Finite (a / b).

(** [v * c] for a finite positive factor [c] (here: [* 100]). *)
Definition np_scale (v : npfloat) (c : R) : npfloat :=
  match v with
  | Finite r => Finite (r * c)
  | other => other
  end.

(** [v > tol]: every comparison with a NaN is false. *)
Definition np_gt (v : npfloat) (tol : R) : bool :=
  match v with
  | Finite r => bool_decide (tol < r)
  | PosInf => true
  | NegInf => false
  | NaN => false
  end.

(** [np.where(mask)[0]]: the indices at which the mask holds, ascending. *)
Fixpoint np_where_from (i : nat) (mask : list bool) : list nat :=
  match mask with
  | [] => []
  | b :: mask' =>
      if b then i :: np_where_from (S i) mask' else np_where_from (S i) mask'
  end.
Definition np_where (mask : list bool) : list nat := np_where_from 0 mask.

(** [sorted(l, key=...)]: a stable sort, here by insertion, for an order
    given as a boolean [leb a b] ("the key of [a] is at most the key of [b]"). *)
Section Sorting.
Context {A : Type} (leb : A -> A -> bool).

Fixpoint insert_sorted (a : A) (l : list A) : list A :=
  match l with
  | [] => [a]
  | b :: l' => if leb a b then a :: b :: l' else b :: insert_sorted a l'
  end.

(** An element goes before the later elements of an equal key. *)
Fixpoint sorted (l : list A) : list A :=
  match l with
  | [] => []
  | a :: l' => insert_sorted a (sorted l')
  end.
End Sorting.

(** ** Complex numbers (numpy [complex128]) *)

Definition complex : Type := (R * R)%type.
Definition Cre (c : complex) : R := fst c.
Definition Cim (c : complex) : R := snd c.
Definition Cadd (a b : complex) : complex := (Cre a + Cre b, Cim a + Cim b).
Definition Cmul (a b : complex) : complex :=
  (Cre a * Cre b - Cim a * Cim b, Cre a * Cim b + Cim a * Cre b).
Definition Cscale (r : R) (c : complex) : complex := (r * Cre c, r * Cim c).
Definition Cconj (c : complex) : complex := (Cre c, - Cim c).
(** [np.exp(1j * phi)] *)
Definition Cexp_i (phi : R) : complex := (cos phi, sin phi).
Definition Csum (l : list complex) : complex := fold_left Cadd l (0, 0).

(** ** Association lists: a Python [dict] with float keys

    A [dict] keeps its keys in insertion order; assigning to a key that is
    present replaces the value in place. *)
Section Dict.
Context {V : Type}.

Fixpoint dict_get (k : R) (d : list (R * V)) : option V :=
  match d with
  | [] => None
  | (k', v) :: d' => if decide (k' = k) then Some v else dict_get k d'
  end.

Fixpoint dict_set (k : R) (v : V) (d : list (R * V)) : list (R * V) :=
  match d with
  | [] => [(k, v)]
  | (k', v') :: d' =>
      if decide (k' = k) then (k', v) :: d' else (k', v') :: dict_set k v d'
  end.

Definition dict_keys (d : list (R * V)) : list R := map fst d.
Definition dict_values (d : list (R * V)) : list V := map snd d.
End Dict.

(** [obj.name] for an attribute that may not have been set yet. *)
Definition getattr {A : Type} (name : string) (field : option A) : result A :=
  match field with
  | Some a => Ok a
  | None => Raise (AttributeError name)
  end.

(** [l[i]] *)
Definition list_get {A : Type} (l : list A) (i : nat) : result A :=
  match l !! i with
  | Some a => Ok a
  | None => Raise IndexError
  end.

(** * The XRD calculator ([analysis/diffraction/xrd.py]) *)

Module Xrd.

(** XRD wavelengths in angstroms. *)
Definition WAVELENGTHS : gmap string R :=
  list_to_map
    [ ("CuKa"%string, 1.54184); ("CuKa2"%string, 1.54439);
      ("CuKa1"%string, 1.54056); ("CuKb1"%string, 1.39222);
      ("MoKa"%string, 0.71073); ("MoKa2"%string, 0.71359);
      ("MoKa1"%string, 0.70930); ("MoKb1"%string, 0.63229);
      ("CrKa"%string, 2.29100); ("CrKa2"%string, 2.29361);
      ("CrKa1"%string, 2.28970); ("CrKb1"%string, 2.08487);
      ("FeKa"%string, 1.93735); ("FeKa2"%string, 1.93998);
      ("FeKa1"%string, 1.93604); ("FeKb1"%string, 1.75661);
      ("CoKa"%string, 1.79026); ("CoKa2"%string, 1.79285);
      ("CoKa1"%string, 1.78896); ("CoKb1"%string, 1.63079);
      ("AgKa"%string, 0.560885); ("AgKa2"%string, 0.563813);
      ("AgKa1"%string, 0.559421); ("AgKb1"%string, 0.497082) ].
Arguments WAVELENGTHS : simpl never.

(** The [wavelength] argument of the constructor, by its dynamic type. *)
Inductive pyobj : Type :=
| PyFloat (r : R)
| PyInt (z : Z)
| PyStr (s : string)
| PyOther (type_name : string).

(** The calculator object: each attribute is [None] until it is assigned. *)
Record XRDCalculator : Type := mkXRDCalculator {
  radiation : option string;
  wavelength : option R;
  symprec : option R;
  debye_waller_factors : option (gmap string R)
}.

(** The object as [__new__] hands it to [__init__]: no attribute set. *)
Definition blank : XRDCalculator := mkXRDCalculator None None None None.

Definition set_radiation (v : string) : stateful XRDCalculator unit :=
  fun self => (mkXRDCalculator (Some v) (wavelength self) (symprec self)
                 (debye_waller_factors self), Ok tt).
Definition set_wavelength (v : R) : stateful XRDCalculator unit :=
  fun self => (mkXRDCalculator (radiation self) (Some v) (symprec self)
                 (debye_waller_factors self), Ok tt).
Definition set_symprec (v : R) : stateful XRDCalculator unit :=
  fun self => (mkXRDCalculator (radiation self) (wavelength self) (Some v)
                 (debye_waller_factors self), Ok tt).
Definition set_debye_waller_factors (v : gmap string R) : stateful XRDCalculator unit :=
  fun self => (mkXRDCalculator (radiation self) (wavelength self) (symprec self)
                 (Some v), Ok tt).

(** [XRDCalculator.__init__(self, wavelength, symprec, debye_waller_factors)] *)
Definition __init__ (wavelength : pyobj) (symprec : R)
    (debye_waller_factors : option (gmap string R)) : stateful XRDCalculator unit :=
  match wavelength with
  | PyFloat r => set_wavelength r
  | PyInt z => set_wavelength (IZR z)
  | PyStr name =>
      set_radiation name >>
      match WAVELENGTHS !! name with
      | Some w => set_wavelength w
      | None => sraise (KeyError name)
      end
  | PyOther type_name =>
      sraise (TypeError (type_name ++ " must be either float, int or str"))
  end >>
  set_symprec symprec >>
  set_debye_waller_factors (default ∅ debye_waller_factors).

(** ** The structure, as far as [get_pattern] reads it *)

Record Species : Type := mkSpecies {
  sp_Z : Z;             (* sp.Z *)
  sp_symbol : string    (* sp.symbol *)
}.

Record Site : Type := mkSite {
  species : list (Species * R);     (* site.species.items(): (sp, occu) *)
  frac_coords : R * R * R
}.

(** A point of [get_points_in_sphere]: [(fcoords, dist, index, image)]; the
    loop reads the first two components only. *)
Record RecipPoint : Type := mkRecipPoint {
  pt_hkl : R * R * R;
  pt_g : R
}.

(** The lattice collaborator: [is_hexagonal()], and the points of the
    crystallographic reciprocal lattice within the sphere of a given radius
    around the origin. *)
Record Lattice : Type := mkLattice {
  is_hexagonal : bool;
  get_points_in_sphere : R -> list RecipPoint
}.

Record Structure : Type := mkStructure {
  lattice : Lattice;
  sites : list Site
}.

(** One entry of [{"hkl": hkl, "multiplicity": mult}]. *)
Record Family : Type := mkFamily {
  hkl : list Z;
  multiplicity : nat
}.

(** [DiffractionPattern(x, y, hkls, d_hkls)]: four parallel sequences. *)
Record DiffractionPattern : Type := mkDiffractionPattern {
  pat_x : list R;
  pat_y : list R;
  pat_hkls : list (list Family);
  pat_d_hkls : list R
}.

(** A value of the [peaks] dict: [[intensity, [hkl tuples], d_hkl]]. *)
Record Peak : Type := mkPeak {
  intensity : R;
  peak_hkls : list (list Z);
  d_hkl : R
}.

(** One row of the flattened arrays [zs], [coeffs], [frac_coords], [occus]
    and [dw_factors]. *)
Record SiteContribution : Type := mkSiteContribution {
  sc_Z : Z;
  sc_coeffs : list (R * R);
  sc_dw_factor : R;
  sc_frac_coords : R * R * R;
  sc_occu : R
}.

(** ** [get_pattern] *)

(** What the module reads but does not define: the constants [TWO_THETA_TOL]
    (the angular merge tolerance) and [SCALED_INTENSITY_TOL] (the minimum
    scaled intensity) of [AbstractDiffractionPatternCalculator]; the table of
    [atomic_scattering_params.json], an element symbol's list of [[a_i, b_i]]
    pairs; [get_unique_families] of the diffraction core (the items of the
    dict it returns); and [SpacegroupAnalyzer(structure,
    symprec).get_refined_structure()]. *)
Class Environment : Type := {
  TWO_THETA_TOL : R;
  SCALED_INTENSITY_TOL : R;
  ATOMIC_SCATTERING_PARAMS : gmap string (list (R * R));
  get_unique_families : list (list Z) -> list (list Z * nat);
  get_refined_structure : Structure -> R -> Structure
}.

Section GetPattern.
Context `{Environment}.

(** Lines 148-150: [if self.symprec:] the structure is replaced by the
    refined one. *)
Definition refined (sym : R) (structure : Structure) : Structure :=
  if decide (sym = 0) then structure else get_refined_structure structure sym.

(** [2 * math.sin(math.radians(t / 2)) / wavelength] *)
Definition bragg_radius (wavelength t : R) : result R :=
  py_div (2 * sin (math_radians (t / 2))) wavelength.

(** [min_r, max_r] (lines 158-162). *)
Definition radius_window (wavelength : R) (two_theta_range : option (R * R))
  : result (R * R) :=
  match two_theta_range with
  | None => do max_r <- py_div 2 wavelength; Ok (0, max_r)
  | Some (t_lo, t_hi) =>
      do min_r <- bragg_radius wavelength t_lo;
      do max_r <- bragg_radius wavelength t_hi;
      Ok (min_r, max_r)
  end.

(** The reciprocal points within range (lines 165-168). *)
Definition candidate_points (lat : Lattice) (min_r max_r : R) : list RecipPoint :=
  let recip_pts := get_points_in_sphere lat max_r in
  if decide (min_r = 0) then recip_pts
  else filter (fun pt => pt_g pt >= min_r) recip_pts.

(** The body of the loops over sites and their species (lines 181-192). *)
Definition flatten_species (self : XRDCalculator) (site : Site)
    (acc : list SiteContribution) (sp_occu : Species * R)
  : result (list SiteContribution) :=
  let '(sp, occu) := sp_occu in
  match ATOMIC_SCATTERING_PARAMS !! sp_symbol sp with
  | None =>
      Raise (ValueError
        ("Unable to calculate XRD pattern as there is no scattering coefficients for "
           ++ sp_symbol sp))
  | Some c =>
      do dw <- getattr "debye_waller_factors" (debye_waller_factors self);
      Ok (acc ++ [mkSiteContribution (sp_Z sp) c (default 0 (dw !! sp_symbol sp))
                    (frac_coords site) occu])
  end.

Definition flatten_sites (self : XRDCalculator) (structure : Structure)
  : result (list SiteContribution) :=
  for_each (fun acc site => for_each (flatten_species self site) (species site) acc)
    (sites structure) [].

(** The sort key of line 202, [(i[1], -i[0][0], -i[0][1], -i[0][2])], and the
    comparison of two such tuples. *)
Definition sort_key (pt : RecipPoint) : R * R * R * R :=
  let '(h, k, l) := pt_hkl pt in (pt_g pt, - h, - k, - l).

Definition tuple_lt (a b : R * R * R * R) : bool :=
  let '(a1, a2, a3, a4) := a in
  let '(b1, b2, b3, b4) := b in
  if decide (a1 = b1) then
    if decide (a2 = b2) then
      if decide (a3 = b3) then bool_decide (a4 < b4)
      else bool_decide (a3 < b3)
    else bool_decide (a2 < b2)
  else bool_decide (a1 < b1).

Definition key_leb (p q : RecipPoint) : bool :=
  negb (tuple_lt (sort_key q) (sort_key p)).

(** What lines 204-250 compute for one point with [g_hkl != 0]. *)
Record Reflection : Type := mkReflection {
  r_two_theta : R;
  r_i_hkl : R;
  r_lorentz_factor : R;
  r_hkl : list Z;
  r_g_hkl : R
}.

(** [np.dot(frac_coords, np.transpose([hkl])).T[0]]: with no site at all
    [frac_coords] is an empty one-dimensional array, and the product of its
    shape [(0,)] with the column of shape [(3, 1)] is refused. *)
Definition g_dot_r (contribs : list SiteContribution) (hkl : Z * Z * Z)
  : result (list R) :=
  match contribs with
  | [] => Raise (ValueError "shapes (0,) and (3,1) not aligned")
  | _ =>
      let '(h, k, l) := hkl in
      Ok (map (fun sc => let '(fx, fy, fz) := sc_frac_coords sc in
                         fx * IZR h + fy * IZR k + fz * IZR l) contribs)
  end.

(** The atomic scattering factor of one site (lines 228-231). *)
Definition fs (s2 : R) (sc : SiteContribution) : R :=
  IZR (sc_Z sc)
  - 41.78214 * s2
    * fold_right Rplus 0 (map (fun ab => fst ab * exp (- snd ab * s2)) (sc_coeffs sc)).

(** The structure factor (lines 233-238). *)
Definition f_hkl (s2 : R) (contribs : list SiteContribution) (gdr : list R)
  : complex :=
  Csum (map (fun '(sc, gr) =>
               Cscale (exp (- sc_dw_factor sc * s2))
                 (Cscale (fs s2 sc * sc_occu sc) (Cexp_i (2 * PI * gr))))
          (combine contribs gdr)).

(** Lines 204-250 for a point with [g_hkl != 0]. *)
Definition reflection (wavelength : R) (is_hex : bool)
    (contribs : list SiteContribution) (pt : RecipPoint) : result Reflection :=
  let '(h, k, l) := pt_hkl pt in
  let hkl := (py_round h, py_round k, py_round l) in
  let g_hkl := pt_g pt in
  do theta <- math_asin (wavelength * g_hkl / 2);
  let s := g_hkl / 2 in
  let s2 := s ^ 2 in
  do gdr <- g_dot_r contribs hkl;
  let f := f_hkl s2 contribs gdr in
  do lorentz_factor <-
    py_div (1 + cos (2 * theta) ^ 2) (sin theta ^ 2 * cos theta);
  let i_hkl := Cre (Cmul f (Cconj f)) in
  let two_theta := math_degrees (2 * theta) in
  let '(h, k, l) := hkl in
  let hkl := if is_hex then [h; k; (- h - k)%Z; l] else [h; k; l] in
  Ok (mkReflection two_theta i_hkl lorentz_factor hkl g_hkl).

(** The state of the loop: the [peaks] dict and the [two_thetas] list. *)
Definition peaks_state : Type := (list (R * Peak) * list R)%type.

(** Lines 252-261: merge the reflection into the first recorded angle within
    the tolerance, or record a new angle. *)
Definition merge (st : peaks_state) (r : Reflection) : result peaks_state :=
  let '(peaks, two_thetas) := st in
  let ind :=
    np_where
      (map (fun t => bool_decide (Rabs (t - r_two_theta r) < TWO_THETA_TOL))
         two_thetas) in
  match ind with
  | i :: _ =>
      do key <- list_get two_thetas i;
      match dict_get key peaks with
      | None => Raise (KeyError "two_theta")
      | Some v =>
          Ok (dict_set key
                (mkPeak (intensity v + r_i_hkl r * r_lorentz_factor r)
                   (peak_hkls v ++ [r_hkl r]) (d_hkl v))
                peaks,
              two_thetas)
      end
  | [] =>
      let d := 1 / r_g_hkl r in
      Ok (dict_set (r_two_theta r)
            (mkPeak (r_i_hkl r * r_lorentz_factor r) [r_hkl r] d) peaks,
          two_thetas ++ [r_two_theta r])
  end.

(** The body of the loop of line 202. *)
Definition process_point (wavelength : R) (is_hex : bool)
    (contribs : list SiteContribution) (st : peaks_state) (pt : RecipPoint)
  : result peaks_state :=
  if decide (pt_g pt = 0) then Ok st
  else do r <- reflection wavelength is_hex contribs pt; merge st r.

(** [v[0] / max_intensity * 100 > SCALED_INTENSITY_TOL] on numpy floats. *)
Definition above_threshold (v0 max_intensity : R) : bool :=
  np_gt (np_scale (np_true_divide v0 max_intensity) 100) SCALED_INTENSITY_TOL.

Definition families (tuples : list (list Z)) : list Family :=
  map (fun '(hkl, mult) => mkFamily hkl mult) (get_unique_families tuples).

(** The body of the loop of line 269. *)
Definition emit_peak (peaks : list (R * Peak)) (max_intensity : R)
    (acc : DiffractionPattern) (k : R) : result DiffractionPattern :=
  match dict_get k peaks with
  | None => Raise (KeyError "two_theta")
  | Some v =>
      let fam := families (peak_hkls v) in
      if above_threshold (intensity v) max_intensity then
        Ok (mkDiffractionPattern (pat_x acc ++ [k]) (pat_y acc ++ [intensity v])
              (pat_hkls acc ++ [fam]) (pat_d_hkls acc ++ [d_hkl v]))
      else Ok acc
  end.

(** Lines 264-277. *)
Definition build_pattern (peaks : list (R * Peak)) : result DiffractionPattern :=
  do max_intensity <- py_max (map intensity (dict_values peaks));
  for_each (emit_peak peaks max_intensity)
    (sorted (fun a b => bool_decide (a <= b)) (dict_keys peaks))
    (mkDiffractionPattern [] [] [] []).

(** Modelled from the spec: [DiffractionPattern.normalize(mode="max",
    value)], which lives in the diffraction core and is not part of the
    sources.  The specification says of it: "rescale all intensities so the
    maximum becomes exactly 100 (linear scaling)".  The maximum of no
    intensity at all does not exist, and the call fails there as the [max] of
    line 264 does. *)
Definition normalize (xrd : DiffractionPattern) (value : R)
  : result DiffractionPattern :=
  do factor <- py_max (pat_y xrd);
  Ok (mkDiffractionPattern (pat_x xrd)
        (map (fun v => v / (factor / value)) (pat_y xrd))
        (pat_hkls xrd) (pat_d_hkls xrd)).

(** Lines 199-261: the loop over the sorted points, from no peak. *)
Definition accumulate (wavelength : R) (is_hex : bool)
    (contribs : list SiteContribution) (recip_pts : list RecipPoint)
  : result peaks_state :=
  for_each (process_point wavelength is_hex contribs) (sorted key_leb recip_pts)
    ([], []).

(** [XRDCalculator.get_pattern(self, structure, scaled, two_theta_range)] *)
Definition get_pattern (self : XRDCalculator) (structure : Structure)
    (scaled : bool) (two_theta_range : option (R * R))
  : result DiffractionPattern :=
  do sym <- getattr "symprec" (symprec self);
  let structure := refined sym structure in
  do wavelength <- getattr "wavelength" (wavelength self);
  let lattice := lattice structure in
  let is_hex := is_hexagonal lattice in
  do '(min_r, max_r) <- radius_window wavelength two_theta_range;
  let recip_pts := candidate_points lattice min_r max_r in
  do contribs <- flatten_sites self structure;
  do '(peaks, two_thetas) <- accumulate wavelength is_hex contribs recip_pts;
  do xrd <- build_pattern peaks;
  if scaled then normalize xrd 100 else Ok xrd.

End GetPattern.
End Xrd.

(** * The base entry class ([entries/__init__.py]) *)

Module Entries.

(** A Python value stored under a key of an [as_dict] dictionary. *)
Inductive value : Type :=
| VStr (s : string)
| VFloat (r : R)
| VDict (d : gmap string R).

(** The interface of [pymatgen.core.composition.Composition] that [Entry]
    uses; a composition is an immutable value.  [Composition_new] is the
    constructor applied to a formula or a [{symbol: amount}] dict,
    [truediv] is [composition / factor]. *)
Class CompositionClass (Composition : Type) : Type := {
  Composition_new : value -> result Composition;
  truediv : Composition -> R -> result Composition;
  num_atoms : Composition -> R;
  get_reduced_composition_and_factor : Composition -> Composition * R;
  Composition_as_dict : Composition -> gmap string R
}.

Section Entry.
Context {Composition : Type} `{CompositionClass Composition}.

(** The attributes of an [Entry] instance. *)
Record Entry : Type := mkEntry {
  _composition : Composition;
  _energy : R
}.

(** The objects of the heap: entries, and the dictionaries that [as_dict]
    creates; a reference is an address of the heap. *)
Inductive object : Type :=
| EntryObj (e : Entry)
| DictObj (items : gmap string value).

Local Abbreviation heap := (gmap positive object).

Definition alloc (o : object) : stateful heap positive :=
  fun h => let l := fresh (dom h) in (<[l := o]> h, Ok l).

Definition read_entry (self : positive) : stateful heap Entry :=
  fun h =>
    match h !! self with
    | Some (EntryObj e) => (h, Ok e)
    | _ => (h, Raise (AttributeError "_composition"))
    end.

Definition read_dict (d : positive) : stateful heap (gmap string value) :=
  fun h =>
    match h !! d with
    | Some (DictObj items) => (h, Ok items)
    | _ => (h, Raise (TypeError "object is not subscriptable"))
    end.

(** [d[key] = v] *)
Definition setitem (d : positive) (key : string) (v : value) : stateful heap unit :=
  run items <- read_dict d;
  fun h => (<[d := DictObj (<[key := v]> items)]> h, Ok tt).

(** [Entry.__init__(self, composition, energy)] on a fresh instance: the
    call [cls(composition=..., energy=...)]. *)
Definition __init__ (composition : Composition + value) (energy : R)
  : stateful heap positive :=
  run c <- slift (match composition with
                  | inl c => Ok c
                  | inr v => Composition_new v
                  end);
  alloc (EntryObj (mkEntry c energy)).

(** The [composition] property. *)
Definition composition (self : positive) : stateful heap Composition :=
  run e <- read_entry self;
  sret (_composition e).

(** [Entry._normalization_factor(self, mode)] *)
Definition _normalization_factor (self : positive) (mode : string)
  : stateful heap R :=
  if decide (mode = "atom"%string) then
    run c <- composition self;
    sret (num_atoms c)
  else if decide (mode = "formula_unit"%string) then
    run c <- composition self;
    sret (snd (get_reduced_composition_and_factor c))
  else sraise (ValueError (mode ++ " is not an allowed option for normalization")).

(** [Entry.as_dict(self)]: a new dictionary. *)
Definition as_dict (self : positive) : stateful heap positive :=
  run e <- read_entry self;
  alloc (DictObj (<["@module" := VStr "pymatgen.entries"]>
                 (<["@class" := VStr "Entry"]>
                 (<["energy" := VFloat (_energy e)]>
                 (<["composition" := VDict (Composition_as_dict (_composition e))]>
                  ∅))))).

(** [MSONable.from_dict(d)] of monty: the entries of [d] whose key does not
    start with [@] are the keyword arguments of the constructor call. *)
Definition from_dict (d : positive) : stateful heap positive :=
  run items <- read_dict d;
  match items !! "composition"%string, items !! "energy"%string with
  | Some c, Some (VFloat e) => __init__ (inr c) e
  | _, _ => sraise (TypeError "__init__() missing required argument")
  end.

(** [Entry.normalize(self, mode)] *)
Definition normalize (self : positive) (mode : string) : stateful heap positive :=
  run factor <- _normalization_factor self mode;
  run e <- read_entry self;
  run new_composition <- slift (truediv (_composition e) factor);
  run new_energy <- slift (py_div (_energy e) factor);
  run new_entry_dict <- as_dict self;
  setitem new_entry_dict "composition"
    (VDict (Composition_as_dict new_composition)) >>
  setitem new_entry_dict "energy" (VFloat new_energy) >>
  from_dict new_entry_dict.

End Entry.

Abbreviation heap := (gmap positive object).

End Entries.


(** * Notions used to state the properties *)

(** The wavelength argument is numeric ([float] or [int]), or it is one of
    the names of [WAVELENGTHS]. *)
Definition numeric (wavelength : Xrd.pyobj) : Prop :=
  match wavelength with
  | Xrd.PyFloat _ | Xrd.PyInt _ => True
  | _ => False
  end.

Definition recognized (wavelength : Xrd.pyobj) : Prop :=
  match wavelength with
  | Xrd.PyStr name => is_Some (Xrd.WAVELENGTHS !! name)
  | _ => False
  end.
(** The message of line 186. *)
Definition no_coefficients (symbol : string) : exn :=
  ValueError
    ("Unable to calculate XRD pattern as there is no scattering coefficients for "
       ++ symbol).

(** The shape of a recorded Miller index: the four Miller-Bravais indices
    [(h, k, -h-k, l)] for a hexagonal lattice, three indices otherwise. *)
Definition miller_shape (is_hex : bool) (t : list Z) : Prop :=
  if is_hex then exists h k l : Z, t = [h; k; (- h - k)%Z; l]
  else exists h k l : Z, t = [h; k; l].

(** A dict of peaks without the Miller indices: angle, intensity and
    d-spacing. *)
Definition without_hkls (peaks : list (R * Xrd.Peak)) : list (R * (R * R)) :=
  map (fun kv => (kv.1, (Xrd.intensity kv.2, Xrd.d_hkl kv.2))) peaks.

(** Every Miller index recorded in [peaks] has the shape of the lattice. *)
Definition peaks_shape (is_hex : bool) (peaks : list (R * Xrd.Peak)) : Prop :=
  Forall (fun kv => Forall (miller_shape is_hex) (Xrd.peak_hkls kv.2)) peaks.

(** The order of line 202 in the words of the specification: by the
    magnitude [g] ascending, then by the three components of the Miller
    index descending; [processed_no_later p q] says that [p] does not come
    after [q] in it. *)
Definition processed_no_later (p q : Xrd.RecipPoint) : Prop :=
  let '(h1, k1, l1) := Xrd.pt_hkl p in
  let '(h2, k2, l2) := Xrd.pt_hkl q in
  Xrd.pt_g p < Xrd.pt_g q \/
  (Xrd.pt_g p = Xrd.pt_g q /\
   (h2 < h1 \/ (h1 = h2 /\ (k2 < k1 \/ (k1 = k2 /\ l2 <= l1))))).

(** The peak of a cluster of merged reflections: the angle and the
    d-spacing come from the first one, every later one adds its intensity
    and its Miller index. *)
Definition cluster_peak (c : Xrd.Reflection * list Xrd.Reflection) : Xrd.Peak :=
  let '(first, later) := c in
  Xrd.mkPeak
    (fold_left (fun acc r => acc + Xrd.r_i_hkl r * Xrd.r_lorentz_factor r) later
       (Xrd.r_i_hkl first * Xrd.r_lorentz_factor first))
    (Xrd.r_hkl first :: map Xrd.r_hkl later)
    (1 / Xrd.r_g_hkl first).

(** The reflections of a list of clusters, cluster by cluster, each with
    its first reflection in front. *)
Definition cluster_members (cl : list (R * (Xrd.Reflection * list Xrd.Reflection)))
  : list Xrd.Reflection :=
  concat (map (fun kc => kc.2.1 :: kc.2.2) cl).

(** The sum of the intensities of the peaks, the sum of the weights
    [i_hkl * lorentz_factor] of reflections, and the number of Miller
    indices that the peaks hold. *)
Definition total_intensity (peaks : list (R * Xrd.Peak)) : R :=
  fold_right Rplus 0 (map (fun kv => Xrd.intensity kv.2) peaks).

Definition total_weight (refls : list Xrd.Reflection) : R :=
  fold_right Rplus 0 (map (fun r => Xrd.r_i_hkl r * Xrd.r_lorentz_factor r) refls).

Definition recorded_indices (peaks : list (R * Xrd.Peak)) : nat :=
  fold_right Nat.add 0%nat (map (fun kv => length (Xrd.peak_hkls kv.2)) peaks).

(** The pairs of a site and one of its species with its occupancy, site by
    site, in the order of the structure. *)
Definition site_species (structure : Xrd.Structure)
  : list (Xrd.Site * Xrd.Species * R) :=
  flat_map (fun site => map (fun so => (site, so.1, so.2)) (Xrd.species site))
    (Xrd.sites structure).

Section Notions.
Import Xrd.
Context `{Environment}.

(** The test of line 253: the recorded angle [t] is within the merge
    tolerance of the angle [two_theta] of the point at hand. *)
Definition within_tol (two_theta t : R) : Prop :=
  Rabs (t - two_theta) < TWO_THETA_TOL.

(** The angles of a pattern are pairwise at least the tolerance apart. *)
Definition separated (angles : list R) : Prop :=
  forall i j a b, i <> j -> angles !! i = Some a -> angles !! j = Some b ->
                  TWO_THETA_TOL <= Rabs (a - b).

(** The invariant of the loop of line 202: the recorded angles are the keys
    of [peaks], and two different ones are never within the tolerance. *)
Definition peaks_inv (st : peaks_state) : Prop :=
  let '(peaks, two_thetas) := st in
  NoDup (dict_keys peaks) /\
  (forall k, k ∈ dict_keys peaks <-> k ∈ two_thetas) /\
  (forall a b, a ∈ two_thetas -> b ∈ two_thetas -> a <> b ->
               TWO_THETA_TOL <= Rabs (a - b)).

(** The items of [peaks] in the order of [sorted(peaks)], and those of them
    that pass the test of line 272. *)
Definition sorted_items (peaks : list (R * Peak)) : list (R * Peak) :=
  sorted (fun a b => bool_decide (a.1 <= b.1)) peaks.

Definition kept (peaks : list (R * Peak)) (max_intensity : R) : list (R * Peak) :=
  filter (fun kv => above_threshold (intensity kv.2) max_intensity = true)
    (sorted_items peaks).

(** The pattern [acc] with the peaks [l] appended. *)
Definition extend (acc : DiffractionPattern) (l : list (R * Peak)) : DiffractionPattern :=
  mkDiffractionPattern
    (pat_x acc ++ map fst l)
    (pat_y acc ++ map (fun kv => intensity kv.2) l)
    (pat_hkls acc ++ map (fun kv => families (peak_hkls kv.2)) l)
    (pat_d_hkls acc ++ map (fun kv => d_hkl kv.2) l).

(** The reflections of the points off the origin, in the order of the
    points. *)
Fixpoint reflections_of (wavelength : R) (is_hex : bool)
    (contribs : list SiteContribution) (pts : list RecipPoint)
  : result (list Reflection) :=
  match pts with
  | [] => Ok []
  | pt :: rest =>
      if decide (pt_g pt = 0) then reflections_of wavelength is_hex contribs rest
      else
        do r <- reflection wavelength is_hex contribs pt;
        do rs <- reflections_of wavelength is_hex contribs rest;
        Ok (r :: rs)
  end.

(** [peaks] is made of the clusters [cl] of the reflections [done]: each
    entry is the peak of its cluster, its key is the angle of the first
    reflection of the cluster, the cluster is a subsequence of [done] (so its
    first reflection was processed before the others), and the later
    reflections are within the tolerance of the key. *)
Definition clusters_of (done : list Reflection)
    (cl : list (R * (Reflection * list Reflection))) (peaks : list (R * Peak)) : Prop :=
  peaks = map (fun kc => (kc.1, cluster_peak kc.2)) cl /\
  Forall (fun kc =>
            kc.1 = r_two_theta kc.2.1 /\
            sublist (kc.2.1 :: kc.2.2) done /\
            Forall (fun r => within_tol (r_two_theta r) kc.1) kc.2.2) cl.

(** A point off the origin whose structure factor does not vanish. *)
Definition bright (wavelength : R) (is_hex : bool)
    (contribs : list SiteContribution) (pt : RecipPoint) : Prop :=
  pt_g pt <> 0 /\
  forall r, reflection wavelength is_hex contribs pt = Ok r -> 0 < r_i_hkl r.

End Notions.

(** * A worked example

    An iron atom at the origin of a cubic cell of edge 5, Cu K-alpha
    radiation, and the reciprocal points (0,0,0), (1,0,0), (-1,0,0), (2,0,0),
    (3,0,0) and (2,2,1), of magnitudes 0, 1/5, 1/5, 2/5, 3/5 and 3/5. *)

(** Modelled from the spec: [get_unique_families] of the diffraction core,
    which is not part of the sources.  The specification: "a family = set of
    index tuples related by sign/permutation equivalence", "multiplicity =
    family size".  Two tuples are of one family when their absolute values
    agree up to order; a family is listed under its first member. *)
Definition same_family (t1 t2 : list Z) : bool :=
  bool_decide (sorted Z.leb (map Z.abs t1) = sorted Z.leb (map Z.abs t2)).

Fixpoint add_to_families (t : list Z) (fams : list (list Z * nat))
  : list (list Z * nat) :=
  match fams with
  | [] => [(t, 1%nat)]
  | (t', n) :: rest =>
      if same_family t t' then (t', S n) :: rest
      else (t', n) :: add_to_families t rest
  end.

Definition unique_families (tuples : list (list Z)) : list (list Z * nat) :=
  fold_left (fun fams t => add_to_families t fams) tuples [].

Definition example_env : Xrd.Environment := {|
  Xrd.TWO_THETA_TOL := 0.00001;
  Xrd.SCALED_INTENSITY_TOL := 0.001;
  Xrd.ATOMIC_SCATTERING_PARAMS :=
    {[ "Fe"%string := [(2.544, 64.424); (2.343, 14.88); (1.759, 2.854); (0.506, 0.35)] ]};
  Xrd.get_unique_families := unique_families;
  Xrd.get_refined_structure := fun structure _ => structure
|}.

(** The calculator that [XRDCalculator("CuKa")] constructs. *)
Definition example_calculator : Xrd.XRDCalculator :=
  Xrd.mkXRDCalculator (Some "CuKa"%string) (Some 1.54184) (Some 0) (Some ∅).

Definition example_points : list Xrd.RecipPoint :=
  [ Xrd.mkRecipPoint (0, 0, 0) 0;
    Xrd.mkRecipPoint (1, 0, 0) (1 / 5);
    Xrd.mkRecipPoint (-1, 0, 0) (1 / 5);
    Xrd.mkRecipPoint (2, 0, 0) (2 / 5);
    Xrd.mkRecipPoint (3, 0, 0) (3 / 5);
    Xrd.mkRecipPoint (2, 2, 1) (3 / 5) ].

Definition example_lattice (is_hex : bool) : Xrd.Lattice :=
  Xrd.mkLattice is_hex (fun r => filter (fun pt => Xrd.pt_g pt <= r) example_points).

Definition example_site (symbol : string) : Xrd.Site :=
  Xrd.mkSite [(Xrd.mkSpecies 26 symbol, 1)] (0, 0, 0).

Definition example_structure (is_hex : bool) : Xrd.Structure :=
  Xrd.mkStructure (example_lattice is_hex) [example_site "Fe"].

(** The same cell, with an enumerator that lists the points the other way
    round. *)
Definition reversed_structure : Xrd.Structure :=
  Xrd.mkStructure
    (Xrd.mkLattice false
       (fun r => reverse (Xrd.get_points_in_sphere (example_lattice false) r)))
    [example_site "Fe"].

(** The same cell with an atom whose symbol the table does not have. *)
Definition unknown_structure : Xrd.Structure :=
  Xrd.mkStructure (example_lattice false) [example_site "Xx"].

(** A lattice of which only the origin is enumerated. *)
Definition origin_structure : Xrd.Structure :=
  Xrd.mkStructure
    (Xrd.mkLattice false
       (fun r => filter (fun pt => Xrd.pt_g pt <= r) [Xrd.mkRecipPoint (0, 0, 0) 0]))
    [example_site "Fe"].

(** An instance of the interface of [Composition] for the example: the
    amounts by element symbol.  [num_atoms] is the sum of the absolute
    amounts; the reduction of formulas is not modelled, every composition
    counts as reduced (factor 1). *)
Definition amounts_new (v : Entries.value) : result (gmap string R) :=
  match v with
  | Entries.VDict d => Ok d
  | Entries.VStr _ => Raise (ValueError "formula strings are not parsed")
  | Entries.VFloat _ => Raise (TypeError "float is not iterable")
  end.

Definition amounts_truediv (c : gmap string R) (factor : R) : result (gmap string R) :=
  if decide (factor = 0) then Raise ZeroDivisionError
  else Ok ((fun amount => amount / factor) <$> c).

Definition amounts_num_atoms (c : gmap string R) : R :=
  map_fold (fun _ amount acc => Rabs amount + acc) 0 c.

#[local] Instance amounts_class : Entries.CompositionClass (gmap string R) := {|
  Entries.Composition_new := amounts_new;
  Entries.truediv := amounts_truediv;
  Entries.num_atoms := amounts_num_atoms;
  Entries.get_reduced_composition_and_factor := fun c => (c, 1);
  Entries.Composition_as_dict := fun c => c
|}.

(** A heap with one entry, Fe2 of energy -10, at address 1. *)
Definition example_entry : @Entries.Entry (gmap string R) :=
  Entries.mkEntry {[ "Fe"%string := 2 ]} (-10).

Definition example_heap : gmap positive (@Entries.object (gmap string R)) :=
  {[ 1%positive := Entries.EntryObj example_entry ]}.

(** A heap with one entry of no atoms at address 1. *)
Definition empty_entry_heap : gmap positive (@Entries.object (gmap string R)) :=
  {[ 1%positive := Entries.EntryObj (Entries.mkEntry ∅ (-10)) ]}.
(** * Facts about the primitives *)

Lemma bind_Ok {A B : Type} (m : result A) (k : A -> result B) (b : B) :
  bind m k = Ok b <-> exists a, m = Ok a /\ k a = Ok b.
Proof.
  destruct m as [a|e]; simpl; split.
  - intros Hk. exists a. auto.
  - intros (a' & Ha & Hk). injection Ha as ->. exact Hk.
  - discriminate.
  - intros (a' & Ha & _). discriminate.
Qed.

(** Take a successful sequence apart, statement by statement. *)
Ltac bind_inv H :=
  let a := fresh "a" in
  let Ha := fresh "Ha" in
  apply bind_Ok in H; destruct H as (a & Ha & H).

Lemma for_each_app {S A : Type} (body : S -> A -> result S) (l1 l2 : list A) (st : S) :
  for_each body (l1 ++ l2) st = do st' <- for_each body l1 st; for_each body l2 st'.
Proof.
  revert st. induction l1 as [|a l1 IH]; intros st; simpl; [reflexivity|].
  destruct (body st a) as [st'|e]; simpl; [apply IH | reflexivity].
Qed.

(** The invariant rule of a loop: the invariant may mention the elements
    processed so far. *)
Lemma for_each_invariant {S A : Type} (body : S -> A -> result S)
    (Inv : list A -> S -> Prop) (l : list A) :
  (forall done a st st', Inv done st -> body st a = Ok st' -> Inv (done ++ [a]) st') ->
  forall done st st',
    Inv done st -> for_each body l st = Ok st' -> Inv (done ++ l) st'.
Proof.
  intros Hstep. induction l as [|a l IH]; intros done st st' HI Hrun; simpl in Hrun.
  - injection Hrun as <-. rewrite app_nil_r. exact HI.
  - bind_inv Hrun. rewrite (cons_middle a done l), app_assoc.
    eapply IH; [|exact Hrun]. eapply Hstep; eauto.
Qed.

(** ** [np.where] *)

Lemma np_where_from_nil (i : nat) (mask : list bool) :
  np_where_from i mask = [] <-> Forall (fun b => b = false) mask.
Proof.
  revert i. induction mask as [|b mask IH]; intros i; simpl.
  - split; [constructor | reflexivity].
  - destruct b.
    + split; [discriminate | intros Hall; inversion Hall; discriminate].
    + rewrite IH. split; [intros Hall; constructor; auto | intros Hall; inversion Hall; auto].
Qed.

Lemma np_where_from_first (i j : nat) (mask : list bool) (rest : list nat) :
  np_where_from i mask = j :: rest ->
  exists n, j = (i + n)%nat /\ mask !! n = Some true /\
            forall m, (m < n)%nat -> mask !! m = Some false.
Proof.
  revert i. induction mask as [|b mask IH]; intros i; simpl; [discriminate|].
  destruct b.
  - intros Heq. injection Heq as <- _. exists 0%nat.
    split; [lia | split; [reflexivity | intros m Hm; lia]].
  - intros Heq. destruct (IH _ Heq) as (n & -> & Hn & Hbefore).
    exists (S n). split; [lia | split; [exact Hn|]].
    intros [|m] Hm; simpl; [reflexivity | apply Hbefore; lia].
Qed.

Lemma np_where_first (j : nat) (mask : list bool) (rest : list nat) :
  np_where mask = j :: rest ->
  mask !! j = Some true /\ forall m, (m < j)%nat -> mask !! m = Some false.
Proof.
  intros Heq. destruct (np_where_from_first _ _ _ _ Heq) as (n & -> & Hn & Hb).
  simpl. auto.
Qed.

(** ** Dictionaries *)

Section DictFacts.
Context {V : Type}.
Implicit Types (d : list (R * V)) (k : R) (v : V).

Lemma dict_get_Some_elem d k v : dict_get k d = Some v -> (k, v) ∈ d.
Proof.
  induction d as [|[k' v'] d IH]; simpl; [discriminate|].
  destruct (decide (k' = k)) as [->|Hne].
  - intros Heq. injection Heq as ->. left.
  - intros Hget. right. auto.
Qed.

Lemma dict_get_None d k : dict_get k d = None <-> k ∉ dict_keys d.
Proof.
  induction d as [|[k' v'] d IH]; simpl.
  - split; [intros _; apply not_elem_of_nil | reflexivity].
  - rewrite not_elem_of_cons. destruct (decide (k' = k)) as [->|Hne].
    + split; [discriminate | intros [Hne _]; congruence].
    + rewrite IH. unfold dict_keys. split; [intros Hk; split; [congruence | exact Hk] | tauto].
Qed.

Lemma dict_get_is_Some d k : k ∈ dict_keys d -> exists v, dict_get k d = Some v.
Proof.
  intros Hin. destruct (dict_get k d) as [v|] eqn:Hget; [eauto|].
  apply dict_get_None in Hget. contradiction.
Qed.

Lemma dict_get_elem_NoDup d k v :
  NoDup (dict_keys d) -> (k, v) ∈ d -> dict_get k d = Some v.
Proof.
  induction d as [|[k' v'] d IH]; simpl; intros Hnd Hin.
  - apply elem_of_nil in Hin. contradiction.
  - apply NoDup_cons in Hnd as [Hk' Hnd]. apply elem_of_cons in Hin as [Heq|Hin].
    + injection Heq as -> ->. rewrite decide_True; reflexivity.
    + destruct (decide (k' = k)) as [->|Hne]; [|auto].
      exfalso. apply Hk'. unfold dict_keys.
      apply (list_elem_of_fmap_2 fst) in Hin. exact Hin.
Qed.

Lemma dict_keys_set d k v :
  dict_keys (dict_set k v d) =
  if decide (k ∈ dict_keys d) then dict_keys d else dict_keys d ++ [k].
Proof.
  induction d as [|[k' v'] d IH]; cbn [dict_set dict_keys map fst].
  - rewrite decide_False; [reflexivity | apply not_elem_of_nil].
  - destruct (decide (k' = k)) as [->|Hne]; cbn [dict_keys map fst].
    + rewrite decide_True; [reflexivity | left].
    + fold (dict_keys (dict_set k v d)). fold (dict_keys d).
      rewrite IH. destruct (decide (k ∈ dict_keys d)) as [Hin|Hnin].
      * rewrite decide_True; [reflexivity | right; exact Hin].
      * rewrite decide_False; [reflexivity|].
        rewrite not_elem_of_cons. split; [congruence | exact Hnin].
Qed.

Lemma dict_get_set_eq d k v : dict_get k (dict_set k v d) = Some v.
Proof.
  induction d as [|[k' v'] d IH]; simpl.
  - rewrite decide_True; reflexivity.
  - destruct (decide (k' = k)) as [->|Hne]; simpl.
    + rewrite decide_True; reflexivity.
    + rewrite decide_False; [exact IH | exact Hne].
Qed.

Lemma dict_get_set_ne d k k' v :
  k' <> k -> dict_get k' (dict_set k v d) = dict_get k' d.
Proof.
  intros Hne. induction d as [|[k0 v0] d IH]; simpl.
  - rewrite decide_False; [reflexivity | congruence].
  - destruct (decide (k0 = k)) as [->|Hne0]; simpl.
    + rewrite !decide_False; [reflexivity | congruence | congruence].
    + rewrite IH. reflexivity.
Qed.

Lemma dict_keys_set_elem d k k' v :
  k' ∈ dict_keys (dict_set k v d) <-> k' = k \/ k' ∈ dict_keys d.
Proof.
  rewrite dict_keys_set. destruct (decide (k ∈ dict_keys d)) as [Hin|Hnin].
  - split; [auto | intros [->|Hk]; assumption].
  - rewrite elem_of_app, list_elem_of_singleton. tauto.
Qed.

Lemma dict_keys_set_NoDup d k v :
  NoDup (dict_keys d) -> NoDup (dict_keys (dict_set k v d)).
Proof.
  intros Hnd. rewrite dict_keys_set.
  destruct (decide (k ∈ dict_keys d)) as [Hin|Hnin]; [exact Hnd|].
  apply NoDup_app. split; [exact Hnd|]. split.
  - intros x Hx Hx'. apply list_elem_of_singleton in Hx'. subst. contradiction.
  - apply NoDup_singleton.
Qed.

(** The values of the other keys stay where they are. *)
Lemma dict_set_elem d k v k' v' :
  k' <> k -> (k', v') ∈ dict_set k v d <-> (k', v') ∈ d.
Proof.
  intros Hne. induction d as [|[k0 v0] d IH]; simpl.
  - rewrite list_elem_of_singleton. split; [intros Heq; congruence|].
    intros Hin. apply elem_of_nil in Hin. contradiction.
  - destruct (decide (k0 = k)) as [->|Hne0].
    + rewrite !elem_of_cons. split; (intros [Heq|Hin]; [congruence | right; exact Hin]).
    + rewrite !elem_of_cons, IH. reflexivity.
Qed.

End DictFacts.

(** ** Sorting *)

Section SortingFacts.
Context {A : Type} (leb : A -> A -> bool).

Lemma insert_sorted_Permutation (a : A) (l : list A) :
  Permutation (a :: l) (insert_sorted leb a l).
Proof.
  induction l as [|b l IH]; simpl; [reflexivity|].
  destruct (leb a b); [reflexivity|].
  rewrite Permutation_swap. constructor. exact IH.
Qed.

Lemma sorted_Permutation (l : list A) : Permutation l (sorted leb l).
Proof.
  induction l as [|a l IH]; simpl; [reflexivity|].
  rewrite <- insert_sorted_Permutation. constructor. exact IH.
Qed.

Lemma sorted_elem (l : list A) (a : A) : a ∈ sorted leb l <-> a ∈ l.
Proof. rewrite <- (sorted_Permutation l). reflexivity. Qed.

Hypothesis leb_total : forall a b, leb a b = true \/ leb b a = true.
Hypothesis leb_trans : forall a b c, leb a b = true -> leb b c = true -> leb a c = true.

Lemma insert_sorted_StronglySorted (a : A) (l : list A) :
  StronglySorted (fun x y => leb x y = true) l ->
  StronglySorted (fun x y => leb x y = true) (insert_sorted leb a l).
Proof using leb_total leb_trans.
  induction 1 as [|b l Hs IH Hb]; simpl.
  - repeat constructor.
  - destruct (leb a b) eqn:Hab.
    + constructor; [constructor; assumption|].
      constructor; [exact Hab|].
      eapply Forall_impl; [exact Hb|]. intros c Hbc. eauto.
    + constructor; [exact IH|].
      rewrite <- insert_sorted_Permutation. constructor; [|exact Hb].
      destruct (leb_total a b) as [Hc|Hc]; congruence.
Qed.

Lemma sorted_StronglySorted (l : list A) :
  StronglySorted (fun x y => leb x y = true) (sorted leb l).
Proof using leb_total leb_trans.
  induction l as [|a l IH]; simpl; [constructor|].
  apply insert_sorted_StronglySorted. exact IH.
Qed.

End SortingFacts.

(** [sorted(peaks)]: the keys of a dict, ascending; they are distinct, so
    strictly ascending. *)
Lemma sorted_keys_ascending (keys : list R) :
  NoDup keys ->
  StronglySorted Rlt (sorted (fun a b => bool_decide (a <= b)) keys).
Proof.
  intros Hnd.
  assert (Hs : StronglySorted (fun x y => bool_decide (x <= y) = true)
                 (sorted (fun a b => bool_decide (a <= b)) keys)).
  { apply sorted_StronglySorted.
    - intros a b. rewrite !bool_decide_eq_true. lra.
    - intros a b c. rewrite !bool_decide_eq_true. lra. }
  assert (Hnd' : NoDup (sorted (fun a b => bool_decide (a <= b)) keys)).
  { rewrite <- sorted_Permutation. exact Hnd. }
  induction Hs as [|a l Hs IH Ha]; [constructor|].
  apply NoDup_cons in Hnd' as [Hnotin Hnd'].
  constructor; [auto|].
  apply Forall_forall. intros b Hb.
  rewrite Forall_forall in Ha. specialize (Ha b Hb).
  apply bool_decide_eq_true in Ha.
  destruct (Req_dec_T a b) as [->|Hne]; [contradiction | lra].
Qed.

(** * The constructor of the calculator *)

Section InitFacts.
Import Xrd.

(** After a successful construction every attribute but [radiation] is set,
    and [radiation] is set for a named wavelength. *)
Lemma init_numeric (r sp : R) (dw : option (gmap string R)) (self : XRDCalculator) :
  __init__ (PyFloat r) sp dw self =
  (mkXRDCalculator (radiation self) (Some r) (Some sp) (Some (default ∅ dw)), Ok tt).
Proof. reflexivity. Qed.

Lemma init_named (name : string) (w sp : R) (dw : option (gmap string R))
    (self : XRDCalculator) :
  WAVELENGTHS !! name = Some w ->
  __init__ (PyStr name) sp dw self =
  (mkXRDCalculator (Some name) (Some w) (Some sp) (Some (default ∅ dw)), Ok tt).
Proof.
  intros Hw. unfold __init__, sbind, set_radiation. rewrite Hw. reflexivity.
Qed.

Lemma WAVELENGTHS_CuKa : WAVELENGTHS !! "CuKa"%string = Some 1.54184.
Proof. vm_compute. reflexivity. Qed.

End InitFacts.

(** * The per-point physics *)

Lemma py_div_Ok (a b q : R) : py_div a b = Ok q <-> b <> 0 /\ q = a / b.
Proof.
  unfold py_div. destruct (decide (b = 0)) as [Hb|Hb].
  - split; [discriminate | intros [Hne _]; contradiction].
  - split; [intros Heq; injection Heq as <-; auto | intros [_ ->]; reflexivity].
Qed.

Lemma py_div_Raise (a b : R) (e : exn) :
  py_div a b = Raise e <-> b = 0 /\ e = ZeroDivisionError.
Proof.
  unfold py_div. destruct (decide (b = 0)) as [Hb|Hb].
  - split; [intros Heq; injection Heq as <-; auto | intros [_ ->]; reflexivity].
  - split; [discriminate | intros [Hz _]; contradiction].
Qed.

Lemma math_asin_Ok (v theta : R) :
  math_asin v = Ok theta <-> -1 <= v <= 1 /\ theta = asin v.
Proof.
  unfold math_asin. destruct (decide (-1 <= v <= 1)) as [Hv|Hv].
  - split; [intros Heq; injection Heq as <-; auto | intros [_ ->]; reflexivity].
  - split; [discriminate | intros [Hv' _]; contradiction].
Qed.


(** The intensity [(f * f.conjugate()).real] is the squared modulus. *)
Lemma modulus_square (f : complex) :
  Cre (Cmul f (Cconj f)) = Cre f ^ 2 + Cim f ^ 2.
Proof. destruct f as [a b]. unfold Cmul, Cconj, Cre, Cim. simpl. ring. Qed.

Lemma modulus_square_nonneg (f : complex) : 0 <= Cre (Cmul f (Cconj f)).
Proof. rewrite modulus_square. nra. Qed.

(** On the range of [asin] the cosine is not negative, so the Lorentz
    polarization factor is positive wherever its division is defined. *)
Lemma lorentz_factor_pos (v : R) :
  sin (asin v) ^ 2 * cos (asin v) <> 0 ->
  0 < (1 + cos (2 * asin v) ^ 2) / (sin (asin v) ^ 2 * cos (asin v)).
Proof.
  intros Hden.
  assert (Hc : 0 <= cos (asin v)).
  { destruct (asin_bound v) as [Hlo Hhi]. apply cos_ge_0; lra. }
  assert (Hs : 0 <= sin (asin v) ^ 2) by nra.
  assert (Hpos : 0 < sin (asin v) ^ 2 * cos (asin v)).
  { destruct (Rle_lt_or_eq_dec _ _ (Rmult_le_pos _ _ Hs Hc)) as [Hlt|Heq];
      [exact Hlt | congruence]. }
  apply Rdiv_lt_0_compat; [|exact Hpos].
  assert (0 <= cos (2 * asin v) ^ 2) by nra. lra.
Qed.

(** A Bragg angle of a point off the origin is not zero. *)
Lemma asin_pos (v : R) : 0 < v <= 1 -> 0 < asin v <= PI / 2.
Proof.
  intros [Hv0 Hv1]. destruct (asin_bound v) as [Hlo Hhi]. split; [|exact Hhi].
  destruct (Rlt_le_dec 0 (asin v)) as [Hpos|Hneg]; [exact Hpos|].
  exfalso.
  assert (Hsin : sin (asin v) = v) by (apply sin_asin; lra).
  assert (Hle : 0 <= sin (- asin v)).
  { pose proof PI_RGT_0. apply sin_ge_0; lra. }
  rewrite sin_neg in Hle. lra.
Qed.

(** * The loop over the reciprocal points *)

Section LoopFacts.
Import Xrd.
Context `{Environment}.

(** What a computed reflection is made of. *)
Lemma reflection_Ok (wavelength : R) (is_hex : bool)
    (contribs : list SiteContribution) (pt : RecipPoint) (r : Reflection) :
  reflection wavelength is_hex contribs pt = Ok r ->
  -1 <= wavelength * pt_g pt / 2 <= 1 /\
  contribs <> [] /\
  sin (asin (wavelength * pt_g pt / 2)) ^ 2 * cos (asin (wavelength * pt_g pt / 2)) <> 0 /\
  r_two_theta r = math_degrees (2 * asin (wavelength * pt_g pt / 2)) /\
  0 <= r_i_hkl r /\
  0 < r_lorentz_factor r /\
  r_g_hkl r = pt_g pt /\
  exists h k l : Z,
    (h, k, l) = (py_round (pt_hkl pt).1.1, py_round (pt_hkl pt).1.2, py_round (pt_hkl pt).2) /\
    r_hkl r = if is_hex then [h; k; (- h - k)%Z; l] else [h; k; l].
Proof.
  unfold reflection. destruct (pt_hkl pt) as [[h k] l]. intros Hrun.
  bind_inv Hrun. apply math_asin_Ok in Ha as [Hdom ->].
  bind_inv Hrun. rename a into gdr.
  assert (Hne : contribs <> []).
  { intros ->. simpl in Ha. discriminate. }
  bind_inv Hrun. apply py_div_Ok in Ha0 as [Hden ->].
  injection Hrun as <-. simpl.
  split; [exact Hdom|]. split; [exact Hne|]. split; [exact Hden|].
  split; [reflexivity|]. split; [apply modulus_square_nonneg|].
  split; [apply lorentz_factor_pos; exact Hden|]. split; [reflexivity|].
  exists (py_round h), (py_round k), (py_round l). split; reflexivity.
Qed.

(** The weight a reflection adds to its peak is not negative. *)
Lemma reflection_weight_nonneg (wavelength : R) (is_hex : bool)
    (contribs : list SiteContribution) (pt : RecipPoint) (r : Reflection) :
  reflection wavelength is_hex contribs pt = Ok r ->
  0 <= r_i_hkl r * r_lorentz_factor r.
Proof.
  intros Hr. apply reflection_Ok in Hr as (_ & _ & _ & _ & Hi & Hl & _).
  apply Rmult_le_pos; lra.
Qed.

Lemma merge_found (peaks : list (R * Peak)) (two_thetas : list R) (r : Reflection)
    (i : nat) (rest : list nat) :
  np_where (map (fun t => bool_decide (Rabs (t - r_two_theta r) < TWO_THETA_TOL))
              two_thetas) = i :: rest ->
  exists key, two_thetas !! i = Some key /\ within_tol (r_two_theta r) key /\
    forall j t, (j < i)%nat -> two_thetas !! j = Some t -> ~ within_tol (r_two_theta r) t.
Proof.
  intros Hind. apply np_where_first in Hind as [Hi Hbefore].
  rewrite list_lookup_fmap in Hi.
  destruct (two_thetas !! i) as [key|] eqn:Hkey; [|discriminate].
  exists key. split; [reflexivity|]. split.
  - simpl in Hi. injection Hi as Hi. apply bool_decide_eq_true in Hi. exact Hi.
  - intros j t Hj Ht Hin. specialize (Hbefore j Hj).
    rewrite list_lookup_fmap, Ht in Hbefore. simpl in Hbefore.
    injection Hbefore as Hb. apply bool_decide_eq_false in Hb. contradiction.
Qed.

Lemma merge_not_found (two_thetas : list R) (r : Reflection) :
  np_where (map (fun t => bool_decide (Rabs (t - r_two_theta r) < TWO_THETA_TOL))
              two_thetas) = [] ->
  forall t, t ∈ two_thetas -> ~ within_tol (r_two_theta r) t.
Proof.
  intros Hind t Ht. apply np_where_from_nil in Hind.
  rewrite Forall_forall in Hind.
  specialize (Hind (bool_decide (Rabs (t - r_two_theta r) < TWO_THETA_TOL))).
  intros Hin. unfold within_tol in Hin.
  assert (Hb : bool_decide (Rabs (t - r_two_theta r) < TWO_THETA_TOL) = true)
    by (apply bool_decide_eq_true; exact Hin).
  rewrite Hind in Hb; [discriminate|].
  apply list_elem_of_fmap. exists t. auto.
Qed.

(** The two outcomes of [merge]. *)
Lemma merge_Ok (st st' : peaks_state) (r : Reflection) :
  merge st r = Ok st' ->
  (exists key v,
      key ∈ st.2 /\ within_tol (r_two_theta r) key /\
      dict_get key st.1 = Some v /\
      st' = (dict_set key (mkPeak (intensity v + r_i_hkl r * r_lorentz_factor r)
                             (peak_hkls v ++ [r_hkl r]) (d_hkl v)) st.1, st.2))
  \/ ((forall t, t ∈ st.2 -> ~ within_tol (r_two_theta r) t) /\
      st' = (dict_set (r_two_theta r)
               (mkPeak (r_i_hkl r * r_lorentz_factor r) [r_hkl r] (1 / r_g_hkl r)) st.1,
             st.2 ++ [r_two_theta r])).
Proof.
  destruct st as [peaks two_thetas]. unfold merge.
  destruct (np_where _) as [|i rest] eqn:Hind; intros Hrun.
  - right. injection Hrun as <-. split; [|reflexivity].
    apply merge_not_found. exact Hind.
  - left. destruct (merge_found peaks _ _ _ _ Hind) as (key & Hkey & Hin & _).
    unfold list_get in Hrun. rewrite Hkey in Hrun. simpl in Hrun.
    destruct (dict_get key peaks) as [v|] eqn:Hget; [|discriminate].
    injection Hrun as <-. exists key, v.
    split; [eapply list_elem_of_lookup_2; exact Hkey|]. auto.
Qed.

End LoopFacts.

Section InvariantFacts.
Import Xrd.
Context `{Environment}.

Lemma within_tol_sym (a b : R) : within_tol a b <-> within_tol b a.
Proof. unfold within_tol. rewrite (Rabs_minus_sym b a). reflexivity. Qed.

Lemma peaks_inv_init : peaks_inv ([], []).
Proof.
  split; [constructor|]. split; [reflexivity|].
  intros a b Ha. apply elem_of_nil in Ha. contradiction.
Qed.

Lemma merge_inv (st st' : peaks_state) (r : Reflection) :
  peaks_inv st -> merge st r = Ok st' -> peaks_inv st'.
Proof.
  destruct st as [peaks two_thetas]. intros (Hnd & Hkeys & Hsep) Hrun.
  apply merge_Ok in Hrun as [(key & v & Hin & Htol & Hget & ->)|(Hfar & ->)];
    simpl in *.
  - assert (Hk : key ∈ dict_keys peaks) by (apply Hkeys; exact Hin).
    split; [apply dict_keys_set_NoDup; exact Hnd|]. split; [|exact Hsep].
    intros k. rewrite dict_keys_set_elem, <- Hkeys.
    split; [intros [->|Hk']; assumption | auto].
  - split; [apply dict_keys_set_NoDup; exact Hnd|]. split.
    + intros k. rewrite dict_keys_set_elem, elem_of_app, list_elem_of_singleton, Hkeys.
      tauto.
    + intros a b Ha Hb Hne.
      apply elem_of_app in Ha as [Ha|Ha]; apply elem_of_app in Hb as [Hb|Hb];
        rewrite ?list_elem_of_singleton in *; subst.
      * auto.
      * specialize (Hfar a Ha). unfold within_tol in Hfar. lra.
      * specialize (Hfar b Hb). unfold within_tol in Hfar.
        rewrite Rabs_minus_sym. lra.
      * contradiction.
Qed.

Lemma process_point_inv (wavelength : R) (is_hex : bool)
    (contribs : list SiteContribution) (st st' : peaks_state) (pt : RecipPoint) :
  peaks_inv st -> process_point wavelength is_hex contribs st pt = Ok st' ->
  peaks_inv st'.
Proof.
  intros Hinv. unfold process_point. destruct (decide (pt_g pt = 0)).
  - intros Heq. injection Heq as <-. exact Hinv.
  - intros Hrun. bind_inv Hrun. eapply merge_inv; eauto.
Qed.

Lemma accumulate_inv (wavelength : R) (is_hex : bool)
    (contribs : list SiteContribution) (recip_pts : list RecipPoint)
    (st : peaks_state) :
  accumulate wavelength is_hex contribs recip_pts = Ok st -> peaks_inv st.
Proof.
  unfold accumulate. intros Hrun.
  apply (for_each_invariant _ (fun _ st => peaks_inv st) _
           (fun done a st st' => process_point_inv _ _ _ st st' a) [] _ _
           peaks_inv_init Hrun).
Qed.

(** ** The final loop *)

Lemma sorted_items_keys (peaks : list (R * Peak)) :
  map fst (sorted_items peaks) =
  sorted (fun a b => bool_decide (a <= b)) (dict_keys peaks).
Proof.
  unfold sorted_items, dict_keys.
  induction peaks as [|kv peaks IH]; simpl; [reflexivity|].
  rewrite <- IH. generalize (sorted (fun a b => bool_decide (a.1 <= b.1)) peaks).
  intros l. induction l as [|kv' l IHl]; simpl; [reflexivity|].
  destruct (bool_decide (kv.1 <= kv'.1)); simpl; [reflexivity|].
  rewrite IHl. reflexivity.
Qed.

Lemma sorted_items_elem (peaks : list (R * Peak)) (kv : R * Peak) :
  kv ∈ sorted_items peaks <-> kv ∈ peaks.
Proof. apply sorted_elem. Qed.

Lemma emit_loop (peaks : list (R * Peak)) (max_intensity : R)
    (items : list (R * Peak)) (acc : DiffractionPattern) :
  (forall k v, (k, v) ∈ items -> dict_get k peaks = Some v) ->
  for_each (emit_peak peaks max_intensity) (map fst items) acc =
  Ok (extend acc
        (filter (fun kv => above_threshold (intensity kv.2) max_intensity = true) items)).
Proof.
  revert acc. induction items as [|[k v] items IH]; intros acc Hget.
  - unfold extend. simpl. rewrite !app_nil_r. destruct acc; reflexivity.
  - cbn [map for_each fst]. unfold emit_peak at 1. rewrite (Hget k v) by left.
    rewrite filter_cons. cbn [snd].
    destruct (above_threshold (intensity v) max_intensity) eqn:Hab.
    + rewrite decide_True by reflexivity. cbn [bind].
      rewrite IH by (intros k' v' Hin; apply Hget; right; exact Hin).
      unfold extend. cbn [pat_x pat_y pat_hkls pat_d_hkls map fst snd].
      rewrite <- !app_assoc. reflexivity.
    + rewrite decide_False by discriminate. cbn [bind].
      apply IH. intros k' v' Hin. apply Hget. right. exact Hin.
Qed.

(** Lines 264-277 in one formula. *)
Lemma build_pattern_kept (peaks : list (R * Peak)) :
  NoDup (dict_keys peaks) ->
  build_pattern peaks =
  do max_intensity <- py_max (map intensity (dict_values peaks));
  Ok (extend (mkDiffractionPattern [] [] [] []) (kept peaks max_intensity)).
Proof.
  intros Hnd. unfold build_pattern.
  destruct (py_max (map intensity (dict_values peaks))) as [m|e]; simpl; [|reflexivity].
  rewrite <- sorted_items_keys. apply emit_loop.
  intros k v Hin. apply dict_get_elem_NoDup; [exact Hnd|].
  apply sorted_items_elem. exact Hin.
Qed.

End InvariantFacts.

(** ** [max] and the threshold *)

Lemma fold_max_spec (rest : list R) (v : R) :
  let m := fold_left (fun m w => if decide (m < w) then w else m) rest v in
  m ∈ v :: rest /\ forall w, w ∈ v :: rest -> w <= m.
Proof.
  revert v. induction rest as [|a rest IH]; intros v; simpl.
  - split; [left|]. intros w Hw. apply list_elem_of_singleton in Hw. subst. lra.
  - destruct (decide (v < a)) as [Hlt|Hge].
    + destruct (IH a) as [Hin Hmax]. split; [right; exact Hin|].
      intros w Hw. apply elem_of_cons in Hw as [->|Hw]; [|auto].
      specialize (Hmax a ltac:(left)). lra.
    + destruct (IH v) as [Hin Hmax]. split.
      * apply elem_of_cons in Hin as [Heq|Hin]; [rewrite Heq; left | right; right; exact Hin].
      * intros w Hw. apply elem_of_cons in Hw as [->|Hw]; [apply Hmax; left|].
        apply elem_of_cons in Hw as [->|Hw]; [|apply Hmax; right; exact Hw].
        specialize (Hmax v ltac:(left)). lra.
Qed.

Lemma py_max_Ok (l : list R) (m : R) :
  py_max l = Ok m -> m ∈ l /\ forall w, w ∈ l -> w <= m.
Proof.
  destruct l as [|v rest]; simpl; [discriminate|].
  intros Heq. injection Heq as <-. apply fold_max_spec.
Qed.

Lemma py_max_nonempty (l : list R) : l <> [] -> exists m, py_max l = Ok m.
Proof. destruct l as [|v rest]; [congruence | simpl; eauto]. Qed.

Lemma py_max_empty (l : list R) (e : exn) :
  py_max l = Raise e -> l = [] /\ e = ValueError "max() iterable argument is empty".
Proof. destruct l; simpl; [intros Heq; injection Heq as <-; auto | discriminate]. Qed.

(** The maximum is determined by the two properties of [py_max_Ok]. *)
Lemma py_max_unique (l : list R) (m : R) :
  m ∈ l -> (forall w, w ∈ l -> w <= m) -> py_max l = Ok m.
Proof.
  intros Hin Hmax. destruct (py_max_nonempty l) as [m' Hm'].
  { intros ->. apply elem_of_nil in Hin. contradiction. }
  rewrite Hm'. f_equal. apply py_max_Ok in Hm' as [Hin' Hmax'].
  specialize (Hmax m' Hin'). specialize (Hmax' m Hin). lra.
Qed.

(** A linear rescaling by a positive factor moves the maximum along. *)
Lemma py_max_rescale (l : list R) (m c : R) :
  0 < c -> py_max l = Ok m -> py_max (map (fun v => v / c) l) = Ok (m / c).
Proof.
  intros Hc Hm. apply py_max_Ok in Hm as [Hin Hmax]. apply py_max_unique.
  - apply list_elem_of_fmap. exists m. auto.
  - intros w Hw. apply list_elem_of_fmap in Hw as (v & -> & Hv).
    specialize (Hmax v Hv). unfold Rdiv.
    apply Rmult_le_compat_r; [|exact Hmax].
    apply Rlt_le, Rinv_0_lt_compat. exact Hc.
Qed.

Section ThresholdFacts.
Import Xrd.
Context `{Environment}.

(** The test of line 272 in terms of real numbers, for an intensity that
    does not exceed the maximum. *)
Lemma above_threshold_spec (v0 max_intensity : R) :
  v0 <= max_intensity ->
  above_threshold v0 max_intensity = true <->
  max_intensity <> 0 /\ SCALED_INTENSITY_TOL < v0 / max_intensity * 100.
Proof.
  intros Hle. unfold above_threshold, np_true_divide.
  destruct (decide (max_intensity = 0)) as [Hz|Hnz].
  - destruct (decide (0 < v0)) as [Hpos|Hnpos]; [lra|].
    destruct (decide (v0 < 0)); simpl; (split; [discriminate | intros [Hne _]; contradiction]).
  - simpl. rewrite bool_decide_eq_true. tauto.
Qed.

End ThresholdFacts.

(** * [get_pattern], statement by statement *)

Section GetPatternFacts.
Import Xrd.
Context `{Environment}.

Lemma getattr_Ok {A : Type} (name : string) (field : option A) (a : A) :
  getattr name field = Ok a <-> field = Some a.
Proof.
  destruct field; simpl; split; intros Heq; try discriminate; congruence.
Qed.

(** The run behind a returned pattern. *)
Lemma get_pattern_Ok (self : XRDCalculator) (structure : Structure) (scaled : bool)
    (two_theta_range : option (R * R)) (p : DiffractionPattern) :
  get_pattern self structure scaled two_theta_range = Ok p ->
  exists sym w min_r max_r contribs peaks two_thetas xrd,
    symprec self = Some sym /\
    wavelength self = Some w /\
    radius_window w two_theta_range = Ok (min_r, max_r) /\
    flatten_sites self (refined sym structure) = Ok contribs /\
    accumulate w (is_hexagonal (lattice (refined sym structure))) contribs
      (candidate_points (lattice (refined sym structure)) min_r max_r)
    = Ok (peaks, two_thetas) /\
    build_pattern peaks = Ok xrd /\
    (if scaled then normalize xrd 100 = Ok p else p = xrd).
Proof.
  unfold get_pattern. intros Hrun.
  bind_inv Hrun. apply getattr_Ok in Ha. rename a into sym.
  bind_inv Hrun. apply getattr_Ok in Ha0. rename a into w.
  bind_inv Hrun. destruct a as [min_r max_r].
  bind_inv Hrun. rename a into contribs.
  bind_inv Hrun. destruct a as [peaks two_thetas].
  bind_inv Hrun. rename a into xrd.
  exists sym, w, min_r, max_r, contribs, peaks, two_thetas, xrd.
  repeat (split; [assumption|]).
  destruct scaled; [exact Hrun | injection Hrun as <-; reflexivity].
Qed.

Lemma normalize_Ok (xrd p : DiffractionPattern) (value : R) :
  normalize xrd value = Ok p ->
  exists factor, py_max (pat_y xrd) = Ok factor /\
    pat_x p = pat_x xrd /\
    pat_y p = map (fun v => v / (factor / value)) (pat_y xrd) /\
    pat_hkls p = pat_hkls xrd /\ pat_d_hkls p = pat_d_hkls xrd.
Proof.
  unfold normalize. intros Hrun. bind_inv Hrun. injection Hrun as <-.
  exists a. simpl. auto.
Qed.

(** What [build_pattern] returns for the peaks of a run. *)
Lemma build_pattern_Ok (peaks : list (R * Peak)) (xrd : DiffractionPattern) :
  NoDup (dict_keys peaks) ->
  build_pattern peaks = Ok xrd ->
  exists max_intensity,
    py_max (map intensity (dict_values peaks)) = Ok max_intensity /\
    xrd = extend (mkDiffractionPattern [] [] [] []) (kept peaks max_intensity).
Proof.
  intros Hnd Hb. rewrite build_pattern_kept in Hb by exact Hnd.
  bind_inv Hb. injection Hb as <-. eauto.
Qed.

End GetPatternFacts.

(** Dropping elements keeps a list ascending. *)
Lemma StronglySorted_map_filter {A : Type} (key : A -> R) (P : A -> Prop)
    `{!forall a, Decision (P a)} (l : list A) :
  StronglySorted Rlt (map key l) -> StronglySorted Rlt (map key (filter P l)).
Proof.
  induction l as [|a l IH]; simpl; intros Hs; [constructor|].
  apply StronglySorted_inv in Hs as [Hs Ha]. rewrite filter_cons.
  destruct (decide (P a)); simpl; [|auto].
  constructor; [auto|].
  rewrite Forall_forall in *. intros k Hk. apply Ha.
  apply list_elem_of_fmap in Hk as (b & -> & Hb).
  apply list_elem_of_filter in Hb as [_ Hb].
  apply list_elem_of_fmap. eauto.
Qed.

Lemma StronglySorted_Rlt_lookup (l : list R) (i j : nat) (a b : R) :
  StronglySorted Rlt l -> i <> j -> l !! i = Some a -> l !! j = Some b -> a <> b.
Proof.
  intros Hs. revert i j. induction Hs as [|c l Hs IH Hc]; intros i j Hne Hi Hj.
  - discriminate.
  - rewrite Forall_forall in Hc. destruct i as [|i], j as [|j]; simpl in *.
    + congruence.
    + injection Hi as <-. apply list_elem_of_lookup_2 in Hj. specialize (Hc b Hj). lra.
    + injection Hj as <-. apply list_elem_of_lookup_2 in Hi. specialize (Hc a Hi). lra.
    + eapply IH; [|exact Hi|exact Hj]. congruence.
Qed.

(** ** Intensities are not negative *)

Section IntensityFacts.
Import Xrd.
Context `{Environment}.

Lemma dict_set_Forall_key {V : Type} (P : R * V -> Prop) (d : list (R * V))
    (k : R) (v : V) :
  P (k, v) -> Forall P d -> Forall P (dict_set k v d).
Proof.
  intros Hv. induction 1 as [|[k0 v0] d H0 Hd IH]; simpl.
  - constructor; [exact Hv | constructor].
  - destruct (decide (k0 = k)) as [->|Hne]; constructor; auto.
Qed.

Lemma dict_set_Forall {V : Type} (P : R * V -> Prop) (d : list (R * V)) (k : R) (v : V) :
  (forall k', P (k', v)) -> Forall P d -> Forall P (dict_set k v d).
Proof. intros Hv. apply dict_set_Forall_key, Hv. Qed.

Lemma dict_get_fmap {V W : Type} (f : V -> W) (d : list (R * V)) (k : R) :
  dict_get k (map (fun kv => (kv.1, f kv.2)) d) = option_map f (dict_get k d).
Proof.
  induction d as [|[k0 v0] d IH]; simpl; [reflexivity|].
  destruct (decide (k0 = k)); [reflexivity | exact IH].
Qed.

Lemma dict_set_fmap {V W : Type} (f : V -> W) (d : list (R * V)) (k : R) (v : V) :
  map (fun kv => (kv.1, f kv.2)) (dict_set k v d) =
  dict_set k (f v) (map (fun kv => (kv.1, f kv.2)) d).
Proof.
  induction d as [|[k0 v0] d IH]; simpl; [reflexivity|].
  destruct (decide (k0 = k)); simpl; [reflexivity|]. f_equal. exact IH.
Qed.

Lemma merge_nonneg (st st' : peaks_state) (r : Reflection) :
  0 <= r_i_hkl r * r_lorentz_factor r ->
  Forall (fun kv => 0 <= intensity kv.2) st.1 ->
  merge st r = Ok st' ->
  Forall (fun kv => 0 <= intensity kv.2) st'.1.
Proof.
  intros Hw Hall Hrun.
  apply merge_Ok in Hrun as [(key & v & Hin & Htol & Hget & ->)|(Hfar & ->)]; simpl.
  - apply dict_set_Forall; [|exact Hall]. intros k0. simpl.
    apply dict_get_Some_elem in Hget. rewrite Forall_forall in Hall.
    specialize (Hall _ Hget). simpl in Hall. lra.
  - apply dict_set_Forall; [|exact Hall]. intros k0. simpl. exact Hw.
Qed.

Lemma accumulate_nonneg (wavelength : R) (is_hex : bool)
    (contribs : list SiteContribution) (recip_pts : list RecipPoint)
    (st : peaks_state) :
  accumulate wavelength is_hex contribs recip_pts = Ok st ->
  Forall (fun kv => 0 <= intensity kv.2) st.1.
Proof.
  unfold accumulate. intros Hrun.
  refine (for_each_invariant _
            (fun _ st => Forall (fun kv => 0 <= intensity kv.2) st.1) _ _ [] _ _ _ Hrun).
  - intros done pt st0 st1 Hall Hstep. unfold process_point in Hstep.
    destruct (decide (pt_g pt = 0)).
    + injection Hstep as <-. exact Hall.
    + bind_inv Hstep. eapply merge_nonneg; [|exact Hall|exact Hstep].
      eapply reflection_weight_nonneg. exact Ha.
  - constructor.
Qed.

End IntensityFacts.

(** * The loops over the sites *)

Lemma for_each_Ok_each {S A : Type} (body : S -> A -> result S) (l : list A)
    (st st' : S) :
  for_each body l st = Ok st' ->
  forall a, a ∈ l -> exists s1 s2, body s1 a = Ok s2.
Proof.
  revert st. induction l as [|b l IH]; intros st Hrun a Ha.
  - apply elem_of_nil in Ha. contradiction.
  - simpl in Hrun. bind_inv Hrun. apply elem_of_cons in Ha as [->|Ha]; eauto.
Qed.

Lemma for_each_Raise_some {S A : Type} (body : S -> A -> result S) (l : list A)
    (st : S) (e : exn) :
  for_each body l st = Raise e ->
  exists a s1, a ∈ l /\ body s1 a = Raise e.
Proof.
  revert st. induction l as [|b l IH]; intros st Hrun; simpl in Hrun; [discriminate|].
  destruct (body st b) as [st1|e1] eqn:Hb; simpl in Hrun.
  - destruct (IH _ Hrun) as (a & s1 & Ha & Hr). exists a, s1. split; [right|]; assumption.
  - injection Hrun as <-. exists b, st. split; [left | exact Hb].
Qed.

Lemma for_each_total {S A : Type} (body : S -> A -> result S) (l : list A) (st : S) :
  (forall s a, a ∈ l -> exists s', body s a = Ok s') ->
  exists st', for_each body l st = Ok st'.
Proof.
  revert st. induction l as [|b l IH]; intros st Hbody; simpl; [eauto|].
  destruct (Hbody st b) as [s' Hs']; [left|]. rewrite Hs'. simpl.
  apply IH. intros s a Ha. apply Hbody. right. exact Ha.
Qed.

Section FlattenFacts.
Import Xrd.
Context `{Environment}.

Lemma flatten_species_Ok (self : XRDCalculator) (site : Site)
    (acc acc' : list SiteContribution) (sp : Species) (occu : R) :
  flatten_species self site acc (sp, occu) = Ok acc' ->
  exists c dw, ATOMIC_SCATTERING_PARAMS !! sp_symbol sp = Some c /\
    debye_waller_factors self = Some dw /\
    acc' = acc ++ [mkSiteContribution (sp_Z sp) c (default 0 (dw !! sp_symbol sp))
                     (frac_coords site) occu].
Proof.
  unfold flatten_species.
  destruct (ATOMIC_SCATTERING_PARAMS !! sp_symbol sp) as [c|]; [|discriminate].
  intros Hrun. bind_inv Hrun. apply getattr_Ok in Ha. injection Hrun as <-. eauto.
Qed.

Lemma flatten_species_Raise (self : XRDCalculator) (site : Site)
    (acc : list SiteContribution) (sp : Species) (occu : R) (e : exn) :
  is_Some (debye_waller_factors self) ->
  flatten_species self site acc (sp, occu) = Raise e ->
  ATOMIC_SCATTERING_PARAMS !! sp_symbol sp = None /\ e = no_coefficients (sp_symbol sp).
Proof.
  intros [dw Hdw]. unfold flatten_species.
  destruct (ATOMIC_SCATTERING_PARAMS !! sp_symbol sp) as [c|].
  - rewrite Hdw. simpl. discriminate.
  - intros Heq. injection Heq as <-. auto.
Qed.

Lemma flatten_sites_known (self : XRDCalculator) (structure : Structure)
    (contribs : list SiteContribution) :
  flatten_sites self structure = Ok contribs ->
  forall site sp occu, site ∈ sites structure -> (sp, occu) ∈ species site ->
    is_Some (ATOMIC_SCATTERING_PARAMS !! sp_symbol sp).
Proof.
  unfold flatten_sites. intros Hrun site sp occu Hsite Hsp.
  destruct (for_each_Ok_each _ _ _ _ Hrun site Hsite) as (s1 & s2 & Hinner).
  destruct (for_each_Ok_each _ _ _ _ Hinner (sp, occu) Hsp) as (a1 & a2 & Hbody).
  apply flatten_species_Ok in Hbody as (c & _ & Hc & _). eauto.
Qed.

Lemma flatten_sites_Raise (self : XRDCalculator) (structure : Structure) (e : exn) :
  is_Some (debye_waller_factors self) ->
  flatten_sites self structure = Raise e ->
  exists site sp occu, site ∈ sites structure /\ (sp, occu) ∈ species site /\
    ATOMIC_SCATTERING_PARAMS !! sp_symbol sp = None /\
    e = no_coefficients (sp_symbol sp).
Proof.
  unfold flatten_sites. intros Hdw Hrun.
  apply for_each_Raise_some in Hrun as (site & s1 & Hsite & Hinner).
  apply for_each_Raise_some in Hinner as ([sp occu] & a1 & Hsp & Hbody).
  apply flatten_species_Raise in Hbody as [Hnone ->]; [|exact Hdw].
  exists site, sp, occu. auto.
Qed.

Lemma flatten_sites_total (self : XRDCalculator) (structure : Structure) :
  is_Some (debye_waller_factors self) ->
  (forall site sp occu, site ∈ sites structure -> (sp, occu) ∈ species site ->
     is_Some (ATOMIC_SCATTERING_PARAMS !! sp_symbol sp)) ->
  exists contribs, flatten_sites self structure = Ok contribs.
Proof.
  intros [dw Hdw] Hknown. unfold flatten_sites. apply for_each_total.
  intros acc site Hsite. apply for_each_total.
  intros acc' [sp occu] Hsp. destruct (Hknown site sp occu Hsite Hsp) as [c Hc].
  unfold flatten_species. rewrite Hc, Hdw. simpl. eauto.
Qed.

Lemma radius_window_total (wavelength : R) (two_theta_range : option (R * R)) :
  wavelength <> 0 ->
  exists min_r max_r, radius_window wavelength two_theta_range = Ok (min_r, max_r).
Proof.
  intros Hw. unfold radius_window, bragg_radius, py_div.
  destruct two_theta_range as [[t_lo t_hi]|]; rewrite !decide_False by exact Hw;
    simpl; eauto.
Qed.

End FlattenFacts.

(** * Hexagonal lattices *)

Section HexFacts.
Import Xrd.
Context `{Environment}.

Lemma reflection_shape (wavelength : R) (is_hex : bool)
    (contribs : list SiteContribution) (pt : RecipPoint) (r : Reflection) :
  reflection wavelength is_hex contribs pt = Ok r -> miller_shape is_hex (r_hkl r).
Proof.
  intros Hr. apply reflection_Ok in Hr as (_ & _ & _ & _ & _ & _ & _ & h & k & l & _ & Hhkl).
  rewrite Hhkl. unfold miller_shape. destruct is_hex; eauto.
Qed.

Lemma merge_shape (is_hex : bool) (st st' : peaks_state) (r : Reflection) :
  miller_shape is_hex (r_hkl r) -> peaks_shape is_hex st.1 ->
  merge st r = Ok st' -> peaks_shape is_hex st'.1.
Proof.
  intros Hr Hall Hrun. unfold peaks_shape in *.
  apply merge_Ok in Hrun as [(key & v & Hin & Htol & Hget & ->)|(Hfar & ->)]; simpl.
  - apply dict_set_Forall; [|exact Hall]. intros k0. simpl.
    apply dict_get_Some_elem in Hget. rewrite Forall_forall in Hall.
    specialize (Hall _ Hget). simpl in Hall.
    apply Forall_app. split; [exact Hall | repeat constructor; exact Hr].
  - apply dict_set_Forall; [|exact Hall]. intros k0. simpl.
    repeat constructor. exact Hr.
Qed.

Lemma accumulate_shape (wavelength : R) (is_hex : bool)
    (contribs : list SiteContribution) (recip_pts : list RecipPoint)
    (st : peaks_state) :
  accumulate wavelength is_hex contribs recip_pts = Ok st ->
  peaks_shape is_hex st.1.
Proof.
  unfold accumulate. intros Hrun.
  refine (for_each_invariant _ (fun _ st => peaks_shape is_hex st.1) _ _ [] _ _ _ Hrun).
  - intros done pt st0 st1 Hall Hstep. unfold process_point in Hstep.
    destruct (decide (pt_g pt = 0)).
    + injection Hstep as <-. exact Hall.
    + bind_inv Hstep. eapply merge_shape; [|exact Hall|exact Hstep].
      eapply reflection_shape. exact Ha.
  - constructor.
Qed.

(** The conversion to four indices changes nothing but the indices. *)
Lemma reflection_hex_irrelevant (wavelength : R) (contribs : list SiteContribution)
    (pt : RecipPoint) :
  match reflection wavelength true contribs pt,
        reflection wavelength false contribs pt with
  | Ok r4, Ok r3 =>
      r_two_theta r4 = r_two_theta r3 /\ r_i_hkl r4 = r_i_hkl r3 /\
      r_lorentz_factor r4 = r_lorentz_factor r3 /\ r_g_hkl r4 = r_g_hkl r3 /\
      exists h k l : Z, r_hkl r3 = [h; k; l] /\ r_hkl r4 = [h; k; (- h - k)%Z; l]
  | Raise e4, Raise e3 => e4 = e3
  | _, _ => False
  end.
Proof.
  unfold reflection. destruct (pt_hkl pt) as [[h k] l].
  destruct (math_asin (wavelength * pt_g pt / 2)) as [theta|e]; cbn [bind];
    [|reflexivity].
  destruct (g_dot_r contribs (py_round h, py_round k, py_round l)) as [gdr|e];
    cbn [bind]; [|reflexivity].
  destruct (py_div (1 + cos (2 * theta) ^ 2) (sin theta ^ 2 * cos theta)) as [lf|e];
    cbn [bind]; [|reflexivity].
  cbn. repeat (split; [reflexivity|]). eauto.
Qed.

Lemma without_hkls_get (peaks : list (R * Peak)) (k : R) :
  dict_get k (without_hkls peaks) =
  option_map (fun v => (intensity v, d_hkl v)) (dict_get k peaks).
Proof.
  induction peaks as [|[k0 v0] peaks IH]; simpl; [reflexivity|].
  destruct (decide (k0 = k)); [reflexivity | exact IH].
Qed.

Lemma without_hkls_set (peaks : list (R * Peak)) (k : R) (v : Peak) :
  without_hkls (dict_set k v peaks) =
  dict_set k (intensity v, d_hkl v) (without_hkls peaks).
Proof.
  induction peaks as [|[k0 v0] peaks IH]; simpl; [reflexivity|].
  destruct (decide (k0 = k)); simpl; [reflexivity|]. f_equal. exact IH.
Qed.

(** [merge] on two states that differ in the Miller indices only, with two
    reflections that differ in the Miller indices only. *)
Lemma merge_hex_irrelevant (st4 st3 : peaks_state) (r4 r3 : Reflection) :
  st4.2 = st3.2 -> without_hkls st4.1 = without_hkls st3.1 ->
  r_two_theta r4 = r_two_theta r3 -> r_i_hkl r4 = r_i_hkl r3 ->
  r_lorentz_factor r4 = r_lorentz_factor r3 -> r_g_hkl r4 = r_g_hkl r3 ->
  match merge st4 r4, merge st3 r3 with
  | Ok st4', Ok st3' => st4'.2 = st3'.2 /\ without_hkls st4'.1 = without_hkls st3'.1
  | Raise e4, Raise e3 => e4 = e3
  | _, _ => False
  end.
Proof.
  destruct st4 as [pk4 tt4], st3 as [pk3 tt3]. simpl.
  intros -> Hpk Htt Hi Hl Hg. unfold merge. rewrite Htt.
  destruct (np_where _) as [|i rest].
  - simpl. split; [reflexivity|]. rewrite !without_hkls_set, Hpk. simpl.
    rewrite Hi, Hl, Hg. reflexivity.
  - destruct (list_get tt3 i) as [key|e]; simpl; [|reflexivity].
    pose proof (without_hkls_get pk4 key) as H4.
    pose proof (without_hkls_get pk3 key) as H3.
    rewrite Hpk, H3 in H4.
    destruct (dict_get key pk4) as [v4|], (dict_get key pk3) as [v3|];
      simpl in H4; try discriminate; [|reflexivity].
    injection H4 as Hv Hd. simpl. split; [reflexivity|].
    rewrite !without_hkls_set, Hpk. simpl. rewrite Hi, Hl, Hv, Hd. reflexivity.
Qed.

Lemma process_point_hex_irrelevant (wavelength : R)
    (contribs : list SiteContribution) (st4 st3 : peaks_state) (pt : RecipPoint) :
  st4.2 = st3.2 -> without_hkls st4.1 = without_hkls st3.1 ->
  match process_point wavelength true contribs st4 pt,
        process_point wavelength false contribs st3 pt with
  | Ok st4', Ok st3' => st4'.2 = st3'.2 /\ without_hkls st4'.1 = without_hkls st3'.1
  | Raise e4, Raise e3 => e4 = e3
  | _, _ => False
  end.
Proof.
  intros Htt Hpk. unfold process_point.
  destruct (decide (pt_g pt = 0)); [auto|].
  pose proof (reflection_hex_irrelevant wavelength contribs pt) as Hr.
  destruct (reflection wavelength true contribs pt) as [r4|e4],
           (reflection wavelength false contribs pt) as [r3|e3];
    cbn [bind]; try contradiction; [|exact Hr].
  destruct Hr as (Ht & Hi & Hl & Hg & _).
  exact (merge_hex_irrelevant st4 st3 r4 r3 Htt Hpk Ht Hi Hl Hg).
Qed.

Lemma accumulate_hex_irrelevant (wavelength : R) (contribs : list SiteContribution)
    (recip_pts : list RecipPoint) :
  match accumulate wavelength true contribs recip_pts,
        accumulate wavelength false contribs recip_pts with
  | Ok st4, Ok st3 => st4.2 = st3.2 /\ without_hkls st4.1 = without_hkls st3.1
  | Raise e4, Raise e3 => e4 = e3
  | _, _ => False
  end.
Proof.
  unfold accumulate.
  assert (Hgen : forall l st4 st3,
             st4.2 = st3.2 -> without_hkls st4.1 = without_hkls st3.1 ->
             match for_each (process_point wavelength true contribs) l st4,
                   for_each (process_point wavelength false contribs) l st3 with
             | Ok st4', Ok st3' =>
                 st4'.2 = st3'.2 /\ without_hkls st4'.1 = without_hkls st3'.1
             | Raise e4, Raise e3 => e4 = e3
             | _, _ => False
             end).
  { induction l as [|pt l IH]; intros st4 st3 Htt Hpk; cbn [for_each]; [auto|].
    pose proof (process_point_hex_irrelevant wavelength contribs st4 st3 pt Htt Hpk)
      as Hp.
    destruct (process_point wavelength true contribs st4 pt) as [st4'|e4],
             (process_point wavelength false contribs st3 pt) as [st3'|e3];
      cbn [bind]; try contradiction; [|exact Hp].
    destruct Hp as [Htt' Hpk']. apply IH; assumption. }
  apply Hgen; reflexivity.
Qed.

End HexFacts.

(** * The processing order and the clusters *)

Section OrderFacts.
Import Xrd.
Context `{Environment}.

Lemma key_leb_spec (p q : RecipPoint) :
  key_leb p q = true <-> processed_no_later p q.
Proof.
  unfold key_leb, processed_no_later, sort_key, tuple_lt.
  destruct (pt_hkl p) as [[h1 k1] l1], (pt_hkl q) as [[h2 k2] l2].
  rewrite negb_true_iff.
  repeat case_decide; rewrite bool_decide_eq_false; lra.
Qed.

Lemma key_leb_total (p q : RecipPoint) : key_leb p q = true \/ key_leb q p = true.
Proof.
  rewrite !key_leb_spec. unfold processed_no_later.
  destruct (pt_hkl p) as [[h1 k1] l1], (pt_hkl q) as [[h2 k2] l2]. lra.
Qed.

Lemma key_leb_trans (p q r : RecipPoint) :
  key_leb p q = true -> key_leb q r = true -> key_leb p r = true.
Proof.
  rewrite !key_leb_spec. unfold processed_no_later.
  destruct (pt_hkl p) as [[h1 k1] l1], (pt_hkl q) as [[h2 k2] l2],
           (pt_hkl r) as [[h3 k3] l3]. lra.
Qed.

Lemma sorted_points_order (recip_pts : list RecipPoint) :
  StronglySorted processed_no_later (sorted key_leb recip_pts).
Proof.
  pose proof (sorted_StronglySorted key_leb key_leb_total key_leb_trans recip_pts) as Hs.
  induction Hs as [|pt l Hs IH Hpt]; constructor; [exact IH|].
  eapply Forall_impl; [exact Hpt|]. intros q Hq. apply key_leb_spec. exact Hq.
Qed.

(** A successful loop is the computation of the reflections followed by
    their merging. *)
Lemma for_each_process_point (wavelength : R) (is_hex : bool)
    (contribs : list SiteContribution) (pts : list RecipPoint) (st st' : peaks_state) :
  for_each (process_point wavelength is_hex contribs) pts st = Ok st' ->
  exists refls, reflections_of wavelength is_hex contribs pts = Ok refls /\
                for_each merge refls st = Ok st'.
Proof.
  revert st. induction pts as [|pt pts IH]; intros st Hrun; simpl in *.
  - injection Hrun as <-. exists []. auto.
  - bind_inv Hrun. unfold process_point in Ha.
    destruct (decide (pt_g pt = 0)).
    + injection Ha as <-. apply IH. exact Hrun.
    + bind_inv Ha. rename a0 into r.
      destruct (IH _ Hrun) as (rs & Hrs & Hmerge). exists (r :: rs).
      rewrite Ha0, Hrs. simpl. rewrite Ha. simpl. auto.
Qed.

Lemma cluster_peak_snoc (first r : Reflection) (later : list Reflection) :
  cluster_peak (first, later ++ [r]) =
  mkPeak (intensity (cluster_peak (first, later)) + r_i_hkl r * r_lorentz_factor r)
    (peak_hkls (cluster_peak (first, later)) ++ [r_hkl r])
    (d_hkl (cluster_peak (first, later))).
Proof.
  unfold cluster_peak. simpl. rewrite fold_left_app, map_app. reflexivity.
Qed.

Lemma merge_clusters (done : list Reflection)
    (cl : list (R * (Reflection * list Reflection)))
    (st st' : peaks_state) (r : Reflection) :
  clusters_of done cl st.1 -> merge st r = Ok st' ->
  exists cl', clusters_of (done ++ [r]) cl' st'.1.
Proof.
  intros [Hpeaks Hall] Hrun.
  assert (Hweak : Forall (fun kc : R * (Reflection * list Reflection) =>
            kc.1 = r_two_theta kc.2.1 /\
            sublist (kc.2.1 :: kc.2.2) (done ++ [r]) /\
            Forall (fun r => within_tol (r_two_theta r) kc.1) kc.2.2) cl).
  { eapply Forall_impl; [exact Hall|]. intros kc (Hk & Hsub & Htol).
    split; [exact Hk|]. split; [|exact Htol]. apply sublist_inserts_r. exact Hsub. }
  apply merge_Ok in Hrun as [(key & v & Hin & Htol & Hget & ->)|(Hfar & ->)]; simpl.
  - rewrite Hpeaks, dict_get_fmap in Hget.
    destruct (dict_get key cl) as [[first later]|] eqn:Hcl; [|discriminate].
    simpl in Hget. injection Hget as <-.
    exists (dict_set key (first, later ++ [r]) cl). split.
    + rewrite dict_set_fmap, <- Hpeaks, cluster_peak_snoc. reflexivity.
    + apply dict_get_Some_elem in Hcl. rewrite Forall_forall in Hall.
      destruct (Hall _ Hcl) as (Hk & Hsub & Hlater). simpl in *.
      apply dict_set_Forall_key; [|exact Hweak]. simpl.
      split; [exact Hk|]. split.
      * change (first :: later ++ [r]) with ((first :: later) ++ [r]).
        apply sublist_app; [exact Hsub | reflexivity].
      * apply Forall_app. split; [exact Hlater | repeat constructor; exact Htol].
  - exists (dict_set (r_two_theta r) (r, []) cl). split.
    + rewrite dict_set_fmap, <- Hpeaks. reflexivity.
    + apply dict_set_Forall_key; [|exact Hweak]. simpl.
      split; [reflexivity|]. split; [|constructor].
      apply sublist_inserts_l. reflexivity.
Qed.

Lemma for_each_merge_clusters (refls : list Reflection) (st : peaks_state) :
  for_each merge refls ([], []) = Ok st ->
  exists cl, clusters_of refls cl st.1.
Proof.
  intros Hrun.
  refine (for_each_invariant merge
            (fun done st => exists cl, clusters_of done cl st.1) refls _ [] _ _ _ Hrun).
  - intros done r st0 st1 [cl Hcl] Hstep. eapply merge_clusters; eauto.
  - exists []. split; [reflexivity | constructor].
Qed.

End OrderFacts.

(** * Stateful statements *)

Lemma sbind_Ok {S A B : Type} (m : stateful S A) (k : A -> stateful S B)
    (s s' : S) (b : B) :
  sbind m k s = (s', Ok b) <-> exists a s1, m s = (s1, Ok a) /\ k a s1 = (s', Ok b).
Proof.
  unfold sbind. destruct (m s) as [s1 [a|e]]; split.
  - intros Hk. exists a, s1. auto.
  - intros (a' & s1' & Heq & Hk). injection Heq as -> ->. exact Hk.
  - discriminate.
  - intros (a' & s1' & Heq & _). discriminate.
Qed.

Ltac sbind_inv H :=
  let a := fresh "a" in
  let s := fresh "s" in
  let Ha := fresh "Ha" in
  apply sbind_Ok in H; destruct H as (a & s & Ha & H).

Section EntryFacts.
Import Entries.
Context {Composition : Type} `{CompositionClass Composition}.
Local Abbreviation heap := (gmap positive (@object Composition)).
Local Abbreviation Entry := (@Entry Composition).
Local Abbreviation object := (@object Composition).

Lemma read_entry_Ok (self : positive) (h h' : heap) (e : Entry) :
  read_entry self h = (h', Ok e) <-> h' = h /\ h !! self = Some (EntryObj e).
Proof.
  unfold read_entry. destruct (h !! self) as [[e0|items]|]; split;
    try (intros Heq; discriminate); try (intros [_ Heq]; discriminate).
  - intros Heq. injection Heq as <- <-. auto.
  - intros [-> Heq]. injection Heq as <-. reflexivity.
Qed.

Lemma read_dict_Ok (d : positive) (h h' : heap) (items : gmap string value) :
  read_dict d h = (h', Ok items) <-> h' = h /\ h !! d = Some (DictObj items).
Proof.
  unfold read_dict. destruct (h !! d) as [[e0|items0]|]; split;
    try (intros Heq; discriminate); try (intros [_ Heq]; discriminate).
  - intros Heq. injection Heq as <- <-. auto.
  - intros [-> Heq]. injection Heq as <-. reflexivity.
Qed.

Lemma alloc_Ok (o : object) (h h' : heap) (l : positive) :
  alloc o h = (h', Ok l) <-> l = fresh (dom h) /\ h' = <[l := o]> h.
Proof.
  unfold alloc. split.
  - intros Heq. injection Heq as <- <-. auto.
  - intros [-> ->]. reflexivity.
Qed.

Lemma fresh_not_allocated (h : heap) : h !! fresh (dom h) = None.
Proof. apply not_elem_of_dom, is_fresh. Qed.

Lemma normalization_factor_Ok (self : positive) (mode : string) (h h' : heap) (factor : R) :
  _normalization_factor self mode h = (h', Ok factor) ->
  h' = h /\ exists e, h !! self = Some (EntryObj e) /\
    ((mode = "atom"%string /\ factor = num_atoms (_composition e)) \/
     (mode = "formula_unit"%string /\
      factor = (get_reduced_composition_and_factor (_composition e)).2)).
Proof.
  unfold _normalization_factor, composition.
  destruct (decide (mode = "atom"%string)) as [Hatom|Hnatom].
  - intros Hrun. sbind_inv Hrun. sbind_inv Ha. apply read_entry_Ok in Ha0 as [-> He].
    injection Ha as <- <-. injection Hrun as <- <-. split; [reflexivity|]. eauto.
  - destruct (decide (mode = "formula_unit"%string)) as [Hfu|Hnfu]; [|discriminate].
    intros Hrun. sbind_inv Hrun. sbind_inv Ha. apply read_entry_Ok in Ha0 as [-> He].
    injection Ha as <- <-. injection Hrun as <- <-. split; [reflexivity|]. eauto.
Qed.

End EntryFacts.

(** * When [get_pattern] returns *)

Lemma for_each_total_inv {S A : Type} (body : S -> A -> result S) (Inv : S -> Prop)
    (l : list A) (st : S) :
  Inv st ->
  (forall s a, a ∈ l -> Inv s -> exists s', body s a = Ok s' /\ Inv s') ->
  exists st', for_each body l st = Ok st' /\ Inv st'.
Proof.
  revert st. induction l as [|b l IH]; intros st HI Hbody; simpl; [eauto|].
  destruct (Hbody st b) as (s' & Hs' & HI'); [left | exact HI|].
  rewrite Hs'. simpl. apply IH; [exact HI'|].
  intros s a Ha. apply Hbody. right. exact Ha.
Qed.

Lemma py_round_IZR (z : Z) : py_round (IZR z) = z.
Proof.
  unfold py_round. rewrite ZfloorZ. rewrite decide_True; [reflexivity | lra].
Qed.

Section ReturnFacts.
Import Xrd.
Context `{Environment}.

Lemma flatten_species_length (self : XRDCalculator) (site : Site)
    (sps : list (Species * R)) (acc acc' : list SiteContribution) :
  for_each (flatten_species self site) sps acc = Ok acc' ->
  length acc' = (length acc + length sps)%nat.
Proof.
  revert acc. induction sps as [|[sp occu] sps IH]; intros acc Hrun; simpl in Hrun.
  - injection Hrun as <-. simpl. lia.
  - bind_inv Hrun. apply flatten_species_Ok in Ha as (c & dw & _ & _ & ->).
    rewrite (IH _ Hrun), length_app. simpl. lia.
Qed.

(** A structure with a species on some site gives a non-empty array. *)
Lemma flatten_sites_nonempty (self : XRDCalculator) (structure : Structure)
    (contribs : list SiteContribution) (site : Site) :
  flatten_sites self structure = Ok contribs ->
  site ∈ sites structure -> species site <> [] -> contribs <> [].
Proof.
  unfold flatten_sites. intros Hrun Hsite Hsp.
  assert (Hgen : forall l acc acc',
             for_each (fun acc site => for_each (flatten_species self site)
                                         (species site) acc) l acc = Ok acc' ->
             (length acc <= length acc')%nat /\
             (site ∈ l -> (0 < length acc')%nat)).
  { induction l as [|s0 l IH]; intros acc acc' Hl; simpl in Hl.
    - injection Hl as <-. split; [lia|]. intros Hin. apply elem_of_nil in Hin.
      contradiction.
    - bind_inv Hl. apply flatten_species_length in Ha.
      destruct (IH _ _ Hl) as [Hle Hin]. split; [lia|].
      intros Hs. apply elem_of_cons in Hs as [->|Hs]; [|auto].
      destruct (species s0); [congruence|]. simpl in Ha. lia. }
  destruct (Hgen _ _ _ Hrun) as [_ Hpos]. specialize (Hpos Hsite).
  intros ->. simpl in Hpos. lia.
Qed.

(** The reflection of a point strictly inside the limiting sphere and off
    the origin is computed without an error. *)
Lemma reflection_total (wavelength : R) (is_hex : bool)
    (contribs : list SiteContribution) (pt : RecipPoint) :
  contribs <> [] -> wavelength <> 0 -> pt_g pt <> 0 ->
  -1 < wavelength * pt_g pt / 2 < 1 ->
  exists r, reflection wavelength is_hex contribs pt = Ok r.
Proof.
  intros Hc Hw Hg Hv. unfold reflection. destruct (pt_hkl pt) as [[h k] l].
  unfold math_asin. rewrite decide_True by lra. cbn [bind].
  destruct contribs as [|sc contribs]; [congruence|]. cbn [g_dot_r bind].
  set (v := wavelength * pt_g pt / 2) in *.
  assert (Hv0 : v <> 0).
  { unfold v. intros Hz. assert (wavelength * pt_g pt = 0) by lra.
    apply Rmult_integral in H0 as [?|?]; contradiction. }
  assert (Hden : sin (asin v) ^ 2 * cos (asin v) <> 0).
  { rewrite sin_asin, cos_asin by lra.
    assert (Hsq : 0 < 1 - v²) by (unfold Rsqr; nra).
    pose proof (sqrt_lt_R0 _ Hsq) as Hpos.
    apply Rmult_integral_contrapositive. split; [|lra].
    apply pow_nonzero. exact Hv0. }
  unfold py_div. rewrite decide_False by exact Hden. cbn [bind]. eauto.
Qed.

Lemma merge_total (st : peaks_state) (r : Reflection) :
  peaks_inv st -> exists st', merge st r = Ok st'.
Proof.
  destruct st as [peaks tts]. intros (Hnd & Hkeys & Hsep). unfold merge.
  destruct (np_where _) as [|i rest] eqn:Hind; [eauto|].
  destruct (merge_found peaks _ _ _ _ Hind) as (key & Hkey & _).
  unfold list_get. rewrite Hkey. cbn [bind].
  destruct (dict_get_is_Some peaks key) as [v Hv].
  { apply Hkeys. eapply list_elem_of_lookup_2. exact Hkey. }
  rewrite Hv. eauto.
Qed.

Lemma accumulate_total (wavelength : R) (is_hex : bool)
    (contribs : list SiteContribution) (recip_pts : list RecipPoint) :
  contribs <> [] -> wavelength <> 0 ->
  (forall pt, pt ∈ recip_pts -> pt_g pt <> 0 -> -1 < wavelength * pt_g pt / 2 < 1) ->
  exists st, accumulate wavelength is_hex contribs recip_pts = Ok st.
Proof.
  intros Hc Hw Hpts. unfold accumulate.
  destruct (for_each_total_inv (process_point wavelength is_hex contribs) peaks_inv
              (sorted key_leb recip_pts) ([], [])) as (st & Hst & _);
    [apply peaks_inv_init| |eauto].
  intros s pt Hpt Hinv. apply sorted_elem in Hpt.
  unfold process_point. destruct (decide (pt_g pt = 0)) as [Hz|Hnz]; [eauto|].
  destruct (reflection_total wavelength is_hex contribs pt Hc Hw Hnz (Hpts pt Hpt Hnz))
    as [r Hr].
  rewrite Hr. cbn [bind]. destruct (merge_total s r Hinv) as [s' Hs'].
  exists s'. split; [exact Hs'|]. eapply merge_inv; eauto.
Qed.

Lemma dict_set_nonempty {V : Type} (k : R) (v : V) (d : list (R * V)) :
  dict_set k v d <> [].
Proof. destruct d as [|[k0 v0] d]; simpl; [|destruct (decide (k0 = k))]; discriminate. Qed.

(** A point off the origin leaves a peak. *)
Lemma accumulate_nonempty (wavelength : R) (is_hex : bool)
    (contribs : list SiteContribution) (recip_pts : list RecipPoint)
    (st : peaks_state) (pt : RecipPoint) :
  accumulate wavelength is_hex contribs recip_pts = Ok st ->
  pt ∈ recip_pts -> pt_g pt <> 0 -> st.1 <> [].
Proof.
  unfold accumulate. intros Hrun Hpt Hg.
  apply (sorted_elem key_leb) in Hpt.
  pose proof (for_each_invariant (process_point wavelength is_hex contribs)
                (fun done st => (exists q, q ∈ done /\ pt_g q <> 0) -> st.1 <> [])
                (sorted key_leb recip_pts)) as Hinv.
  refine (Hinv _ [] _ _ _ Hrun _); [| |eauto].
  - intros done q st0 st1 Hprev Hstep Hex. unfold process_point in Hstep.
    destruct (decide (pt_g q = 0)) as [Hz|Hnz].
    + injection Hstep as <-. apply Hprev. destruct Hex as (q' & Hq' & Hg').
      apply elem_of_app in Hq' as [Hq'|Hq']; [eauto|].
      apply list_elem_of_singleton in Hq'. subst. contradiction.
    + bind_inv Hstep.
      apply merge_Ok in Hstep as [(key & v & _ & _ & _ & ->)|(_ & ->)]; simpl;
        apply dict_set_nonempty.
  - intros (q & Hq & _). apply elem_of_nil in Hq. contradiction.
Qed.

Lemma build_pattern_total (peaks : list (R * Peak)) :
  NoDup (dict_keys peaks) -> peaks <> [] -> exists xrd, build_pattern peaks = Ok xrd.
Proof.
  intros Hnd Hne. rewrite build_pattern_kept by exact Hnd.
  destruct (py_max_nonempty (map intensity (dict_values peaks))) as [m Hm].
  { destruct peaks; [congruence | discriminate]. }
  rewrite Hm. simpl. eauto.
Qed.

End ReturnFacts.

Section ScaledFacts.
Import Xrd.
Context `{Environment}.

Lemma merge_positive (st st' : peaks_state) (r : Reflection) :
  0 < TWO_THETA_TOL -> 0 <= r_i_hkl r * r_lorentz_factor r ->
  peaks_inv st -> Forall (fun kv => 0 <= intensity kv.2) st.1 ->
  merge st r = Ok st' ->
  (0 < r_i_hkl r * r_lorentz_factor r \/ exists kv, kv ∈ st.1 /\ 0 < intensity kv.2) ->
  exists kv, kv ∈ st'.1 /\ 0 < intensity kv.2.
Proof.
  destruct st as [peaks tts]. intros Htol Hw (Hnd & Hkeys & Hsep) Hall Hrun Hpos.
  cbn [fst snd] in Hall, Hpos. rewrite Forall_forall in Hall.
  apply merge_Ok in Hrun as [(key & v & Hin & Hkt & Hget & ->)|(Hfar & ->)];
    cbn [fst snd] in *.
  - pose proof (dict_get_Some_elem _ _ _ Hget) as Hv.
    pose proof (Hall _ Hv) as Hv0. simpl in Hv0.
    set (v' := mkPeak (intensity v + r_i_hkl r * r_lorentz_factor r)
                 (peak_hkls v ++ [r_hkl r]) (d_hkl v)).
    assert (Hnew : (key, v') ∈ dict_set key v' peaks).
    { apply dict_get_Some_elem, dict_get_set_eq. }
    destruct Hpos as [Hr|([k0 v0] & Hkv & Hkv0)].
    + exists (key, v'). split; [exact Hnew|]. simpl. lra.
    + destruct (decide (k0 = key)) as [->|Hne].
      * assert (v0 = v).
        { pose proof (dict_get_elem_NoDup _ _ _ Hnd Hkv) as Hg. congruence. }
        subst v0. exists (key, v'). split; [exact Hnew|]. simpl in *. lra.
      * exists (k0, v0). split; [|exact Hkv0]. apply dict_set_elem; assumption.
  - set (v' := mkPeak (r_i_hkl r * r_lorentz_factor r) [r_hkl r] (1 / r_g_hkl r)).
    assert (Hnew : (r_two_theta r, v') ∈ dict_set (r_two_theta r) v' peaks).
    { apply dict_get_Some_elem, dict_get_set_eq. }
    destruct Hpos as [Hr|([k0 v0] & Hkv & Hkv0)].
    + exists (r_two_theta r, v'). split; [exact Hnew | exact Hr].
    + assert (Hne : k0 <> r_two_theta r).
      { intros ->. apply (Hfar (r_two_theta r)).
        - apply Hkeys. unfold dict_keys. apply list_elem_of_fmap.
          exists (r_two_theta r, v0). auto.
        - unfold within_tol. rewrite Rminus_diag, Rabs_R0. exact Htol. }
      exists (k0, v0). split; [|exact Hkv0]. apply dict_set_elem; assumption.
Qed.

(** With a positive tolerance no intensity is lost: a bright point leaves a
    peak of positive intensity. *)
Lemma accumulate_positive (wavelength : R) (is_hex : bool)
    (contribs : list SiteContribution) (recip_pts : list RecipPoint)
    (st : peaks_state) (pt : RecipPoint) :
  0 < TWO_THETA_TOL ->
  accumulate wavelength is_hex contribs recip_pts = Ok st ->
  pt ∈ recip_pts -> bright wavelength is_hex contribs pt ->
  exists kv, kv ∈ st.1 /\ 0 < intensity kv.2.
Proof.
  unfold accumulate. intros Htol Hrun Hpt Hbright.
  apply (sorted_elem key_leb) in Hpt.
  pose proof (for_each_invariant (process_point wavelength is_hex contribs)
                (fun done st =>
                   peaks_inv st /\ Forall (fun kv => 0 <= intensity kv.2) st.1 /\
                   ((exists q, q ∈ done /\ bright wavelength is_hex contribs q) ->
                    exists kv, kv ∈ st.1 /\ 0 < intensity kv.2))
                (sorted key_leb recip_pts)) as Hinv.
  refine (proj2 (proj2 (Hinv _ [] _ _ _ Hrun)) _); [| |eauto].
  - intros done q st0 st1 (Hpi & Hall & Hprev) Hstep. unfold process_point in Hstep.
    destruct (decide (pt_g q = 0)) as [Hz|Hnz].
    + injection Hstep as <-. split; [exact Hpi|]. split; [exact Hall|].
      intros (q' & Hq' & Hb'). apply Hprev.
      apply elem_of_app in Hq' as [Hq'|Hq']; [eauto|].
      apply list_elem_of_singleton in Hq'. subst. destruct Hb' as [Hg' _]. contradiction.
    + bind_inv Hstep. rename a into r.
      pose proof (reflection_weight_nonneg _ _ _ _ _ Ha) as Hw.
      split; [eapply merge_inv; eauto|]. split; [eapply merge_nonneg; eauto|].
      intros (q' & Hq' & Hb').
      eapply merge_positive; [exact Htol|exact Hw|exact Hpi|exact Hall|exact Hstep|].
      apply elem_of_app in Hq' as [Hq'|Hq']; [right; apply Hprev; eauto|].
      apply list_elem_of_singleton in Hq'. subst q'. left.
      destruct Hb' as [_ Hb']. specialize (Hb' r Ha).
      apply reflection_Ok in Ha as (_ & _ & _ & _ & _ & Hl & _).
      apply Rmult_lt_0_compat; assumption.
  - split; [apply peaks_inv_init|]. split; [constructor|].
    intros (q & Hq & _). apply elem_of_nil in Hq. contradiction.
Qed.

Lemma normalize_total (xrd : DiffractionPattern) (value : R) :
  pat_y xrd <> [] -> exists p, normalize xrd value = Ok p.
Proof.
  intros Hne. unfold normalize.
  destruct (py_max_nonempty _ Hne) as [f Hf]. rewrite Hf. simpl. eauto.
Qed.

End ScaledFacts.

Section ReturnTheorem.
Import Xrd.
Context `{Environment}.

(** [get_pattern] returns a pattern: on a constructed calculator with a
    wavelength other than 0, for a structure with at least one species, all
    of them with coefficients, when every candidate point off the origin is
    strictly inside the limiting sphere and there is such a point; with
    [scaled] set, also the tolerance is positive, the threshold is below 100
    and some candidate point is bright. *)
Lemma get_pattern_total (self : XRDCalculator) (structure : Structure)
    (scaled : bool) (two_theta_range : option (R * R)) (sym w min_r max_r : R)
    (site : Site) (pt : RecipPoint) :
  symprec self = Some sym ->
  wavelength self = Some w ->
  is_Some (debye_waller_factors self) ->
  w <> 0 ->
  (forall site sp occu,
      site ∈ sites (refined sym structure) -> (sp, occu) ∈ species site ->
      is_Some (ATOMIC_SCATTERING_PARAMS !! sp_symbol sp)) ->
  site ∈ sites (refined sym structure) -> species site <> [] ->
  radius_window w two_theta_range = Ok (min_r, max_r) ->
  (forall q, q ∈ candidate_points (lattice (refined sym structure)) min_r max_r ->
     pt_g q <> 0 -> -1 < w * pt_g q / 2 < 1) ->
  pt ∈ candidate_points (lattice (refined sym structure)) min_r max_r ->
  pt_g pt <> 0 ->
  (scaled = true ->
     0 < TWO_THETA_TOL /\ SCALED_INTENSITY_TOL < 100 /\
     forall contribs, flatten_sites self (refined sym structure) = Ok contribs ->
       bright w (is_hexagonal (lattice (refined sym structure))) contribs pt) ->
  exists p, get_pattern self structure scaled two_theta_range = Ok p.
Proof.
  intros Hsym Hw Hdw Hw0 Hknown Hsite Hsp Hwin Hpts Hpt Hg Hscaled.
  destruct (flatten_sites_total _ _ Hdw Hknown) as [contribs Hfl].
  pose proof (flatten_sites_nonempty _ _ _ _ Hfl Hsite Hsp) as Hc.
  destruct (accumulate_total w (is_hexagonal (lattice (refined sym structure)))
              contribs _ Hc Hw0 Hpts) as [[peaks tts] Hacc].
  pose proof (accumulate_inv _ _ _ _ _ Hacc) as (Hnd & _).
  pose proof (accumulate_nonempty _ _ _ _ _ _ Hacc Hpt Hg) as Hne. simpl in Hne.
  destruct (build_pattern_total peaks Hnd Hne) as [xrd Hxrd].
  unfold get_pattern. rewrite Hsym, Hw. cbn [getattr bind]. rewrite Hwin. cbn [bind].
  rewrite Hfl. cbn [bind]. rewrite Hacc. cbn [bind]. rewrite Hxrd. cbn [bind].
  destruct scaled; [|eauto].
  destruct (Hscaled eq_refl) as (Htol & Hthr & Hbright).
  apply normalize_total.
  destruct (accumulate_positive _ _ _ _ _ _ Htol Hacc Hpt (Hbright _ Hfl))
    as (kv & Hkv & Hpos). simpl in Hkv.
  pose proof (accumulate_nonneg _ _ _ _ _ Hacc) as Hall. simpl in Hall.
  apply build_pattern_Ok in Hxrd as (m & Hm & ->); [|exact Hnd].
  pose proof (py_max_Ok _ _ Hm) as [Hmin Hmax].
  assert (Hmpos : 0 < m).
  { assert (intensity kv.2 <= m); [|lra]. apply Hmax.
    apply list_elem_of_fmap. exists kv.2. split; [reflexivity|].
    unfold dict_values. apply list_elem_of_fmap. eauto. }
  apply list_elem_of_fmap in Hmin as (vm & Hvm & Hin).
  unfold dict_values in Hin. apply list_elem_of_fmap in Hin as (kvm & -> & Hkvm).
  assert (Hkept : kvm ∈ kept peaks m).
  { unfold kept. apply list_elem_of_filter. split; [|apply sorted_items_elem; exact Hkvm].
    apply above_threshold_spec; [lra|]. split; [lra|].
    rewrite <- Hvm. replace (m / m) with 1 by (field; lra). lra. }
  cbn [extend pat_y app]. intros Hnil.
  apply (f_equal length) in Hnil. rewrite length_map in Hnil.
  destruct (kept peaks m); [apply elem_of_nil in Hkept; contradiction | discriminate].
Qed.

End ReturnTheorem.

(** * When [Entry.normalize] returns *)

Section EntryReturns.
Import Entries.
Context {Composition : Type} `{CompositionClass Composition}.
Local Abbreviation heap := (gmap positive (@object Composition)).
Local Abbreviation Entry := (@Entry Composition).

Lemma normalization_factor_total (self : positive) (mode : string) (h : heap) (e : Entry) :
  h !! self = Some (EntryObj e) ->
  _normalization_factor self mode h =
    if decide (mode = "atom"%string) then (h, Ok (num_atoms (_composition e)))
    else if decide (mode = "formula_unit"%string)
         then (h, Ok (get_reduced_composition_and_factor (_composition e)).2)
         else (h, Raise (ValueError (mode ++ " is not an allowed option for normalization"))).
Proof.
  intros Hself. unfold _normalization_factor.
  repeat case_decide; unfold composition, sbind, read_entry, sret, sraise;
    rewrite ?Hself; reflexivity.
Qed.

Lemma entry_normalize_total (self : positive) (mode : string) (h : heap) (e : Entry)
    (factor : R) (c1 c2 : Composition) :
  h !! self = Some (EntryObj e) ->
  _normalization_factor self mode h = (h, Ok factor) ->
  factor <> 0 ->
  truediv (_composition e) factor = Ok c1 ->
  Composition_new (VDict (Composition_as_dict c1)) = Ok c2 ->
  exists h' new, normalize self mode h = (h', Ok new) /\
    h' !! new = Some (EntryObj (mkEntry c2 (_energy e / factor))).
Proof.
  intros Hself Hfactor Hne Hdiv Hnew.
  unfold normalize, sbind. rewrite Hfactor.
  unfold read_entry at 1. rewrite Hself.
  unfold slift at 1. rewrite Hdiv.
  unfold slift at 1, py_div. rewrite decide_False by exact Hne.
  unfold as_dict, sbind, read_entry. rewrite Hself.
  unfold alloc at 1. unfold setitem, sbind, read_dict.
  rewrite !lookup_insert_eq. unfold from_dict, sbind, read_dict.
  rewrite !lookup_insert_eq.
  rewrite lookup_insert_ne by discriminate. rewrite lookup_insert_eq.
  unfold __init__, sbind, slift. rewrite Hnew. unfold alloc.
  eexists _, _. split; [reflexivity|]. apply lookup_insert_eq.
Qed.

End EntryReturns.

(** * The clusters cover the reflections *)

Lemma dict_set_absent {V : Type} (d : list (R * V)) (k : R) (v : V) :
  k ∉ dict_keys d -> dict_set k v d = d ++ [(k, v)].
Proof.
  induction d as [|[k0 v0] d IH]; simpl; intros Hk; [reflexivity|].
  apply not_elem_of_cons in Hk as [Hne Hk].
  rewrite decide_False by congruence. f_equal. apply IH. exact Hk.
Qed.

Lemma dict_set_present {V : Type} (d : list (R * V)) (k : R) (v v0 : V) :
  dict_get k d = Some v0 ->
  exists d1 d2, d = d1 ++ (k, v0) :: d2 /\ dict_set k v d = d1 ++ (k, v) :: d2.
Proof.
  induction d as [|[k1 v1] d IH]; simpl; [discriminate|].
  destruct (decide (k1 = k)) as [->|Hne].
  - intros Heq. injection Heq as ->. exists [], d. auto.
  - intros Hget. destruct (IH Hget) as (d1 & d2 & -> & Hset).
    exists ((k1, v1) :: d1), d2. rewrite Hset. auto.
Qed.

Lemma cluster_members_app (cl1 cl2 : list (R * (Xrd.Reflection * list Xrd.Reflection))) :
  cluster_members (cl1 ++ cl2) = cluster_members cl1 ++ cluster_members cl2.
Proof. unfold cluster_members. rewrite map_app, concat_app. reflexivity. Qed.

Lemma cluster_members_cons (k : R) (first : Xrd.Reflection)
    (later : list Xrd.Reflection)
    (cl : list (R * (Xrd.Reflection * list Xrd.Reflection))) :
  cluster_members ((k, (first, later)) :: cl) = (first :: later) ++ cluster_members cl.
Proof. reflexivity. Qed.

Section CoverFacts.
Import Xrd.
Context `{Environment}.

(** One step of the loop on the clusters: a reflection within the
    tolerance of a recorded angle joins the cluster of that angle as its last
    member, any other starts a cluster of its own, recorded last.  With a
    positive tolerance the recorded angles are the keys of the clusters and
    every reflection processed so far is in exactly one cluster. *)
Lemma merge_clusters_cover (done : list Reflection)
    (cl : list (R * (Reflection * list Reflection)))
    (st st' : peaks_state) (r : Reflection) :
  clusters_of done cl st.1 ->
  (0 < TWO_THETA_TOL ->
   st.2 = map fst cl /\ Permutation done (cluster_members cl)) ->
  merge st r = Ok st' ->
  exists cl', clusters_of (done ++ [r]) cl' st'.1 /\
    (0 < TWO_THETA_TOL ->
     st'.2 = map fst cl' /\ Permutation (done ++ [r]) (cluster_members cl')).
Proof.
  intros [Hpeaks Hall] Hcover Hrun.
  assert (Hweak : Forall (fun kc : R * (Reflection * list Reflection) =>
            kc.1 = r_two_theta kc.2.1 /\
            sublist (kc.2.1 :: kc.2.2) (done ++ [r]) /\
            Forall (fun r => within_tol (r_two_theta r) kc.1) kc.2.2) cl).
  { eapply Forall_impl; [exact Hall|]. intros kc (Hk & Hsub & Htol).
    split; [exact Hk|]. split; [|exact Htol]. apply sublist_inserts_r. exact Hsub. }
  apply merge_Ok in Hrun as [(key & v & Hin & Htol & Hget & ->)|(Hfar & ->)];
    cbn [fst snd].
  - rewrite Hpeaks, dict_get_fmap in Hget.
    destruct (dict_get key cl) as [[first later]|] eqn:Hcl; [|discriminate].
    simpl in Hget. injection Hget as <-.
    exists (dict_set key (first, later ++ [r]) cl). split; [split|].
    + rewrite dict_set_fmap, <- Hpeaks, cluster_peak_snoc. reflexivity.
    + pose proof (dict_get_Some_elem _ _ _ Hcl) as Hmem. rewrite Forall_forall in Hall.
      destruct (Hall _ Hmem) as (Hk & Hsub & Hlater). simpl in *.
      apply dict_set_Forall_key; [|exact Hweak]. simpl.
      split; [exact Hk|]. split.
      * change (first :: later ++ [r]) with ((first :: later) ++ [r]).
        apply sublist_app; [exact Hsub | reflexivity].
      * apply Forall_app. split; [exact Hlater | repeat constructor; exact Htol].
    + intros Hpos. destruct (Hcover Hpos) as [Hk Hperm].
      destruct (dict_set_present cl key (first, later ++ [r]) (first, later) Hcl)
        as (d1 & d2 & Hd & Hset).
      rewrite Hset. split.
      * rewrite Hk, Hd, !map_app. reflexivity.
      * rewrite Hperm, Hd.
        rewrite !cluster_members_app, !cluster_members_cons.
        rewrite <- !app_assoc. apply Permutation_app_head.
        change (first :: later ++ [r]) with ((first :: later) ++ [r]).
        rewrite <- !app_assoc. apply Permutation_app_head.
        apply Permutation_app_comm.
  - exists (dict_set (r_two_theta r) (r, []) cl). split; [split|].
    + rewrite dict_set_fmap, <- Hpeaks. reflexivity.
    + apply dict_set_Forall_key; [|exact Hweak]. simpl.
      split; [reflexivity|]. split; [|constructor].
      apply sublist_inserts_l. reflexivity.
    + intros Hpos. destruct (Hcover Hpos) as [Hk Hperm].
      assert (Habsent : r_two_theta r ∉ dict_keys cl).
      { unfold dict_keys. rewrite <- Hk. intros Hin. apply (Hfar _ Hin).
        unfold within_tol. rewrite Rminus_diag, Rabs_R0. exact Hpos. }
      rewrite dict_set_absent by exact Habsent. split.
      * rewrite map_app, Hk. reflexivity.
      * rewrite cluster_members_app, Hperm. reflexivity.
Qed.

Lemma for_each_merge_cover (refls : list Reflection) (st : peaks_state) :
  for_each merge refls ([], []) = Ok st ->
  exists cl, clusters_of refls cl st.1 /\
    (0 < TWO_THETA_TOL ->
     st.2 = map fst cl /\ Permutation refls (cluster_members cl)).
Proof.
  intros Hrun.
  refine (for_each_invariant merge
            (fun done st =>
               exists cl, clusters_of done cl st.1 /\
                 (0 < TWO_THETA_TOL ->
                  st.2 = map fst cl /\ Permutation done (cluster_members cl)))
            refls _ [] _ _ _ Hrun).
  - intros done r st0 st1 (cl & Hcl & Hcover) Hstep.
    eapply merge_clusters_cover; eauto.
  - exists []. split; [split; [reflexivity | constructor]|].
    intros _. split; reflexivity.
Qed.

(** Every reflection has its angle recorded, or lies within the tolerance
    of a recorded angle, whatever the sign of the tolerance. *)
Lemma for_each_merge_recorded (refls : list Reflection) (st0 st : peaks_state) :
  for_each merge refls st0 = Ok st ->
  forall r, r ∈ refls ->
    exists key, key ∈ st.2 /\
      (key = r_two_theta r \/ within_tol (r_two_theta r) key).
Proof.
  intros Hrun.
  pose proof (for_each_invariant merge
                (fun done st =>
                   forall r, r ∈ done ->
                     exists key, key ∈ st.2 /\
                       (key = r_two_theta r \/ within_tol (r_two_theta r) key))
                refls) as Hinv.
  refine (Hinv _ [] st0 st _ Hrun).
  - intros done r s s' Hprev Hstep r0 Hr0.
    apply merge_Ok in Hstep as [(key & v & Hin & Htol & _ & ->)|(_ & ->)];
      cbn [fst snd]; apply elem_of_app in Hr0 as [Hr0|Hr0].
    + apply Hprev. exact Hr0.
    + apply list_elem_of_singleton in Hr0. subst r0. exists key. auto.
    + destruct (Hprev _ Hr0) as (key & Hkey & Hor). exists key.
      split; [apply elem_of_app; left; exact Hkey | exact Hor].
    + apply list_elem_of_singleton in Hr0. subst r0. exists (r_two_theta r).
      split; [apply elem_of_app; right; left | left; reflexivity].
  - intros r Hr. apply elem_of_nil in Hr. contradiction.
Qed.

(** There is one reflection for each point off the origin. *)
Lemma reflections_of_length (wavelength : R) (is_hex : bool)
    (contribs : list SiteContribution) (pts : list RecipPoint)
    (refls : list Reflection) :
  reflections_of wavelength is_hex contribs pts = Ok refls ->
  length refls = length (filter (fun pt => pt_g pt <> 0) pts).
Proof.
  revert refls. induction pts as [|pt pts IH]; intros refls Hrun; simpl in Hrun.
  - injection Hrun as <-. reflexivity.
  - rewrite filter_cons. destruct (decide (pt_g pt = 0)) as [Hz|Hnz].
    + rewrite decide_False by tauto. apply IH. exact Hrun.
    + rewrite decide_True by exact Hnz. bind_inv Hrun. bind_inv Hrun.
      injection Hrun as <-. simpl. f_equal. apply IH. exact Ha0.
Qed.

(** The reflections are those of the points off the origin, point by
    point in the order of the points. *)
Lemma reflections_of_points (wavelength : R) (is_hex : bool)
    (contribs : list SiteContribution) (pts : list RecipPoint)
    (refls : list Reflection) :
  reflections_of wavelength is_hex contribs pts = Ok refls ->
  Forall2 (fun pt r => reflection wavelength is_hex contribs pt = Ok r)
    (filter (fun pt => pt_g pt <> 0) pts) refls.
Proof.
  revert refls. induction pts as [|pt pts IH]; intros refls Hrun; simpl in Hrun.
  - injection Hrun as <-. constructor.
  - rewrite filter_cons. destruct (decide (pt_g pt = 0)) as [Hz|Hnz].
    + rewrite decide_False by tauto. apply IH. exact Hrun.
    + rewrite decide_True by exact Hnz. bind_inv Hrun. bind_inv Hrun.
      injection Hrun as <-. constructor; [exact Ha | apply IH; exact Ha0].
Qed.

End CoverFacts.

(** * Properties of [get_pattern] *)

Section PatternProperties.
Import Xrd.
Context `{Environment}.

(** C1.  In every pattern that [get_pattern] returns the two-theta values
    are strictly ascending, and two different peaks are at least
    [TWO_THETA_TOL] apart.  The second holds because a reflection whose angle
    is within the tolerance of a recorded angle is merged into the entry of
    a recorded angle within the tolerance: no angle is recorded for it, the
    keys of [peaks] stay as they are, and the entry receives its intensity
    and its Miller indices. *)
Theorem C1_two_theta_ascending_and_separated
    (self : XRDCalculator) (structure : Structure) (scaled : bool)
    (two_theta_range : option (R * R)) (p : DiffractionPattern) :
  get_pattern self structure scaled two_theta_range = Ok p ->
  StronglySorted Rlt (pat_x p) /\
  separated (pat_x p) /\
  (forall (st st' : peaks_state) (r : Reflection),
      peaks_inv st -> merge st r = Ok st' ->
      (exists t, t ∈ st.2 /\ within_tol (r_two_theta r) t) ->
      st'.2 = st.2 /\ dict_keys st'.1 = dict_keys st.1 /\
      exists key v, key ∈ st.2 /\ within_tol (r_two_theta r) key /\
        dict_get key st.1 = Some v /\
        dict_get key st'.1 =
          Some (mkPeak (intensity v + r_i_hkl r * r_lorentz_factor r)
                  (peak_hkls v ++ [r_hkl r]) (d_hkl v))).
Proof.
  intros Hrun.
  apply get_pattern_Ok in Hrun
    as (sym & w & min_r & max_r & contribs & peaks & tts & xrd
        & _ & _ & _ & _ & Hacc & Hb & Hsc).
  pose proof (accumulate_inv _ _ _ _ _ Hacc) as Hinv.
  destruct Hinv as (Hnd & Hkeys & Hsep).
  apply build_pattern_Ok in Hb as (m & Hm & ->); [|exact Hnd].
  assert (Hx : pat_x p = map fst (kept peaks m)).
  { destruct scaled.
    - apply normalize_Ok in Hsc as (f & _ & Hx & _). rewrite Hx. reflexivity.
    - subst p. reflexivity. }
  assert (Hsorted : StronglySorted Rlt (pat_x p)).
  { rewrite Hx. unfold kept. apply StronglySorted_map_filter.
    rewrite sorted_items_keys. apply sorted_keys_ascending. exact Hnd. }
  split; [exact Hsorted|]. split.
  - intros i j a b Hij Ha Hb.
    assert (Hab : a <> b) by (eapply StronglySorted_Rlt_lookup; eauto).
    assert (Hin : forall c, c ∈ pat_x p -> c ∈ tts).
    { intros c Hc. rewrite Hx in Hc.
      apply list_elem_of_fmap in Hc as (kv & -> & Hkv).
      apply list_elem_of_filter in Hkv as [_ Hkv].
      apply (proj1 (sorted_items_elem _ _)) in Hkv. apply Hkeys.
      unfold dict_keys. apply list_elem_of_fmap.
      exists kv. split; [reflexivity | exact Hkv]. }
    apply Hsep; [apply Hin, (list_elem_of_lookup_2 _ i); exact Ha
                |apply Hin, (list_elem_of_lookup_2 _ j); exact Hb | exact Hab].
  - intros [pk tt] st' r (Hnd' & Hkeys' & Hsep') Hmerge (t & Ht & Htol).
    apply merge_Ok in Hmerge as [(key & v & Hin & Hkt & Hget & ->)|(Hfar & _)].
    + simpl in *. split; [reflexivity|]. split.
      * rewrite dict_keys_set. rewrite decide_True; [reflexivity|].
        apply Hkeys'. exact Hin.
      * exists key, v. repeat (split; [assumption|]). apply dict_get_set_eq.
    + exfalso. exact (Hfar t Ht Htol).
Qed.

(** C4.  The peaks in question are those of the run itself: with the
    attributes of [self], the window of the range, the flattened arrays of
    the (refined) structure and the candidate points of its lattice,
    [accumulate] has returned [peaks].  The pattern built from them at lines
    264-277 consists of exactly those peaks, in ascending order of their
    angle, whose accumulated intensity as a percentage of the largest
    accumulated intensity (which is the intensity of one of the peaks and
    bounds them all) strictly exceeds [SCALED_INTENSITY_TOL]; each of them is
    emitted with the angle, the intensity, the families of Miller indices and
    the d-spacing it had before the filter, and every other peak is dropped.
    [get_pattern] returns this pattern, rescaled by [normalize] when [scaled]
    is set; the angles, the families and the d-spacings of the returned
    pattern are those of the peaks kept, and so are the intensities when
    [scaled] is not set. *)
Theorem C4_pattern_is_the_peaks_above_threshold
    (self : XRDCalculator) (structure : Structure) (scaled : bool)
    (two_theta_range : option (R * R)) (p : DiffractionPattern) :
  get_pattern self structure scaled two_theta_range = Ok p ->
  exists sym w min_r max_r contribs peaks two_thetas max_intensity xrd,
    symprec self = Some sym /\
    wavelength self = Some w /\
    radius_window w two_theta_range = Ok (min_r, max_r) /\
    flatten_sites self (refined sym structure) = Ok contribs /\
    accumulate w (is_hexagonal (lattice (refined sym structure))) contribs
      (candidate_points (lattice (refined sym structure)) min_r max_r)
    = Ok (peaks, two_thetas) /\
    build_pattern peaks = Ok xrd /\
    (if scaled then normalize xrd 100 = Ok p else p = xrd) /\
    py_max (map intensity (dict_values peaks)) = Ok max_intensity /\
    (exists k v, (k, v) ∈ peaks /\ intensity v = max_intensity) /\
    (forall k v, (k, v) ∈ peaks -> intensity v <= max_intensity) /\
    xrd = extend (mkDiffractionPattern [] [] [] []) (kept peaks max_intensity) /\
    (forall k v,
        (k, v) ∈ kept peaks max_intensity <->
        (k, v) ∈ peaks /\ max_intensity <> 0 /\
        SCALED_INTENSITY_TOL < intensity v / max_intensity * 100) /\
    StronglySorted Rlt (map fst (kept peaks max_intensity)) /\
    pat_x p = map fst (kept peaks max_intensity) /\
    pat_hkls p = map (fun kv => families (peak_hkls kv.2)) (kept peaks max_intensity) /\
    pat_d_hkls p = map (fun kv => d_hkl kv.2) (kept peaks max_intensity) /\
    (scaled = false ->
     pat_y p = map (fun kv => intensity kv.2) (kept peaks max_intensity)).
Proof.
  intros Hrun.
  apply get_pattern_Ok in Hrun
    as (sym & w & min_r & max_r & contribs & peaks & tts & xrd
        & Hsym & Hw & Hwin & Hfl & Hacc & Hb & Hsc).
  pose proof (accumulate_inv _ _ _ _ _ Hacc) as (Hnd & _).
  destruct (build_pattern_Ok _ _ Hnd Hb) as (m & Hm & Hxrd).
  assert (Hmax : forall k v, (k, v) ∈ peaks -> intensity v <= m).
  { intros k v Hin. apply py_max_Ok in Hm as [_ Hmax]. apply Hmax.
    apply list_elem_of_fmap. exists v. split; [reflexivity|].
    unfold dict_values. apply list_elem_of_fmap. exists (k, v). auto. }
  assert (Hattained : exists k v, (k, v) ∈ peaks /\ intensity v = m).
  { pose proof (py_max_Ok _ _ Hm) as [Hin _].
    apply list_elem_of_fmap in Hin as (v & Hv & Hin).
    unfold dict_values in Hin. apply list_elem_of_fmap in Hin as ([k v'] & Hv' & Hin).
    simpl in Hv'. subst v'. exists k, v. auto. }
  assert (Hrows : pat_x p = map fst (kept peaks m) /\
                  pat_hkls p = map (fun kv => families (peak_hkls kv.2)) (kept peaks m) /\
                  pat_d_hkls p = map (fun kv => d_hkl kv.2) (kept peaks m) /\
                  (scaled = false ->
                   pat_y p = map (fun kv => intensity kv.2) (kept peaks m))).
  { destruct scaled.
    - apply normalize_Ok in Hsc as (f & _ & Hx & _ & Hh & Hd).
      rewrite Hx, Hh, Hd, Hxrd. cbn. repeat (split; [reflexivity|]). discriminate.
    - subst p xrd. cbn. repeat (split; [reflexivity|]). reflexivity. }
  exists sym, w, min_r, max_r, contribs, peaks, tts, m, xrd.
  repeat (split; [assumption|]).
  split.
  { intros k v. unfold kept. rewrite list_elem_of_filter, sorted_items_elem. simpl.
    split.
    - intros [Hab Hin]. split; [exact Hin|].
      apply above_threshold_spec; [eapply Hmax; eauto | exact Hab].
    - intros (Hin & Hne & Hgt). split; [|exact Hin].
      apply above_threshold_spec; [eapply Hmax; eauto | auto]. }
  split; [|exact Hrows].
  unfold kept. apply StronglySorted_map_filter.
  rewrite sorted_items_keys. apply sorted_keys_ascending. exact Hnd.
Qed.

End PatternProperties.

(** * The constructor *)

Section Constructor.
Import Xrd.

(** C5, as stated, fails: for a string that is no name of [WAVELENGTHS] the
    constructor has set [radiation] by the time the lookup raises. *)
Lemma C5_counterexample_unknown_name :
  ~ numeric (PyStr "XyKa") /\ ~ recognized (PyStr "XyKa") /\
  __init__ (PyStr "XyKa") 0 None blank =
    (mkXRDCalculator (Some "XyKa"%string) None None None, Raise (KeyError "XyKa")) /\
  (__init__ (PyStr "XyKa") 0 None blank).1 <> blank.
Proof.
  assert (Hnone : WAVELENGTHS !! "XyKa"%string = None) by (vm_compute; reflexivity).
  assert (Hrun : __init__ (PyStr "XyKa") 0 None blank =
      (mkXRDCalculator (Some "XyKa"%string) None None None, Raise (KeyError "XyKa"))).
  { unfold __init__, sbind, set_radiation. rewrite Hnone. reflexivity. }
  split; [unfold numeric; tauto|]. split.
  - unfold recognized. rewrite Hnone. intros [w Hw]. discriminate.
  - split; [exact Hrun|]. rewrite Hrun. unfold blank. cbn [fst]. congruence.
Qed.

(** C5, amended.  For a wavelength that is neither numeric nor a recognized
    name the constructor raises.  If the argument is no string, it raises
    [TypeError] and the object is as it was: no attribute has been set.  If
    it is a string, it raises the [KeyError] of the table lookup, and
    [radiation], and nothing else, has been set. *)
Theorem C5_init_failure (wavelength : pyobj) (sp : R)
    (dw : option (gmap string R)) (self : XRDCalculator) :
  ~ numeric wavelength -> ~ recognized wavelength ->
  (exists e, (__init__ wavelength sp dw self).2 = Raise e) /\
  (forall type_name, wavelength = PyOther type_name ->
     __init__ wavelength sp dw self =
       (self, Raise (TypeError (type_name ++ " must be either float, int or str")))) /\
  (forall name, wavelength = PyStr name ->
     __init__ wavelength sp dw self =
       (mkXRDCalculator (Some name) (Xrd.wavelength self) (symprec self)
          (debye_waller_factors self),
        Raise (KeyError name))).
Proof.
  intros Hnum Hrec.
  assert (Hstr : forall name, wavelength = PyStr name ->
     __init__ wavelength sp dw self =
       (mkXRDCalculator (Some name) (Xrd.wavelength self) (symprec self)
          (debye_waller_factors self), Raise (KeyError name))).
  { intros name ->. unfold recognized in Hrec.
    destruct (WAVELENGTHS !! name) as [w|] eqn:Hw; [exfalso; apply Hrec; eauto|].
    unfold __init__, sbind, set_radiation. rewrite Hw. reflexivity. }
  destruct wavelength as [r|z|name|type_name]; try (unfold numeric in Hnum; tauto).
  - split; [rewrite (Hstr name eq_refl); cbn [snd]; eauto|].
    split; [intros ty Heq; discriminate | exact Hstr].
  - split; [cbn; eauto|].
    split; [intros ty Heq; injection Heq as <-; reflexivity | exact Hstr].
Qed.

(** The theorem at an argument of a wrong type and at an unknown name. *)
Lemma C5_init_failure_witness :
  __init__ (PyOther "NoneType") 0 None blank =
    (blank, Raise (TypeError "NoneType must be either float, int or str")) /\
  __init__ (PyStr "XyKa") 0 None blank =
    (mkXRDCalculator (Some "XyKa"%string) None None None, Raise (KeyError "XyKa")).
Proof.
  split.
  - refine (proj1 (proj2 (C5_init_failure (PyOther "NoneType") 0 None blank _ _))
              "NoneType"%string eq_refl); [unfold numeric | unfold recognized]; tauto.
  - refine (proj2 (proj2 (C5_init_failure (PyStr "XyKa") 0 None blank _ _))
              "XyKa"%string eq_refl).
    + unfold numeric; tauto.
    + unfold recognized. intros [w Hw]. vm_compute in Hw. discriminate.
Defined.

End Constructor.

(** * The Bragg angle *)

Section BraggAngle.
Import Xrd.
Context `{Environment}.



End BraggAngle.

(** * Intensities *)

Section Intensities.
Import Xrd.
Context `{Environment}.

(** Whenever some peak passes the threshold, the largest accumulated
    intensity is positive and its own peak passes too. *)
Lemma kept_nonempty_max (peaks : list (R * Peak)) (m : R) (kv : R * Peak) :
  Forall (fun kv => 0 <= intensity kv.2) peaks ->
  py_max (map intensity (dict_values peaks)) = Ok m ->
  kv ∈ kept peaks m ->
  0 < m /\ exists kvm, kvm ∈ kept peaks m /\ intensity kvm.2 = m.
Proof.
  intros Hall Hm Hkv. apply py_max_Ok in Hm as [Hin Hmax].
  assert (Hle : forall kv', kv' ∈ peaks -> intensity kv'.2 <= m).
  { intros kv' Hkv'. apply Hmax. apply list_elem_of_fmap. exists kv'.2.
    split; [reflexivity|]. unfold dict_values. apply list_elem_of_fmap. eauto. }
  unfold kept in Hkv. apply list_elem_of_filter in Hkv as [Hab Hkv].
  apply (proj1 (sorted_items_elem _ _)) in Hkv.
  apply above_threshold_spec in Hab as [Hne Hgt]; [|apply Hle; exact Hkv].
  apply list_elem_of_fmap in Hin as (vm & -> & Hvm).
  unfold dict_values in Hvm. apply list_elem_of_fmap in Hvm as (kvm & -> & Hkvm).
  rewrite Forall_forall in Hall.
  assert (Hpos : 0 < intensity kvm.2).
  { specialize (Hall kvm Hkvm). simpl in Hall. lra. }
  split; [exact Hpos|]. exists kvm. split; [|reflexivity].
  unfold kept. apply list_elem_of_filter. split; [|apply sorted_items_elem; exact Hkvm].
  apply above_threshold_spec; [lra|]. split; [exact Hne|].
  assert (Hv : intensity kv.2 / intensity kvm.2 * 100 <= 100).
  { specialize (Hle kv Hkv).
    assert (intensity kv.2 / intensity kvm.2 <= 1).
    { apply (Rmult_le_reg_r (intensity kvm.2)); [exact Hpos|].
      unfold Rdiv. rewrite Rmult_assoc, Rinv_l by lra. lra. }
    lra. }
  replace (intensity kvm.2 / intensity kvm.2) with 1 by (field; lra). lra.
Qed.

(** C3.  Every intensity of a returned pattern is non-negative, and with
    [scaled] set the largest intensity of the returned pattern is exactly
    100: [normalize] divides every intensity by [max / 100], once, after the
    pattern has been built. *)
Theorem C3_intensities_nonnegative_and_scaled_to_100
    (self : XRDCalculator) (structure : Structure) (scaled : bool)
    (two_theta_range : option (R * R)) (p : DiffractionPattern) :
  get_pattern self structure scaled two_theta_range = Ok p ->
  Forall (fun y => 0 <= y) (pat_y p) /\
  (scaled = true -> py_max (pat_y p) = Ok 100).
Proof.
  intros Hrun.
  apply get_pattern_Ok in Hrun
    as (sym & w & min_r & max_r & contribs & peaks & tts & xrd
        & _ & _ & _ & _ & Hacc & Hb & Hsc).
  pose proof (accumulate_inv _ _ _ _ _ Hacc) as (Hnd & _).
  pose proof (accumulate_nonneg _ _ _ _ _ Hacc) as Hall. simpl in Hall.
  apply build_pattern_Ok in Hb as (m & Hm & ->); [|exact Hnd].
  set (ys := map (fun kv : R * Peak => intensity kv.2) (kept peaks m)).
  assert (Hys : pat_y (extend (mkDiffractionPattern [] [] [] []) (kept peaks m)) = ys)
    by reflexivity.
  assert (Hnonneg : Forall (fun y => 0 <= y) ys).
  { apply Forall_forall. intros y Hy. apply list_elem_of_fmap in Hy as (kv & -> & Hkv).
    unfold kept in Hkv. apply list_elem_of_filter in Hkv as [_ Hkv].
    apply (proj1 (sorted_items_elem _ _)) in Hkv.
    rewrite Forall_forall in Hall. apply (Hall kv Hkv). }
  destruct scaled.
  - apply normalize_Ok in Hsc as (f & Hf & _ & Hy & _). rewrite Hys in Hf, Hy.
    assert (Hfpos : 0 < f).
    { pose proof (py_max_Ok _ _ Hf) as [Hfin Hfmax].
      apply list_elem_of_fmap in Hfin as (kv & _ & Hkv).
      destruct (kept_nonempty_max _ _ _ Hall Hm Hkv) as (Hpos & kvm & Hkvm & Heq).
      assert (m <= f); [|lra]. apply Hfmax. apply list_elem_of_fmap. exists kvm. auto. }
    assert (Hc : 0 < f / 100) by lra.
    rewrite Hy. split.
    + apply Forall_forall. intros y Hin.
      apply list_elem_of_fmap in Hin as (v & -> & Hv).
      rewrite Forall_forall in Hnonneg. specialize (Hnonneg v Hv).
      apply Rle_mult_inv_pos; assumption.
    + intros _. rewrite (py_max_rescale _ _ _ Hc Hf). f_equal. field. lra.
  - subst p. rewrite Hys. split; [exact Hnonneg | discriminate].
Qed.

End Intensities.

(** * Failures of [get_pattern] *)

Section Failures.
Import Xrd.
Context `{Environment}.

(** C8.  If a species of the structure that [get_pattern] works on has no
    entry in the table of scattering coefficients, no pattern is returned.
    On a calculator that was constructed, with a wavelength other than 0,
    the error is the [ValueError] of line 186 for a species without
    coefficients, and it is the error of the loop over the sites, which runs
    before the loop over the reciprocal points. *)
Theorem C8_missing_scattering_coefficients
    (self : XRDCalculator) (structure : Structure) (scaled : bool)
    (two_theta_range : option (R * R)) (sym : R)
    (site : Site) (sp : Species) (occu : R) :
  symprec self = Some sym ->
  site ∈ sites (refined sym structure) ->
  (sp, occu) ∈ species site ->
  ATOMIC_SCATTERING_PARAMS !! sp_symbol sp = None ->
  (forall p, get_pattern self structure scaled two_theta_range <> Ok p) /\
  (forall w, wavelength self = Some w -> w <> 0 ->
     is_Some (debye_waller_factors self) ->
     exists missing,
       ATOMIC_SCATTERING_PARAMS !! missing = None /\
       flatten_sites self (refined sym structure) = Raise (no_coefficients missing) /\
       get_pattern self structure scaled two_theta_range =
         Raise (no_coefficients missing)).
Proof.
  intros Hsym Hsite Hsp Hnone.
  assert (Hfail : forall contribs,
             flatten_sites self (refined sym structure) <> Ok contribs).
  { intros contribs Hfl.
    destruct (flatten_sites_known _ _ _ Hfl site sp occu Hsite Hsp) as [c Hc].
    congruence. }
  split.
  - intros p Hrun.
    apply get_pattern_Ok in Hrun
      as (sym' & w & min_r & max_r & contribs & peaks & tts & xrd
          & Hsym' & _ & _ & Hfl & _).
    rewrite Hsym in Hsym'. injection Hsym' as <-. exact (Hfail _ Hfl).
  - intros w Hw Hw0 Hdw.
    destruct (flatten_sites self (refined sym structure)) as [contribs|e] eqn:Hfl;
      [exfalso; exact (Hfail _ eq_refl)|].
    destruct (flatten_sites_Raise _ _ _ Hdw Hfl)
      as (site' & sp' & occu' & _ & _ & Hnone' & ->).
    exists (sp_symbol sp'). split; [exact Hnone'|]. split; [reflexivity|].
    destruct (radius_window_total w two_theta_range Hw0) as (min_r & max_r & Hwin).
    unfold get_pattern. rewrite Hsym, Hw. simpl. rewrite Hwin. simpl.
    rewrite Hfl. reflexivity.
Qed.

(** C9.  [get_pattern] raises, and returns no empty pattern, when no
    reciprocal point off the origin lies in the window: on a constructed
    calculator with a wavelength other than 0 and a structure whose species
    all have coefficients, if the enumerated points (which lie within the
    sphere of radius [max_r]) have magnitude 0 whenever they are within
    [[min_r, max_r]], then no peak is aggregated and the [max] of line 264
    raises the [ValueError] of an empty sequence. *)
Theorem C9_no_peak_raises
    (self : XRDCalculator) (structure : Structure) (scaled : bool)
    (two_theta_range : option (R * R)) (sym w min_r max_r : R) :
  symprec self = Some sym ->
  wavelength self = Some w ->
  is_Some (debye_waller_factors self) ->
  (forall site sp occu,
      site ∈ sites (refined sym structure) -> (sp, occu) ∈ species site ->
      is_Some (ATOMIC_SCATTERING_PARAMS !! sp_symbol sp)) ->
  radius_window w two_theta_range = Ok (min_r, max_r) ->
  (forall pt, pt ∈ get_points_in_sphere (lattice (refined sym structure)) max_r ->
      0 <= pt_g pt <= max_r) ->
  (forall pt, pt ∈ get_points_in_sphere (lattice (refined sym structure)) max_r ->
      min_r <= pt_g pt <= max_r -> pt_g pt = 0) ->
  get_pattern self structure scaled two_theta_range =
    Raise (ValueError "max() iterable argument is empty").
Proof.
  intros Hsym Hw Hdw Hknown Hwin Hsphere Hnone.
  destruct (flatten_sites_total _ _ Hdw Hknown) as [contribs Hfl].
  assert (Hzero : forall pt,
             pt ∈ candidate_points (lattice (refined sym structure)) min_r max_r ->
             pt_g pt = 0).
  { intros pt. unfold candidate_points.
    destruct (decide (min_r = 0)) as [Hz|Hnz]; intros Hpt.
    - apply Hnone; [exact Hpt|]. specialize (Hsphere pt Hpt). lra.
    - apply list_elem_of_filter in Hpt as [Hge Hpt].
      apply Hnone; [exact Hpt|]. specialize (Hsphere pt Hpt). lra. }
  assert (Hacc : forall is_hex,
             accumulate w is_hex contribs
               (candidate_points (lattice (refined sym structure)) min_r max_r)
             = Ok ([], [])).
  { intros is_hex. unfold accumulate.
    assert (Hs : forall pt,
               pt ∈ sorted key_leb
                      (candidate_points (lattice (refined sym structure)) min_r max_r) ->
               pt_g pt = 0).
    { intros pt Hpt. apply Hzero. exact (proj1 (sorted_elem key_leb _ pt) Hpt). }
    revert Hs. generalize (sorted key_leb
      (candidate_points (lattice (refined sym structure)) min_r max_r)).
    intros l. induction l as [|pt l IH]; intros Hs; simpl; [reflexivity|].
    unfold process_point at 1. rewrite decide_True by (apply Hs; left).
    simpl. apply IH. intros pt' Hpt'. apply Hs. right. exact Hpt'. }
  unfold get_pattern. rewrite Hsym, Hw. simpl. rewrite Hwin. simpl.
  rewrite Hfl. simpl. rewrite Hacc. reflexivity.
Qed.

End Failures.

(** * Miller indices *)

Section MillerIndices.
Import Xrd.
Context `{Environment}.

(** C7.  [get_unique_families] is taken to return members of the list it is
    given.  Then every Miller index of a returned pattern is, for a hexagonal
    lattice, a 4-tuple [(h, k, i, l)] with [i = -h-k], so [h + k + i = 0],
    and a 3-tuple for any other lattice.  The conversion leaves the
    intensities alone: with and without it the loop over the points fails
    alike or ends with the same recorded angles and, peak by peak, the same
    angle, intensity and d-spacing. *)
Theorem C7_miller_bravais_indices
    (self : XRDCalculator) (structure : Structure) (scaled : bool)
    (two_theta_range : option (R * R)) (sym : R) (p : DiffractionPattern) :
  (forall tuples t n, (t, n) ∈ get_unique_families tuples -> t ∈ tuples) ->
  symprec self = Some sym ->
  get_pattern self structure scaled two_theta_range = Ok p ->
  (forall fams fam, fams ∈ pat_hkls p -> fam ∈ fams ->
     if is_hexagonal (lattice (refined sym structure))
     then exists h k i l : Z,
            hkl fam = [h; k; i; l] /\ i = (- h - k)%Z /\ (h + k + i = 0)%Z
     else exists h k l : Z, hkl fam = [h; k; l]) /\
  (forall w contribs recip_pts,
     match accumulate w true contribs recip_pts,
           accumulate w false contribs recip_pts with
     | Ok (peaks4, two_thetas4), Ok (peaks3, two_thetas3) =>
         two_thetas4 = two_thetas3 /\ without_hkls peaks4 = without_hkls peaks3
     | Raise e4, Raise e3 => e4 = e3
     | _, _ => False
     end).
Proof.
  intros Hfam Hsym Hrun. split.
  - apply get_pattern_Ok in Hrun
      as (sym' & w & min_r & max_r & contribs & peaks & tts & xrd
          & Hsym' & _ & _ & _ & Hacc & Hb & Hsc).
    rewrite Hsym in Hsym'. injection Hsym' as <-.
    pose proof (accumulate_inv _ _ _ _ _ Hacc) as (Hnd & _).
    pose proof (accumulate_shape _ _ _ _ _ Hacc) as Hshape. simpl in Hshape.
    apply build_pattern_Ok in Hb as (m & Hm & ->); [|exact Hnd].
    assert (Hhkls : pat_hkls p =
                    map (fun kv : R * Peak => families (peak_hkls kv.2)) (kept peaks m)).
    { destruct scaled.
      - apply normalize_Ok in Hsc as (f & _ & _ & _ & Hh & _). rewrite Hh. reflexivity.
      - subst p. reflexivity. }
    intros fams fam Hfams Hin. rewrite Hhkls in Hfams.
    apply list_elem_of_fmap in Hfams as (kv & -> & Hkv).
    unfold kept in Hkv. apply list_elem_of_filter in Hkv as [_ Hkv].
    apply (proj1 (sorted_items_elem _ _)) in Hkv.
    unfold peaks_shape in Hshape. rewrite Forall_forall in Hshape.
    specialize (Hshape kv Hkv). simpl in Hshape. rewrite Forall_forall in Hshape.
    unfold families in Hin. apply list_elem_of_fmap in Hin as ([t n] & -> & Htn).
    apply Hfam in Htn. specialize (Hshape t Htn). simpl.
    unfold miller_shape in Hshape.
    destruct (is_hexagonal (lattice (refined sym structure))).
    + destruct Hshape as (h & k & l & ->). exists h, k, (- h - k)%Z, l.
      split; [reflexivity|]. split; [reflexivity | lia].
    + exact Hshape.
  - intros w contribs recip_pts.
    pose proof (accumulate_hex_irrelevant w contribs recip_pts) as Hacc.
    destruct (accumulate w true contribs recip_pts) as [[pk4 tt4]|e4],
             (accumulate w false contribs recip_pts) as [[pk3 tt3]|e3]; exact Hacc.
Qed.

End MillerIndices.

(** * The processing order *)

Section ProcessingOrder.
Import Xrd.
Context `{Environment}.

(** C2.  The loop of line 202 runs over the candidate points rearranged by
    [sorted]: a permutation of them that is ordered by [g] ascending and
    then by the components of the Miller index descending.  When it ends,
    the reflections of the points off the origin, in this order, fall into
    clusters, one for each peak: the key of the peak is the angle of the
    first reflection of its cluster, its d-spacing is [1 / g] of that
    reflection, and every later reflection of the cluster, which lies within
    the tolerance of the key, has only added its intensity and its Miller
    index ([cluster_peak]).  Every reflection has its angle recorded or
    lies within the tolerance of a recorded angle, and two different
    recorded angles are at least the tolerance apart.  With a positive
    tolerance the clusters cover
    the reflections: every reflection is a member of exactly one cluster
    (the members of the clusters are a permutation of the reflections), so
    each of them either recorded its angle as the first of a cluster or added
    its intensity and its index to an earlier one, and the recorded angles
    are the keys of the clusters in the order of their first reflections. *)
Theorem C2_processing_order_and_first_angle
    (wavelength : R) (is_hex : bool) (contribs : list SiteContribution)
    (recip_pts : list RecipPoint) (peaks : list (R * Peak)) (two_thetas : list R) :
  accumulate wavelength is_hex contribs recip_pts = Ok (peaks, two_thetas) ->
  accumulate wavelength is_hex contribs recip_pts =
    for_each (process_point wavelength is_hex contribs) (sorted key_leb recip_pts)
      ([], []) /\
  Permutation recip_pts (sorted key_leb recip_pts) /\
  StronglySorted processed_no_later (sorted key_leb recip_pts) /\
  exists refls cl,
    reflections_of wavelength is_hex contribs (sorted key_leb recip_pts) = Ok refls /\
    Forall2 (fun pt r => reflection wavelength is_hex contribs pt = Ok r)
      (filter (fun pt => pt_g pt <> 0) (sorted key_leb recip_pts)) refls /\
    peaks = map (fun kc => (kc.1, cluster_peak kc.2)) cl /\
    Forall (fun kc : R * (Reflection * list Reflection) =>
              let '(key, (first, later)) := kc in
              key = r_two_theta first /\
              dict_get key peaks = Some (cluster_peak (first, later)) /\
              d_hkl (cluster_peak (first, later)) = 1 / r_g_hkl first /\
              sublist (first :: later) refls /\
              Forall (fun r => within_tol (r_two_theta r) key) later) cl /\
    (forall key, key ∈ two_thetas <-> key ∈ map fst cl) /\
    Forall (fun r => exists key,
              key ∈ two_thetas /\
              (key = r_two_theta r \/ within_tol (r_two_theta r) key)) refls /\
    (forall a b, a ∈ two_thetas -> b ∈ two_thetas -> a <> b ->
                 TWO_THETA_TOL <= Rabs (a - b)) /\
    (0 < TWO_THETA_TOL ->
     two_thetas = map fst cl /\ Permutation refls (cluster_members cl)).
Proof.
  intros Hacc. split; [reflexivity|]. split; [apply sorted_Permutation|].
  split; [apply sorted_points_order|].
  pose proof (accumulate_inv _ _ _ _ _ Hacc) as (Hnd & Hkeys & Hsep).
  unfold accumulate in Hacc.
  apply for_each_process_point in Hacc as (refls & Hrefls & Hmerge).
  pose proof (for_each_merge_recorded _ _ _ Hmerge) as Hrec. cbn [snd] in Hrec.
  apply for_each_merge_cover in Hmerge as (cl & (Hpeaks & Hall) & Hcover).
  simpl in Hpeaks, Hcover.
  exists refls, cl. split; [exact Hrefls|].
  split; [apply reflections_of_points; exact Hrefls|]. split; [exact Hpeaks|].
  split; [|split; [|split; [apply Forall_forall; exact Hrec |
                            split; [exact Hsep | exact Hcover]]]].
  2:{ intros key. rewrite <- Hkeys, Hpeaks. unfold dict_keys.
      rewrite map_map. reflexivity. }
  apply Forall_forall. intros [key [first later]] Hkc.
  rewrite Forall_forall in Hall. destruct (Hall _ Hkc) as (Hk & Hsub & Htol).
  simpl in *. split; [exact Hk|]. split; [|auto].
  apply dict_get_elem_NoDup; [exact Hnd|]. rewrite Hpeaks.
  apply list_elem_of_fmap. exists (key, (first, later)). auto.
Qed.

End ProcessingOrder.

(** * [Entry.normalize] *)

Section EntryNormalize.
Import Entries.
Context {Composition : Type} `{CompositionClass Composition}.
Local Abbreviation heap := (gmap positive (@object Composition)).
Local Abbreviation Entry := (@Entry Composition).

(** C10.  A composition is taken to be rebuilt from its own [as_dict].
    Then a call of [normalize] that returns does so with a reference to a new
    entry, allocated by the call: its composition is the receiver's divided
    by the normalization factor of the mode, its energy is the receiver's
    divided by the same factor.  The receiver, and every object that existed
    before the call, is as it was. *)
Theorem C10_normalize_new_entry_and_frame
    (self new : positive) (mode : string) (h h' : heap) (e : Entry) :
  (forall c : Composition, Composition_new (VDict (Composition_as_dict c)) = Ok c) ->
  h !! self = Some (EntryObj e) ->
  normalize self mode h = (h', Ok new) ->
  exists factor new_composition,
    _normalization_factor self mode h = (h, Ok factor) /\
    ((mode = "atom"%string /\ factor = num_atoms (_composition e)) \/
     (mode = "formula_unit"%string /\
      factor = (get_reduced_composition_and_factor (_composition e)).2)) /\
    truediv (_composition e) factor = Ok new_composition /\
    h' !! new = Some (EntryObj (mkEntry new_composition (_energy e / factor))) /\
    h !! new = None /\
    new <> self /\
    h' !! self = Some (EntryObj e) /\
    (forall l, is_Some (h !! l) -> h' !! l = h !! l).
Proof.
  intros Hround Hself Hrun. unfold normalize in Hrun.
  sbind_inv Hrun. rename a into factor.
  pose proof Ha as Hfactor.
  apply normalization_factor_Ok in Ha as (-> & e0 & He0 & Hmode).
  rewrite Hself in He0. injection He0 as <-.
  sbind_inv Hrun. apply read_entry_Ok in Ha as [-> He1].
  rewrite Hself in He1. injection He1 as <-.
  sbind_inv Hrun. unfold slift in Ha. injection Ha as <- Htruediv.
  rename a into new_composition.
  sbind_inv Hrun. unfold slift in Ha. injection Ha as <- Hdiv.
  apply py_div_Ok in Hdiv as [Hne ->].
  sbind_inv Hrun. rename a into d. unfold as_dict in Ha.
  sbind_inv Ha. apply read_entry_Ok in Ha0 as [-> He2].
  rewrite Hself in He2. injection He2 as <-.
  apply alloc_Ok in Ha as [Hd ->].
  assert (Hdfresh : h !! d = None) by (rewrite Hd; apply fresh_not_allocated).
  sbind_inv Hrun. unfold setitem in Ha. sbind_inv Ha.
  apply read_dict_Ok in Ha0 as [-> Hitems].
  rewrite lookup_insert_eq in Hitems. injection Hitems as <-.
  injection Ha as <- _.
  sbind_inv Hrun. unfold setitem in Ha. sbind_inv Ha.
  apply read_dict_Ok in Ha0 as [-> Hitems].
  rewrite lookup_insert_eq in Hitems. injection Hitems as <-.
  injection Ha as <- _.
  unfold from_dict in Hrun. sbind_inv Hrun.
  apply read_dict_Ok in Ha as [-> Hitems].
  rewrite lookup_insert_eq in Hitems. injection Hitems as <-.
  rewrite lookup_insert_eq in Hrun.
  rewrite lookup_insert_ne in Hrun by discriminate.
  rewrite lookup_insert_eq in Hrun.
  unfold __init__ in Hrun. sbind_inv Hrun.
  unfold slift in Ha. injection Ha as <- Hnew. rewrite Hround in Hnew.
  injection Hnew as <-.
  apply alloc_Ok in Hrun as [Hnew ->].
  rewrite !insert_insert_eq in *.
  assert (Hnewfresh : (<[d := DictObj
            (<["energy"%string := VFloat (_energy e / factor)]>
               (<["composition"%string := VDict (Composition_as_dict new_composition)]>
                  (<["@module"%string := VStr "pymatgen.entries"]>
                     (<["@class"%string := VStr "Entry"]>
                        (<["energy"%string := VFloat (_energy e)]>
                           (<["composition"%string :=
                                VDict (Composition_as_dict (_composition e))]> ∅))))))]>
            h) !! new = None).
  { rewrite Hnew. apply (fresh_not_allocated (Composition := Composition)). }
  assert (Hnd : new <> d).
  { intros ->. rewrite lookup_insert_eq in Hnewfresh. discriminate. }
  rewrite lookup_insert_ne in Hnewfresh by congruence.
  assert (Hns : new <> self) by congruence.
  assert (Hds : d <> self) by congruence.
  exists factor, new_composition.
  split; [exact Hfactor|]. split; [exact Hmode|]. split; [exact Htruediv|].
  split; [apply lookup_insert_eq|]. split; [exact Hnewfresh|]. split; [exact Hns|].
  split.
  - rewrite !lookup_insert_ne by congruence. exact Hself.
  - intros l [o Hl]. rewrite !lookup_insert_ne by congruence. reflexivity.
Qed.

End EntryNormalize.

(** * The worked example *)

Section ExampleFacts.
Import Xrd.

Lemma unique_families_members (tuples : list (list Z)) (t : list Z) (n : nat) :
  (t, n) ∈ unique_families tuples -> t ∈ tuples.
Proof.
  unfold unique_families.
  assert (Hadd : forall t0 fams t n,
             (t, n) ∈ add_to_families t0 fams ->
             t = t0 \/ exists n', (t, n') ∈ fams).
  { intros t0 fams. induction fams as [|[t' n'] fams IH]; intros t1 n1 Hin; simpl in Hin.
    - apply list_elem_of_singleton in Hin. injection Hin as -> _. auto.
    - destruct (same_family t0 t').
      + apply elem_of_cons in Hin as [Heq|Hin].
        * injection Heq as -> _. right. exists n'. left.
        * right. exists n1. right. exact Hin.
      + apply elem_of_cons in Hin as [Heq|Hin].
        * injection Heq as -> ->. right. exists n'. left.
        * destruct (IH _ _ Hin) as [->|[n2 Hn2]]; [auto|].
          right. exists n2. right. exact Hn2. }
  assert (Hgen : forall l fams t n,
             (t, n) ∈ fold_left (fun fams t => add_to_families t fams) l fams ->
             t ∈ l \/ exists n', (t, n') ∈ fams).
  { induction l as [|t0 l IH]; intros fams t1 n1 Hin; simpl in Hin; [eauto|].
    destruct (IH _ _ _ Hin) as [Hl|[n2 Hn2]]; [left; right; exact Hl|].
    destruct (Hadd _ _ _ _ Hn2) as [->|Hex]; [left; left | right; exact Hex]. }
  intros Hin. destruct (Hgen _ _ _ _ Hin) as [Hl|[n' Hn']]; [exact Hl|].
  apply elem_of_nil in Hn'. contradiction.
Qed.

Lemma example_init :
  __init__ (PyStr "CuKa") 0 None blank = (example_calculator, Ok tt).
Proof. apply init_named. apply WAVELENGTHS_CuKa. Qed.

Lemma example_window :
  radius_window 1.54184 None = Ok (0, 2 / 1.54184).
Proof. unfold radius_window, py_div. rewrite decide_False by lra. reflexivity. Qed.

Ltac filter_points :=
  repeat (rewrite filter_cons;
          first [ rewrite decide_True by (cbn [pt_g]; lra)
                | rewrite decide_False by (cbn [pt_g]; lra) ]);
  rewrite ?filter_nil.

Lemma example_candidates (is_hex : bool) :
  candidate_points (example_lattice is_hex) 0 (2 / 1.54184)
  = example_points.
Proof.
  unfold candidate_points. rewrite decide_True by reflexivity.
  unfold example_lattice, example_points. cbn [get_points_in_sphere].
  filter_points. reflexivity.
Qed.

Lemma example_points_inside (q : RecipPoint) :
  q ∈ example_points -> pt_g q <> 0 -> -1 < 1.54184 * pt_g q / 2 < 1.
Proof.
  unfold example_points. intros Hq _.
  repeat (apply elem_of_cons in Hq as [->|Hq]; [cbn [pt_g]; lra|]).
  apply elem_of_nil in Hq. contradiction.
Qed.

Lemma example_known (is_hex : bool) (site : Site) (sp : Species) (occu : R) :
  site ∈ sites (example_structure is_hex) -> (sp, occu) ∈ species site ->
  is_Some (ATOMIC_SCATTERING_PARAMS (Environment := example_env) !! sp_symbol sp).
Proof.
  unfold example_structure. cbn [sites]. intros Hsite Hsp.
  apply list_elem_of_singleton in Hsite. subst site.
  cbn [example_site species] in Hsp. apply list_elem_of_singleton in Hsp.
  injection Hsp as -> _. cbn [sp_symbol ATOMIC_SCATTERING_PARAMS example_env].
  rewrite lookup_singleton_eq. eauto.
Qed.

Lemma example_contribs (is_hex : bool) :
  flatten_sites (H := example_env) example_calculator (example_structure is_hex) =
  Ok [mkSiteContribution 26
        [(2.544, 64.424); (2.343, 14.88); (1.759, 2.854); (0.506, 0.35)]
        0 (0, 0, 0) 1].
Proof.
  unfold flatten_sites, example_structure, example_site.
  cbn [sites for_each species flatten_species sp_symbol ATOMIC_SCATTERING_PARAMS
       example_env].
  rewrite lookup_singleton_eq.
  cbn [example_calculator debye_waller_factors getattr bind app sp_Z frac_coords].
  rewrite lookup_empty. reflexivity.
Qed.

Lemma exp_neg_le_1 (x : R) : 0 <= x -> 0 < exp (- x) <= 1.
Proof.
  intros Hx. split; [apply exp_pos|].
  destruct (Req_dec_T x 0) as [->|Hne].
  - rewrite Ropp_0, exp_0. lra.
  - rewrite <- exp_0. apply Rlt_le, exp_increasing. lra.
Qed.

(** The (100) reflection of the example is bright. *)
Lemma example_bright (is_hex : bool) (contribs : list SiteContribution) :
  flatten_sites (H := example_env) example_calculator (example_structure is_hex) =
    Ok contribs ->
  bright 1.54184 is_hex contribs (mkRecipPoint (1, 0, 0) (1 / 5)).
Proof.
  rewrite example_contribs. intros Heq. injection Heq as <-.
  split; [cbn [pt_g]; lra|]. intros r Hr.
  unfold reflection in Hr. cbn [pt_hkl pt_g] in Hr.
  bind_inv Hr. bind_inv Hr. cbn [g_dot_r] in Ha0. injection Ha0 as <-.
  bind_inv Hr. injection Hr as <-. cbn [r_i_hkl].
  rewrite (py_round_IZR 1), (py_round_IZR 0).
  replace (2 * PI * (0 * 1 + 0 * 0 + 0 * 0)) with 0 by ring.
  rewrite cos_0, sin_0.
  set (s2 := 1 / 5 / 2 * (1 / 5 / 2 * 1)).
  assert (Hs2 : s2 = 1 / 100) by (unfold s2; field).
  assert (Hfs : 20 < fs s2
                (mkSiteContribution 26
                   [(2.544, 64.424); (2.343, 14.88); (1.759, 2.854); (0.506, 0.35)]
                   0 (0, 0, 0) 1)).
  { unfold fs. cbn [sc_Z sc_coeffs map fold_right fst snd]. rewrite Hs2.
    pose proof (exp_neg_le_1 (64.424 * (1 / 100)) ltac:(lra)) as H1.
    pose proof (exp_neg_le_1 (14.88 * (1 / 100)) ltac:(lra)) as H2.
    pose proof (exp_neg_le_1 (2.854 * (1 / 100)) ltac:(lra)) as H3.
    pose proof (exp_neg_le_1 (0.35 * (1 / 100)) ltac:(lra)) as H4.
    rewrite <- !Ropp_mult_distr_l. lra. }
  pose proof (exp_pos (- 0 * s2)) as He.
  set (f := fs s2 _) in *. set (e := exp (- 0 * s2)) in *.
  assert (0 < e * (f * 1 * 1)) by (apply Rmult_lt_0_compat; lra).
  nra.
Qed.

(** The example is a run that returns a pattern, scaled or not. *)
Lemma example_returns (is_hex scaled : bool) :
  exists p, get_pattern (H := example_env) example_calculator
              (example_structure is_hex) scaled None = Ok p.
Proof.
  eapply (get_pattern_total (H := example_env) example_calculator
            (example_structure is_hex) scaled None 0 1.54184 0 (2 / 1.54184)
            (example_site "Fe") (mkRecipPoint (1, 0, 0) (1 / 5))).
  - reflexivity.
  - reflexivity.
  - cbn. eauto.
  - lra.
  - unfold refined. rewrite decide_True by reflexivity. apply example_known.
  - unfold refined. rewrite decide_True by reflexivity. left.
  - discriminate.
  - apply example_window.
  - unfold refined. rewrite decide_True by reflexivity.
    cbn [lattice example_structure]. rewrite example_candidates.
    apply example_points_inside.
  - unfold refined. rewrite decide_True by reflexivity.
    cbn [lattice example_structure]. rewrite example_candidates.
    right. left.
  - cbn [pt_g]. lra.
  - intros _. split; [cbn; lra|]. split; [cbn; lra|].
    unfold refined. rewrite decide_True by reflexivity.
    intros contribs Hc. apply example_bright. exact Hc.
Qed.

(** Five of the six points of the example are off the origin. *)
Lemma example_reflections_count (wavelength : R) (is_hex : bool)
    (contribs : list SiteContribution) (refls : list Reflection) :
  reflections_of wavelength is_hex contribs (sorted key_leb example_points) = Ok refls ->
  length refls = 5%nat.
Proof.
  intros Hrun. rewrite (reflections_of_length _ _ _ _ _ Hrun).
  rewrite <- (Permutation_length
                (filter_Permutation (fun pt => pt_g pt <> 0) _ _
                   (sorted_Permutation key_leb example_points))).
  unfold example_points. filter_points. reflexivity.
Qed.

End ExampleFacts.

(** * The theorems at the worked example *)

(** C1 at the example, scaled. *)
Lemma C1_two_theta_ascending_and_separated_witness :
  exists p,
    Xrd.get_pattern (H := example_env) example_calculator (example_structure false)
      true None = Ok p /\
    StronglySorted Rlt (Xrd.pat_x p) /\ separated (H := example_env) (Xrd.pat_x p).
Proof.
  destruct (example_returns false true) as [p Hp]. exists p. split; [exact Hp|].
  destruct (C1_two_theta_ascending_and_separated (H := example_env) _ _ _ _ _ Hp)
    as (Hs & Hsep & _).
  split; assumption.
Defined.

(** C2 at the points of the example: the five reflections of the points
    off the origin are the members of the clusters of the peaks. *)
Lemma C2_processing_order_and_first_angle_witness :
  exists peaks two_thetas refls cl,
    Xrd.accumulate (H := example_env) 1.54184 false
      [Xrd.mkSiteContribution 26
         [(2.544, 64.424); (2.343, 14.88); (1.759, 2.854); (0.506, 0.35)]
         0 (0, 0, 0) 1]
      example_points = Ok (peaks, two_thetas) /\
    StronglySorted processed_no_later (sorted Xrd.key_leb example_points) /\
    reflections_of 1.54184 false
      [Xrd.mkSiteContribution 26
         [(2.544, 64.424); (2.343, 14.88); (1.759, 2.854); (0.506, 0.35)]
         0 (0, 0, 0) 1]
      (sorted Xrd.key_leb example_points) = Ok refls /\
    length refls = 5%nat /\
    peaks = map (fun kc => (kc.1, cluster_peak kc.2)) cl /\
    two_thetas = map fst cl /\
    Permutation refls (cluster_members cl).
Proof.
  destruct (accumulate_total (H := example_env) 1.54184 false
              [Xrd.mkSiteContribution 26
                 [(2.544, 64.424); (2.343, 14.88); (1.759, 2.854); (0.506, 0.35)]
                 0 (0, 0, 0) 1] example_points)
    as [[peaks tts] Hacc].
  - discriminate.
  - lra.
  - apply example_points_inside.
  - destruct (C2_processing_order_and_first_angle (H := example_env) _ _ _ _ _ _ Hacc)
      as (_ & _ & Hsorted & refls & cl & Hrefls & _ & Hpeaks & _ & _ & _ & _ & Hcover).
    destruct (Hcover ltac:(cbn; lra)) as [Htts Hperm].
    exists peaks, tts, refls, cl. split; [exact Hacc|]. split; [exact Hsorted|].
    split; [exact Hrefls|]. split; [exact (example_reflections_count _ _ _ _ Hrefls)|].
    split; [exact Hpeaks|]. split; assumption.
Defined.

(** C3 at the example, scaled: the largest intensity is 100. *)
Lemma C3_intensities_nonnegative_and_scaled_to_100_witness :
  exists p,
    Xrd.get_pattern (H := example_env) example_calculator (example_structure false)
      true None = Ok p /\
    py_max (Xrd.pat_y p) = Ok 100.
Proof.
  destruct (example_returns false true) as [p Hp]. exists p. split; [exact Hp|].
  exact (proj2 (C3_intensities_nonnegative_and_scaled_to_100 (H := example_env)
                  _ _ _ _ _ Hp) eq_refl).
Defined.

(** C4 at the example, not scaled: the peaks are those that the loop
    aggregates from the six points of the example. *)
Lemma C4_pattern_is_the_peaks_above_threshold_witness :
  exists p peaks two_thetas max_intensity,
    Xrd.get_pattern (H := example_env) example_calculator (example_structure false)
      false None = Ok p /\
    Xrd.accumulate (H := example_env) 1.54184 false
      [Xrd.mkSiteContribution 26
         [(2.544, 64.424); (2.343, 14.88); (1.759, 2.854); (0.506, 0.35)]
         0 (0, 0, 0) 1]
      example_points = Ok (peaks, two_thetas) /\
    py_max (map Xrd.intensity (dict_values peaks)) = Ok max_intensity /\
    p = extend (H := example_env) (Xrd.mkDiffractionPattern [] [] [] [])
          (kept (H := example_env) peaks max_intensity).
Proof.
  destruct (example_returns false false) as [p Hp].
  destruct (C4_pattern_is_the_peaks_above_threshold (H := example_env) _ _ _ _ _ Hp)
    as (sym & w & min_r & max_r & contribs & peaks & tts & m & xrd
        & Hsym & Hw & Hwin & Hfl & Hacc & _ & Hsc & Hm & _ & _ & Hxrd & _).
  cbn in Hsym, Hw. injection Hsym as <-. injection Hw as <-.
  rewrite example_window in Hwin. injection Hwin as <- <-.
  unfold Xrd.refined in Hfl, Hacc. rewrite decide_True in Hfl, Hacc by reflexivity.
  rewrite example_contribs in Hfl. injection Hfl as <-.
  cbn [Xrd.lattice example_structure] in Hacc. rewrite example_candidates in Hacc.
  cbn [Xrd.is_hexagonal example_lattice] in Hacc.
  exists p, peaks, tts, m. split; [exact Hp|]. split; [exact Hacc|].
  split; [exact Hm|]. simpl in Hsc. congruence.
Defined.


(** C7 at the example with a hexagonal lattice. *)
Lemma C7_miller_bravais_indices_witness :
  exists p,
    Xrd.get_pattern (H := example_env) example_calculator (example_structure true)
      false None = Ok p /\
    forall fams fam, fams ∈ Xrd.pat_hkls p -> fam ∈ fams ->
      exists h k i l : Z, Xrd.hkl fam = [h; k; i; l] /\ i = (- h - k)%Z /\
                          (h + k + i = 0)%Z.
Proof.
  destruct (example_returns true false) as [p Hp]. exists p. split; [exact Hp|].
  pose proof (proj1 (C7_miller_bravais_indices (H := example_env) example_calculator
                       (example_structure true) false None 0 p
                       unique_families_members eq_refl Hp)) as Hshape.
  unfold Xrd.refined in Hshape. rewrite decide_True in Hshape by reflexivity.
  exact Hshape.
Defined.

(** C8 at the structure with the unknown symbol. *)
Lemma C8_missing_scattering_coefficients_witness :
  exists missing,
    Xrd.ATOMIC_SCATTERING_PARAMS (Environment := example_env) !! missing = None /\
    Xrd.get_pattern (H := example_env) example_calculator unknown_structure true None
    = Raise (no_coefficients missing).
Proof.
  destruct (proj2 (C8_missing_scattering_coefficients (H := example_env)
              example_calculator unknown_structure true None 0
              (example_site "Xx") (Xrd.mkSpecies 26 "Xx") 1 eq_refl
              ltac:(unfold Xrd.refined; rewrite decide_True by reflexivity; left)
              ltac:(left)
              ltac:(apply lookup_singleton_ne; discriminate))
            1.54184 eq_refl ltac:(lra) ltac:(cbn; eauto))
    as (missing & Hnone & _ & Hrun).
  exists missing. split; assumption.
Defined.

(** C9 at the lattice of which only the origin is enumerated. *)
Lemma C9_no_peak_raises_witness :
  Xrd.get_pattern (H := example_env) example_calculator origin_structure true None =
    Raise (ValueError "max() iterable argument is empty").
Proof.
  assert (Hpts : forall pt,
             pt ∈ Xrd.get_points_in_sphere
                    (Xrd.lattice (Xrd.refined (H := example_env) 0 origin_structure))
                    (2 / 1.54184) ->
             Xrd.pt_g pt = 0).
  { unfold Xrd.refined. rewrite decide_True by reflexivity.
    cbn [origin_structure Xrd.lattice Xrd.get_points_in_sphere].
    intros pt Hpt. apply list_elem_of_filter in Hpt as [_ Hpt].
    apply list_elem_of_singleton in Hpt. subst pt. reflexivity. }
  apply (C9_no_peak_raises (H := example_env) example_calculator origin_structure
           true None 0 1.54184 0 (2 / 1.54184)).
  - reflexivity.
  - reflexivity.
  - cbn. eauto.
  - unfold Xrd.refined. rewrite decide_True by reflexivity.
    intros site sp occu Hsite Hsp. apply (example_known false site sp occu);
      [exact Hsite | exact Hsp].
  - apply example_window.
  - intros pt Hpt. rewrite (Hpts pt Hpt). lra.
  - intros pt Hpt _. exact (Hpts pt Hpt).
Defined.

(** C10 at the heap of the example, normalized per atom. *)
Lemma C10_normalize_new_entry_and_frame_witness :
  exists h' new,
    Entries.normalize 1 "atom" example_heap = (h', Ok new) /\
    h' !! 1%positive = Some (Entries.EntryObj example_entry) /\
    new <> 1%positive.
Proof.
  assert (Hself : example_heap !! 1%positive = Some (Entries.EntryObj example_entry))
    by apply lookup_singleton_eq.
  assert (Hatoms : amounts_num_atoms {[ "Fe"%string := 2 ]} = 2).
  { unfold amounts_num_atoms. rewrite map_fold_singleton.
    rewrite Rabs_pos_eq by lra. lra. }
  assert (Hfactor : Entries._normalization_factor 1 "atom" example_heap =
                    (example_heap, Ok 2)).
  { rewrite (normalization_factor_total _ _ _ _ Hself).
    rewrite decide_True by reflexivity. cbn [Entries.num_atoms amounts_class
      Entries._composition example_entry]. rewrite Hatoms. reflexivity. }
  assert (Hdiv : Entries.truediv (Entries._composition example_entry) 2 =
                 Ok ((fun amount => amount / 2) <$> {[ "Fe"%string := 2 ]})).
  { cbn [Entries.truediv amounts_class Entries._composition example_entry].
    unfold amounts_truediv. rewrite decide_False by lra. reflexivity. }
  destruct (entry_normalize_total 1 "atom" example_heap example_entry 2 _ _
              Hself Hfactor ltac:(lra) Hdiv eq_refl) as (h' & new & Hrun & _).
  exists h', new. split; [exact Hrun|].
  destruct (C10_normalize_new_entry_and_frame (H := amounts_class) 1 new "atom"
              example_heap h' example_entry (fun c => eq_refl) Hself Hrun)
    as (factor & c & _ & _ & _ & _ & _ & Hne & Hkeep & _).
  split; assumption.
Defined.

(** * Further facts about the pattern *)

Section RowFacts.
Import Xrd.
Context `{Environment}.

Lemma dict_set_elem_NoDup {V : Type} (d : list (R * V)) (k k' : R) (v x : V) :
  NoDup (dict_keys d) -> (k', x) ∈ dict_set k v d ->
  (k' = k /\ x = v) \/ (k' <> k /\ (k', x) ∈ d).
Proof.
  intros Hnd Hin. destruct (decide (k' = k)) as [->|Hne].
  - left. split; [reflexivity|].
    pose proof (dict_keys_set_NoDup d k v Hnd) as Hnd'.
    pose proof (dict_get_elem_NoDup _ _ _ Hnd' Hin) as Hget.
    rewrite dict_get_set_eq in Hget. congruence.
  - right. split; [exact Hne|]. apply (dict_set_elem d k v k' x Hne). exact Hin.
Qed.

(** The four sequences of a returned pattern, read off the peaks that were
    kept. *)
Lemma get_pattern_rows (self : XRDCalculator) (structure : Structure) (scaled : bool)
    (two_theta_range : option (R * R)) (p : DiffractionPattern) :
  get_pattern self structure scaled two_theta_range = Ok p ->
  exists sym w min_r max_r contribs peaks two_thetas m,
    symprec self = Some sym /\
    wavelength self = Some w /\
    radius_window w two_theta_range = Ok (min_r, max_r) /\
    flatten_sites self (refined sym structure) = Ok contribs /\
    accumulate w (is_hexagonal (lattice (refined sym structure))) contribs
      (candidate_points (lattice (refined sym structure)) min_r max_r)
    = Ok (peaks, two_thetas) /\
    py_max (map intensity (dict_values peaks)) = Ok m /\
    pat_x p = map fst (kept peaks m) /\
    pat_hkls p = map (fun kv => families (peak_hkls kv.2)) (kept peaks m) /\
    pat_d_hkls p = map (fun kv => d_hkl kv.2) (kept peaks m) /\
    (if scaled
     then exists f, py_max (map (fun kv => intensity kv.2) (kept peaks m)) = Ok f /\
                    pat_y p = map (fun kv => intensity kv.2 / (f / 100)) (kept peaks m)
     else pat_y p = map (fun kv => intensity kv.2) (kept peaks m)).
Proof.
  intros Hrun.
  apply get_pattern_Ok in Hrun
    as (sym & w & min_r & max_r & contribs & peaks & tts & xrd
        & Hsym & Hw & Hwin & Hfl & Hacc & Hb & Hsc).
  pose proof (accumulate_inv _ _ _ _ _ Hacc) as (Hnd & _).
  apply build_pattern_Ok in Hb as (m & Hm & ->); [|exact Hnd].
  exists sym, w, min_r, max_r, contribs, peaks, tts, m.
  repeat (split; [assumption|]).
  destruct scaled.
  - apply normalize_Ok in Hsc as (f & Hf & Hx & Hy & Hh & Hd).
    cbn [extend pat_x pat_y pat_hkls pat_d_hkls app] in *.
    split; [exact Hx|]. split; [exact Hh|]. split; [exact Hd|].
    exists f. split; [exact Hf|]. rewrite Hy, map_map. reflexivity.
  - subst p. cbn [extend pat_x pat_y pat_hkls pat_d_hkls app]. auto.
Qed.

Lemma kept_elem (peaks : list (R * Peak)) (m : R) (kv : R * Peak) :
  kv ∈ kept peaks m -> kv ∈ peaks /\ above_threshold (intensity kv.2) m = true.
Proof.
  unfold kept. intros Hkv. apply list_elem_of_filter in Hkv as [Hab Hkv].
  split; [apply (proj1 (sorted_items_elem _ _)); exact Hkv | exact Hab].
Qed.

(** Every peak goes back to a point off the origin: its key is the angle
    of the reflection of that point, its d-spacing is [1 / g] of it. *)
Lemma accumulate_peak_origin (wavelength : R) (is_hex : bool)
    (contribs : list SiteContribution) (recip_pts : list RecipPoint)
    (st : peaks_state) (k : R) (v : Peak) :
  accumulate wavelength is_hex contribs recip_pts = Ok st ->
  (k, v) ∈ st.1 ->
  exists pt r, pt ∈ recip_pts /\ pt_g pt <> 0 /\
    reflection wavelength is_hex contribs pt = Ok r /\
    k = r_two_theta r /\ d_hkl v = 1 / r_g_hkl r.
Proof.
  unfold accumulate. intros Hrun Hkv.
  pose proof (for_each_invariant (process_point wavelength is_hex contribs)
                (fun done st =>
                   peaks_inv st /\
                   forall k v, (k, v) ∈ st.1 ->
                     exists pt r, pt ∈ done /\ pt_g pt <> 0 /\
                       reflection wavelength is_hex contribs pt = Ok r /\
                       k = r_two_theta r /\ d_hkl v = 1 / r_g_hkl r)
                (sorted key_leb recip_pts)) as Hinv.
  destruct (Hinv) with (done := @nil RecipPoint) (st := (@nil (R * Peak), @nil R))
                       (st' := st) as [_ Horigin]; [| |exact Hrun|].
  - intros done q [peaks tts] st1 (Hpi & Hprev) Hstep.
    assert (Hweak : forall k v, (k, v) ∈ peaks ->
              exists pt r, pt ∈ done ++ [q] /\ pt_g pt <> 0 /\
                reflection wavelength is_hex contribs pt = Ok r /\
                k = r_two_theta r /\ d_hkl v = 1 / r_g_hkl r).
    { intros k0 v0 Hin. destruct (Hprev k0 v0 Hin) as (pt & r & Hpt & Hrest).
      exists pt, r. split; [apply elem_of_app; left; exact Hpt | exact Hrest]. }
    unfold process_point in Hstep. destruct (decide (pt_g q = 0)) as [Hz|Hnz].
    + injection Hstep as <-. split; [exact Hpi | exact Hweak].
    + bind_inv Hstep. rename a into r.
      split; [eapply merge_inv; eauto|].
      destruct Hpi as (Hnd & _).
      apply merge_Ok in Hstep as [(key & v0 & _ & _ & Hget & ->)|(_ & ->)];
        cbn [fst snd] in *; intros k1 v1 Hin;
        apply (dict_set_elem_NoDup _ _ _ _ _ Hnd) in Hin as [[-> ->]|[_ Hin]];
        try (apply Hweak; exact Hin).
      * apply dict_get_Some_elem in Hget.
        destruct (Hweak _ _ Hget) as (pt & r0 & Hpt & Hrest). exists pt, r0. auto.
      * exists q, r. split; [apply elem_of_app; right; left|].
        split; [exact Hnz|]. split; [exact Ha|]. split; reflexivity.
  - split; [apply peaks_inv_init|]. intros k0 v0 Hin. apply elem_of_nil in Hin.
    contradiction.
  - destruct (Horigin k v Hkv) as (pt & r & Hpt & Hrest). exists pt, r.
    split; [apply (sorted_elem key_leb); exact Hpt | exact Hrest].
Qed.

End RowFacts.

(** * Nothing is lost in the aggregation *)

Lemma sum_app (l1 l2 : list R) :
  fold_right Rplus 0 (l1 ++ l2) = fold_right Rplus 0 l1 + fold_right Rplus 0 l2.
Proof. induction l1 as [|a l1 IH]; simpl; [lra | rewrite IH; lra]. Qed.

Lemma count_app (l1 l2 : list nat) :
  fold_right Nat.add 0%nat (l1 ++ l2) =
  (fold_right Nat.add 0 l1 + fold_right Nat.add 0 l2)%nat.
Proof. induction l1 as [|a l1 IH]; simpl; [lia | rewrite IH; lia]. Qed.

Section ConservationFacts.
Import Xrd.
Context `{Environment}.

Lemma merge_conserves (done : list Reflection) (st st' : peaks_state) (r : Reflection) :
  0 < TWO_THETA_TOL ->
  peaks_inv st ->
  total_intensity st.1 = total_weight done ->
  recorded_indices st.1 = length done ->
  dict_keys st.1 = st.2 ->
  merge st r = Ok st' ->
  total_intensity st'.1 = total_weight (done ++ [r]) /\
  recorded_indices st'.1 = length (done ++ [r]) /\
  dict_keys st'.1 = st'.2.
Proof.
  destruct st as [peaks tts]. intros Htol (Hnd & Hkeys & Hsep) Hsum Hcount Hk Hrun.
  cbn [fst snd] in *.
  assert (Hw : total_weight (done ++ [r]) =
               total_weight done + r_i_hkl r * r_lorentz_factor r).
  { unfold total_weight. rewrite map_app, sum_app. simpl. lra. }
  rewrite Hw, length_app. simpl.
  apply merge_Ok in Hrun as [(key & v & Hin & Hkt & Hget & ->)|(Hfar & ->)];
    cbn [fst snd] in *.
  - destruct (dict_set_present peaks key
                (mkPeak (intensity v + r_i_hkl r * r_lorentz_factor r)
                   (peak_hkls v ++ [r_hkl r]) (d_hkl v)) v Hget)
      as (d1 & d2 & Hd & Hset).
    rewrite Hset. rewrite Hd in Hsum, Hcount, Hk.
    unfold total_intensity, recorded_indices, dict_keys in *.
    rewrite !map_app, ?sum_app, ?count_app in *. simpl in *.
    rewrite length_app. simpl. split; [lra|]. split; [lia | exact Hk].
  - assert (Habsent : r_two_theta r ∉ dict_keys peaks).
    { intros Hin. apply (Hfar (r_two_theta r)); [apply Hkeys; exact Hin|].
      unfold within_tol. rewrite Rminus_diag, Rabs_R0. exact Htol. }
    rewrite dict_set_absent by exact Habsent.
    unfold total_intensity, recorded_indices, dict_keys in *.
    rewrite !map_app, ?sum_app, ?count_app. simpl.
    rewrite Hsum, Hcount, Hk. split; [lra|]. split; [lia | reflexivity].
Qed.


(** ** The order in which the enumerator lists the points *)

Lemma key_leb_antisym (p q : RecipPoint) :
  key_leb p q = true -> key_leb q p = true -> p = q.
Proof.
  rewrite !key_leb_spec. unfold processed_no_later.
  destruct p as [[[h1 k1] l1] g1], q as [[[h2 k2] l2] g2]. cbn [pt_hkl pt_g].
  intros Hpq Hqp.
  assert (g1 = g2) by lra. assert (h1 = h2) by lra.
  assert (k1 = k2) by lra. assert (l1 = l2) by lra. subst. reflexivity.
Qed.

Lemma sorted_points_Permutation (pts pts' : list RecipPoint) :
  Permutation pts pts' -> sorted key_leb pts = sorted key_leb pts'.
Proof.
  intros Hperm.
  apply (StronglySorted_unique_strong (fun p q => key_leb p q = true)).
  - intros p q _ _. apply key_leb_antisym.
  - apply sorted_StronglySorted; [apply key_leb_total | apply key_leb_trans].
  - apply sorted_StronglySorted; [apply key_leb_total | apply key_leb_trans].
  - rewrite <- !sorted_Permutation. exact Hperm.
Qed.

End ConservationFacts.

(** * Loops with equal bodies, and sorted rows *)

Lemma for_each_ext {S A : Type} (f g : S -> A -> result S) (l : list A) (st : S) :
  (forall s a, a ∈ l -> f s a = g s a) -> for_each f l st = for_each g l st.
Proof.
  revert st. induction l as [|a l IH]; intros st Hfg; simpl; [reflexivity|].
  rewrite Hfg by left. destruct (g st a) as [st'|e]; simpl; [|reflexivity].
  apply IH. intros s b Hb. apply Hfg. right. exact Hb.
Qed.

Lemma StronglySorted_map_antitone {A : Type} (key val : A -> R) (l : list A) :
  (forall a b, a ∈ l -> b ∈ l -> key a < key b -> val b < val a) ->
  StronglySorted Rlt (map key l) ->
  StronglySorted (fun x y => y < x) (map val l).
Proof.
  induction l as [|a l IH]; simpl; intros Hanti Hs; [constructor|].
  apply StronglySorted_inv in Hs as [Hs Ha]. constructor.
  - apply IH; [|exact Hs]. intros b c Hb Hc. apply Hanti; right; assumption.
  - rewrite Forall_forall in *. intros d Hd.
    apply list_elem_of_fmap in Hd as (b & -> & Hb).
    apply Hanti; [left | right; exact Hb|]. apply Ha.
    apply list_elem_of_fmap. exists b. auto.
Qed.

Section KeptFacts.
Import Xrd.
Context `{Environment}.

Lemma kept_keys_ascending (peaks : list (R * Peak)) (m : R) :
  NoDup (dict_keys peaks) -> StronglySorted Rlt (map fst (kept peaks m)).
Proof.
  intros Hnd. unfold kept. apply StronglySorted_map_filter.
  rewrite sorted_items_keys. apply sorted_keys_ascending. exact Hnd.
Qed.

End KeptFacts.

Section RangeFacts.
Import Xrd.
Context `{Environment}.

Lemma get_pattern_full_range (self : XRDCalculator) (structure : Structure)
    (scaled : bool) :
  get_pattern self structure scaled None =
  get_pattern self structure scaled (Some (0, 180)).
Proof.
  assert (Hwin : forall w, radius_window w None = radius_window w (Some (0, 180))).
  { intros w. cbn [radius_window]. unfold bragg_radius, math_radians, py_div.
    destruct (decide (w = 0)) as [Hz|Hnz]; [reflexivity|]. cbn [bind].
    replace (180 / 2 * (PI / 180)) with (PI / 2) by (field; apply PI_neq0).
    replace (0 / 2 * (PI / 180)) with 0 by (field; apply PI_neq0).
    rewrite sin_0, sin_PI2. do 2 f_equal; field; exact Hnz. }
  unfold get_pattern.
  destruct (getattr "symprec" (symprec self)) as [sym|e]; [|reflexivity]. cbn [bind].
  destruct (getattr "wavelength" (wavelength self)) as [w|e]; [|reflexivity]. cbn [bind].
  rewrite Hwin. reflexivity.
Qed.

End RangeFacts.

(** * Further properties of [get_pattern] *)

Section PatternExtras.
Import Xrd.
Context `{Environment}.

(** The four sequences of a returned pattern have one length: a peak is its
    angle, its intensity, its families and its d-spacing at one index. *)
Theorem pattern_sequences_parallel
    (self : XRDCalculator) (structure : Structure) (scaled : bool)
    (two_theta_range : option (R * R)) (p : DiffractionPattern) :
  get_pattern self structure scaled two_theta_range = Ok p ->
  length (pat_y p) = length (pat_x p) /\
  length (pat_hkls p) = length (pat_x p) /\
  length (pat_d_hkls p) = length (pat_x p).
Proof.
  intros Hrun.
  apply get_pattern_rows in Hrun
    as (sym & w & min_r & max_r & contribs & peaks & tts & m
        & _ & _ & _ & _ & _ & _ & Hx & Hh & Hd & Hy).
  rewrite Hx, Hh, Hd, !length_map. split; [|auto].
  destruct scaled; [destruct Hy as (f & _ & Hy)|]; rewrite Hy, length_map; reflexivity.
Qed.

(** Bragg's law on the output: the angle [x] and the d-spacing [d] that a
    returned pattern holds at one index satisfy
    [2 * d * sin(x / 2) = wavelength], and [x] is the angle of a candidate
    point off the origin. *)
Theorem pattern_obeys_bragg_law
    (self : XRDCalculator) (structure : Structure) (scaled : bool)
    (two_theta_range : option (R * R)) (p : DiffractionPattern)
    (w : R) (i : nat) (x d : R) :
  get_pattern self structure scaled two_theta_range = Ok p ->
  wavelength self = Some w ->
  pat_x p !! i = Some x -> pat_d_hkls p !! i = Some d ->
  2 * d * sin (math_radians (x / 2)) = w /\
  exists g, g <> 0 /\ d = 1 / g /\ x = math_degrees (2 * asin (w * g / 2)).
Proof.
  intros Hrun Hw Hx Hd.
  apply get_pattern_rows in Hrun
    as (sym & w' & min_r & max_r & contribs & peaks & tts & m
        & _ & Hw' & _ & _ & Hacc & _ & Hpx & _ & Hpd & _).
  rewrite Hw in Hw'. injection Hw' as <-.
  rewrite Hpx, list_lookup_fmap in Hx. rewrite Hpd, list_lookup_fmap in Hd.
  destruct (kept peaks m !! i) as [[k v]|] eqn:Hi; [|discriminate].
  simpl in Hx, Hd. injection Hx as <-. injection Hd as <-.
  apply list_elem_of_lookup_2, kept_elem in Hi as [Hkv _].
  destruct (accumulate_peak_origin _ _ _ _ _ _ _ Hacc Hkv)
    as (pt & r & _ & Hg & Hr & -> & ->).
  apply reflection_Ok in Hr as (Hdom & _ & _ & -> & _ & _ & -> & _).
  split; [|exists (pt_g pt); auto].
  unfold math_radians, math_degrees.
  replace (2 * asin (w * pt_g pt / 2) * (180 / PI) / 2 * (PI / 180))
    with (asin (w * pt_g pt / 2)) by (field; apply PI_neq0).
  rewrite sin_asin by exact Hdom. field. exact Hg.
Qed.

(** The threshold is taken against the largest accumulated intensity, and
    the brightest peak is emitted.  Let [peaks] be what the loop of the run
    has aggregated and [m] the largest intensity in it.  With a threshold
    that is not negative, every intensity of a pattern returned unscaled is
    positive and exceeds [SCALED_INTENSITY_TOL] percent of [m]; when [m] is
    positive and the threshold is below 100, [m] itself is among the
    intensities of the pattern; and a pattern that is not empty holds [m],
    which is then its own largest intensity. *)
Theorem unscaled_intensities_exceed_threshold
    (self : XRDCalculator) (structure : Structure)
    (two_theta_range : option (R * R)) (p : DiffractionPattern) :
  0 <= SCALED_INTENSITY_TOL ->
  get_pattern self structure false two_theta_range = Ok p ->
  exists sym w min_r max_r contribs peaks two_thetas m,
    symprec self = Some sym /\
    wavelength self = Some w /\
    radius_window w two_theta_range = Ok (min_r, max_r) /\
    flatten_sites self (refined sym structure) = Ok contribs /\
    accumulate w (is_hexagonal (lattice (refined sym structure))) contribs
      (candidate_points (lattice (refined sym structure)) min_r max_r)
    = Ok (peaks, two_thetas) /\
    py_max (map intensity (dict_values peaks)) = Ok m /\
    Forall (fun y => 0 < y /\ SCALED_INTENSITY_TOL < y / m * 100) (pat_y p) /\
    (0 < m -> SCALED_INTENSITY_TOL < 100 -> m ∈ pat_y p) /\
    (pat_y p <> [] -> 0 < m /\ m ∈ pat_y p /\ py_max (pat_y p) = Ok m).
Proof.
  intros Htol Hrun.
  apply get_pattern_rows in Hrun
    as (sym & w & min_r & max_r & contribs & peaks & tts & m
        & Hsym & Hw & Hwin & Hfl & Hacc & Hm & _ & _ & _ & Hy).
  exists sym, w, min_r, max_r, contribs, peaks, tts, m.
  repeat (split; [assumption|]).
  pose proof (accumulate_nonneg _ _ _ _ _ Hacc) as Hall. cbn [fst] in Hall.
  pose proof (py_max_Ok _ _ Hm) as [Hmin Hmax].
  assert (Hle : forall kv, kv ∈ peaks -> intensity kv.2 <= m).
  { intros kv Hkv. apply Hmax. apply list_elem_of_fmap. exists kv.2.
    split; [reflexivity|]. unfold dict_values. apply list_elem_of_fmap. eauto. }
  assert (Hgt : forall kv, kv ∈ kept peaks m ->
                  0 < m /\ SCALED_INTENSITY_TOL < intensity kv.2 / m * 100).
  { intros kv Hkv. destruct (kept_nonempty_max _ _ _ Hall Hm Hkv) as [Hm0 _].
    apply kept_elem in Hkv as [Hin Hab].
    apply above_threshold_spec in Hab as [_ Hab]; [auto | apply Hle; exact Hin]. }
  assert (Hpos : forall kv, kv ∈ kept peaks m -> 0 < intensity kv.2).
  { intros kv Hkv. destruct (Hgt kv Hkv) as [Hm0 Hab].
    destruct (Rlt_le_dec 0 (intensity kv.2)) as [Hp|Hn]; [exact Hp|].
    exfalso.
    assert (intensity kv.2 / m <= 0); [|lra].
    unfold Rdiv. rewrite <- (Rmult_0_l (/ m)).
    apply Rmult_le_compat_r; [apply Rlt_le, Rinv_0_lt_compat; exact Hm0 | exact Hn]. }
  rewrite Hy. split; [|split].
  - apply Forall_forall. intros y Hin.
    apply list_elem_of_fmap in Hin as (kv & -> & Hkv).
    split; [apply Hpos; exact Hkv | apply Hgt; exact Hkv].
  - intros Hm0 H100.
    apply list_elem_of_fmap in Hmin as (v & Hmv & Hv).
    unfold dict_values in Hv. apply list_elem_of_fmap in Hv as (kv & Hkv2 & Hkv).
    apply list_elem_of_fmap. exists kv. split; [congruence|].
    unfold kept. apply list_elem_of_filter.
    split; [|apply sorted_items_elem; exact Hkv].
    apply above_threshold_spec; [apply Hle; exact Hkv|].
    split; [lra|].
    replace (intensity kv.2) with m by congruence.
    replace (m / m * 100) with 100 by (field; lra). exact H100.
  - intros Hne.
    assert (Hex : exists kv0, kv0 ∈ kept peaks m).
    { destruct (kept peaks m) as [|kv0 rest];
        [exfalso; apply Hne; reflexivity | exists kv0; left]. }
    destruct Hex as [kv0 Hkv0].
    destruct (kept_nonempty_max _ _ _ Hall Hm Hkv0) as (Hm0 & kvm & Hkvm & Heq).
    split; [exact Hm0|].
    assert (Hin : m ∈ map (fun kv => intensity kv.2) (kept peaks m)).
    { apply list_elem_of_fmap. exists kvm. auto. }
    split; [exact Hin|].
    apply py_max_unique; [exact Hin|].
    intros y Hy'. apply list_elem_of_fmap in Hy' as (kv & -> & Hkv).
    apply Hle. apply kept_elem in Hkv as [Hkv _]. exact Hkv.
Qed.

(** The output respects the requested window: for a range
    [(t_lo, t_hi)] within [[0, 180]] and an enumerator that returns points
    of magnitude between 0 and the radius it is given, every angle of a
    returned pattern lies in [[t_lo, t_hi]].  This is a statement of exact
    arithmetic, as the whole model is: in binary64 the rounding of
    [math.asin] and [math.degrees] can move the angle of a point whose
    magnitude is exactly [min_r] or [max_r] across the end of the range by
    a unit in the last place. *)
Theorem pattern_within_two_theta_range
    (self : XRDCalculator) (structure : Structure) (scaled : bool)
    (t_lo t_hi sym w : R) (p : DiffractionPattern) :
  symprec self = Some sym ->
  wavelength self = Some w ->
  0 < w ->
  0 <= t_lo <= 180 -> 0 <= t_hi <= 180 ->
  (forall r pt, pt ∈ get_points_in_sphere (lattice (refined sym structure)) r ->
                0 <= pt_g pt <= r) ->
  get_pattern self structure scaled (Some (t_lo, t_hi)) = Ok p ->
  Forall (fun x => t_lo <= x <= t_hi) (pat_x p).
Proof.
  intros Hsym Hw Hw0 Hlo Hhi Hsphere Hrun.
  apply get_pattern_rows in Hrun
    as (sym' & w' & min_r & max_r & contribs & peaks & tts & m
        & Hsym' & Hw' & Hwin & _ & Hacc & _ & Hpx & _).
  rewrite Hsym in Hsym'. injection Hsym' as <-.
  rewrite Hw in Hw'. injection Hw' as <-.
  cbn [radius_window] in Hwin. bind_inv Hwin. bind_inv Hwin.
  injection Hwin as <- <-. apply py_div_Ok in Ha as [_ ->].
  apply py_div_Ok in Ha0 as [_ ->].
  pose proof PI_RGT_0 as Hpi.
  assert (Hrad : forall t, 0 <= t <= 180 -> 0 <= math_radians (t / 2) <= PI / 2).
  { intros t [Ht0 Ht1]. unfold math_radians. split.
    - apply Rmult_le_pos; [lra|]. apply Rlt_le, Rdiv_lt_0_compat; lra.
    - replace (PI / 2) with (90 * (PI / 180)) by field.
      apply Rmult_le_compat_r; [apply Rlt_le, Rdiv_lt_0_compat; lra | lra]. }
  assert (Hback : forall t, math_degrees (2 * math_radians (t / 2)) = t).
  { intros t. unfold math_degrees, math_radians. field. lra. }
  assert (Hdeg : forall a b, a <= b -> math_degrees (2 * a) <= math_degrees (2 * b)).
  { intros a b Hab. unfold math_degrees.
    apply Rmult_le_compat_r; [apply Rlt_le, Rdiv_lt_0_compat; lra | lra]. }
  rewrite Hpx. apply Forall_forall. intros x Hx.
  apply list_elem_of_fmap in Hx as ([k v] & -> & Hkv). cbn [fst].
  apply kept_elem in Hkv as [Hkv _].
  destruct (accumulate_peak_origin _ _ _ _ _ _ _ Hacc Hkv)
    as (pt & r & Hpt & Hg & Hr & -> & _).
  apply reflection_Ok in Hr as (Hdom & _ & _ & -> & _).
  set (v0 := w * pt_g pt / 2) in *.
  destruct (asin_bound v0) as [Hb0 Hb1].
  assert (Hsin : sin (asin v0) = v0) by (apply sin_asin; exact Hdom).
  assert (Hcand : pt ∈ get_points_in_sphere (lattice (refined sym structure))
                         (2 * sin (math_radians (t_hi / 2)) / w) /\
                  (2 * sin (math_radians (t_lo / 2)) / w = 0 \/
                   pt_g pt >= 2 * sin (math_radians (t_lo / 2)) / w)).
  { unfold candidate_points in Hpt.
    destruct (decide (2 * sin (math_radians (t_lo / 2)) / w = 0)) as [Hz|Hnz].
    - auto.
    - apply list_elem_of_filter in Hpt as [Hge Hpt]. auto. }
  destruct Hcand as [Hin Hmin]. destruct (Hsphere _ _ Hin) as [Hg0 Hgmax].
  assert (Hscale : forall S, pt_g pt <= 2 * S / w -> v0 <= S).
  { intros S HS. unfold v0.
    apply (Rmult_le_compat_l w) in HS; [|lra].
    replace (w * (2 * S / w)) with (2 * S) in HS by (field; lra). lra. }
  assert (Hscale' : forall S, 2 * S / w <= pt_g pt -> S <= v0).
  { intros S HS. unfold v0.
    apply (Rmult_le_compat_l w) in HS; [|lra].
    replace (w * (2 * S / w)) with (2 * S) in HS by (field; lra). lra. }
  split.
  - rewrite <- (Hback t_lo) at 1. apply Hdeg.
    destruct (Hrad t_lo Hlo) as [Hr0 Hr1].
    apply sin_incr_0; try lra. rewrite Hsin. apply Hscale'.
    destruct Hmin as [Hz|Hge]; [rewrite Hz; exact Hg0 | lra].
  - rewrite <- (Hback t_hi) at 1. apply Hdeg.
    destruct (Hrad t_hi Hhi) as [Hr0 Hr1].
    apply sin_incr_0; try lra. rewrite Hsin. apply Hscale. exact Hgmax.
Qed.

End PatternExtras.

(** * Further properties of the aggregation and of the enumeration *)

Section AggregationExtras.
Import Xrd.
Context `{Environment}.

(** [get_pattern] returns a pattern on a constructed calculator with a
    wavelength other than 0 when every species of the structure has
    scattering coefficients, some site has a species, every candidate point
    off the origin is strictly inside the limiting sphere and there is such a
    point; with [scaled] set, also when the tolerance is positive, the
    threshold is below 100 and some candidate point has a structure factor
    other than zero. *)
Theorem get_pattern_returns (self : XRDCalculator) (structure : Structure)
    (scaled : bool) (two_theta_range : option (R * R)) (sym w min_r max_r : R)
    (site : Site) (pt : RecipPoint) :
  symprec self = Some sym ->
  wavelength self = Some w ->
  is_Some (debye_waller_factors self) ->
  w <> 0 ->
  (forall site sp occu,
      site ∈ sites (refined sym structure) -> (sp, occu) ∈ species site ->
      is_Some (ATOMIC_SCATTERING_PARAMS !! sp_symbol sp)) ->
  site ∈ sites (refined sym structure) -> species site <> [] ->
  radius_window w two_theta_range = Ok (min_r, max_r) ->
  (forall q, q ∈ candidate_points (lattice (refined sym structure)) min_r max_r ->
     pt_g q <> 0 -> -1 < w * pt_g q / 2 < 1) ->
  pt ∈ candidate_points (lattice (refined sym structure)) min_r max_r ->
  pt_g pt <> 0 ->
  (scaled = true ->
     0 < TWO_THETA_TOL /\ SCALED_INTENSITY_TOL < 100 /\
     forall contribs, flatten_sites self (refined sym structure) = Ok contribs ->
       bright w (is_hexagonal (lattice (refined sym structure))) contribs pt) ->
  exists p, get_pattern self structure scaled two_theta_range = Ok p.
Proof. apply get_pattern_total. Qed.

(** With a positive tolerance the aggregation of lines 199-261 loses
    nothing: the intensities of the recorded peaks add up to the weights
    [i_hkl * lorentz_factor] of the reflections of the points off the origin,
    every such reflection left its Miller indices in exactly one peak, and
    the list of recorded angles is the list of keys of [peaks], in order of
    insertion. *)
Theorem aggregation_conserves_intensity (wavelength : R) (is_hex : bool)
    (contribs : list SiteContribution) (recip_pts : list RecipPoint)
    (peaks : list (R * Peak)) (two_thetas : list R) :
  0 < TWO_THETA_TOL ->
  accumulate wavelength is_hex contribs recip_pts = Ok (peaks, two_thetas) ->
  exists refls,
    reflections_of wavelength is_hex contribs (sorted key_leb recip_pts) = Ok refls /\
    total_intensity peaks = total_weight refls /\
    recorded_indices peaks = length refls /\
    dict_keys peaks = two_thetas.
Proof.
  intros Htol Hacc. unfold accumulate in Hacc.
  apply for_each_process_point in Hacc as (refls & Hrefls & Hmerge).
  exists refls. split; [exact Hrefls|].
  pose proof (for_each_invariant merge
                (fun done st =>
                   peaks_inv st /\ total_intensity st.1 = total_weight done /\
                   recorded_indices st.1 = length done /\ dict_keys st.1 = st.2)
                refls) as Hinv.
  destruct Hinv with (done := @nil Reflection) (st := (@nil (R * Peak), @nil R))
                     (st' := (peaks, two_thetas)) as (_ & Hs & Hc & Hk);
    [| |exact Hmerge|auto].
  - intros done r st0 st1 (Hpi & Hs & Hc & Hk) Hstep.
    split; [eapply merge_inv; eauto|]. eapply merge_conserves; eauto.
  - split; [apply peaks_inv_init|]. repeat split; reflexivity.
Qed.

(** The pattern does not depend on the order in which the lattice lists
    the points of a sphere: two structures with the same sites and the same
    lattice type, whose enumerators return the same points in a different
    order, give the same result, be it a pattern or an exception. *)
Theorem pattern_independent_of_enumeration_order
    (self : XRDCalculator) (s1 s2 : Structure) (scaled : bool)
    (two_theta_range : option (R * R)) :
  (forall sym, symprec self = Some sym ->
     sites (refined sym s1) = sites (refined sym s2) /\
     is_hexagonal (lattice (refined sym s1)) = is_hexagonal (lattice (refined sym s2)) /\
     forall r, Permutation (get_points_in_sphere (lattice (refined sym s1)) r)
                           (get_points_in_sphere (lattice (refined sym s2)) r)) ->
  get_pattern self s1 scaled two_theta_range =
  get_pattern self s2 scaled two_theta_range.
Proof.
  intros Hsame. unfold get_pattern.
  destruct (symprec self) as [sym|] eqn:Hsym; [|reflexivity].
  cbn [getattr bind].
  destruct (Hsame sym eq_refl) as (Hsites & Hhex & Hperm).
  destruct (getattr "wavelength" (wavelength self)) as [w|e]; [|reflexivity].
  cbn [bind].
  destruct (radius_window w two_theta_range) as [[min_r max_r]|e]; [|reflexivity].
  cbn [bind].
  assert (Hfl : flatten_sites self (refined sym s1) = flatten_sites self (refined sym s2)).
  { unfold flatten_sites. rewrite Hsites. reflexivity. }
  rewrite Hfl.
  destruct (flatten_sites self (refined sym s2)) as [contribs|e]; [|reflexivity].
  cbn [bind]. rewrite Hhex.
  assert (Hcand : Permutation
            (candidate_points (lattice (refined sym s1)) min_r max_r)
            (candidate_points (lattice (refined sym s2)) min_r max_r)).
  { unfold candidate_points. destruct (decide (min_r = 0)); [apply Hperm|].
    apply filter_Permutation, Hperm. }
  unfold accumulate. rewrite (sorted_points_Permutation _ _ Hcand). reflexivity.
Qed.

End AggregationExtras.

(** * The calculator object and the geometry of its patterns *)

Section CalculatorExtras.
Import Xrd.
Context `{Environment}.

(** A constructor call with a string that returns has found the string in
    [WAVELENGTHS]: the object has all four attributes, [radiation] is the
    string, the wavelength is the positive table value, and the computation
    of [min_r, max_r] in [get_pattern] returns for every range. *)
Theorem named_calculator_has_positive_wavelength
    (name : string) (sp : R) (dw : option (gmap string R)) (self : XRDCalculator)
    (two_theta_range : option (R * R)) :
  __init__ (PyStr name) sp dw blank = (self, Ok tt) ->
  exists w,
    WAVELENGTHS !! name = Some w /\ 0 < w /\
    self = mkXRDCalculator (Some name) (Some w) (Some sp) (Some (default ∅ dw)) /\
    exists min_r max_r, radius_window w two_theta_range = Ok (min_r, max_r).
Proof.
  unfold __init__, sbind, set_radiation.
  destruct (WAVELENGTHS !! name) as [w|] eqn:Hw; cbn; [|discriminate].
  intros Heq. injection Heq as <-. exists w.
  assert (Hpos : 0 < w).
  { unfold WAVELENGTHS in Hw. apply elem_of_list_to_map_2 in Hw.
    repeat (apply elem_of_cons in Hw as [Hw|Hw]; [injection Hw as _ ->; lra|]).
    apply elem_of_nil in Hw. contradiction. }
  split; [reflexivity|]. split; [exact Hpos|]. split; [reflexivity|].
  destruct two_theta_range as [[t_lo t_hi]|]; cbn [radius_window];
    unfold bragg_radius, py_div; rewrite !decide_False by lra; cbn [bind]; eauto.
Qed.

(** The constructor does not validate a number: 0 is accepted as a
    wavelength, and on the object so built every call of [get_pattern]
    raises [ZeroDivisionError], whatever the structure and the range. *)
Theorem zero_wavelength_accepted_then_fails
    (sp : R) (dw : option (gmap string R)) (structure : Structure)
    (scaled : bool) (two_theta_range : option (R * R)) :
  exists self,
    __init__ (PyInt 0) sp dw blank = (self, Ok tt) /\
    get_pattern self structure scaled two_theta_range = Raise ZeroDivisionError.
Proof.
  eexists. split; [reflexivity|].
  unfold get_pattern. cbn [symprec wavelength getattr bind].
  destruct two_theta_range as [[t_lo t_hi]|]; cbn [radius_window];
    unfold bragg_radius, py_div; rewrite decide_True by reflexivity; reflexivity.
Qed.

(** The Debye-Waller factors are read only through
    [debye_waller_factors.get(symbol, 0)]: two calculators that agree on the
    wavelength and on [symprec], and whose factor tables agree once an
    absent symbol counts as 0, give the same result on every input. *)
Theorem absent_debye_waller_factor_is_zero
    (self self' : XRDCalculator) (m m' : gmap string R) (structure : Structure)
    (scaled : bool) (two_theta_range : option (R * R)) :
  wavelength self' = wavelength self ->
  symprec self' = symprec self ->
  debye_waller_factors self = Some m ->
  debye_waller_factors self' = Some m' ->
  (forall symbol, default 0 (m !! symbol) = default 0 (m' !! symbol)) ->
  get_pattern self structure scaled two_theta_range =
  get_pattern self' structure scaled two_theta_range.
Proof.
  intros Hw Hsym Hm Hm' Hsame.
  assert (Hfl : forall s, flatten_sites self s = flatten_sites self' s).
  { intros s. unfold flatten_sites. apply for_each_ext. intros acc site _.
    apply for_each_ext. intros acc' [sp occu] _. unfold flatten_species.
    rewrite Hm, Hm'. destruct (ATOMIC_SCATTERING_PARAMS !! sp_symbol sp); [|reflexivity].
    cbn [getattr bind]. rewrite Hsame. reflexivity. }
  unfold get_pattern. rewrite Hw, Hsym.
  destruct (getattr "symprec" (symprec self)) as [sym|e]; [|reflexivity].
  cbn [bind]. rewrite Hfl. reflexivity.
Qed.

(** When the wavelength is positive and the enumerator returns magnitudes
    that are not negative, every angle of a returned pattern lies in
    [(0, 180]] and every d-spacing is at least half the wavelength, for
    every range. *)
Theorem pattern_angles_and_spacings_bounded
    (self : XRDCalculator) (structure : Structure) (scaled : bool)
    (two_theta_range : option (R * R)) (sym w : R) (p : DiffractionPattern) :
  symprec self = Some sym ->
  wavelength self = Some w ->
  0 < w ->
  (forall r pt, pt ∈ get_points_in_sphere (lattice (refined sym structure)) r ->
                0 <= pt_g pt) ->
  get_pattern self structure scaled two_theta_range = Ok p ->
  Forall (fun x => 0 < x <= 180) (pat_x p) /\
  Forall (fun d => w / 2 <= d) (pat_d_hkls p).
Proof.
  intros Hsym Hw Hw0 Hsphere Hrun.
  apply get_pattern_rows in Hrun
    as (sym' & w' & min_r & max_r & contribs & peaks & tts & m
        & Hsym' & Hw' & _ & _ & Hacc & _ & Hpx & _ & Hpd & _).
  rewrite Hsym in Hsym'. injection Hsym' as <-.
  rewrite Hw in Hw'. injection Hw' as <-.
  pose proof PI_RGT_0 as Hpi.
  assert (Hrow : forall kv, kv ∈ kept peaks m ->
            0 < kv.1 <= 180 /\ w / 2 <= d_hkl kv.2).
  { intros [k v] Hkv. cbn [fst snd]. apply kept_elem in Hkv as [Hkv _].
    destruct (accumulate_peak_origin _ _ _ _ _ _ _ Hacc Hkv)
      as (pt & r & Hpt & Hg & Hr & -> & ->).
    apply reflection_Ok in Hr as (Hdom & _ & _ & -> & _ & _ & -> & _).
    assert (Hg0 : 0 < pt_g pt).
    { assert (0 <= pt_g pt); [|lra].
      unfold candidate_points in Hpt. destruct (decide (min_r = 0)).
      - eapply Hsphere; eauto.
      - apply list_elem_of_filter in Hpt as [_ Hpt]. eapply Hsphere; eauto. }
    set (v0 := w * pt_g pt / 2) in *.
    assert (Hv0 : 0 < v0) by (unfold v0; nra).
    destruct (asin_bound v0) as [Hb0 Hb1].
    assert (Hapos : 0 < asin v0) by (apply asin_pos; lra).
    unfold math_degrees. split.
    - split.
      + apply Rmult_lt_0_compat; [lra | apply Rdiv_lt_0_compat; lra].
      + replace 180 with (2 * (PI / 2) * (180 / PI)) at 2 by (field; lra).
        apply Rmult_le_compat_r; [apply Rlt_le, Rdiv_lt_0_compat; lra | lra].
    - assert (Hle : w * pt_g pt <= 2) by (unfold v0 in Hdom; lra).
      apply (Rmult_le_reg_r (pt_g pt)); [exact Hg0|].
      replace (1 / pt_g pt * pt_g pt) with 1 by (field; lra). lra. }
  rewrite Hpx, Hpd. split; apply Forall_forall; intros y Hy;
    apply list_elem_of_fmap in Hy as (kv & -> & Hkv); apply Hrow; exact Hkv.
Qed.

(** Under the same conditions the d-spacings of a returned pattern are
    strictly descending: the peaks are listed by ascending angle, and by
    Bragg's law a larger angle is a smaller spacing. *)
Theorem pattern_spacings_descending
    (self : XRDCalculator) (structure : Structure) (scaled : bool)
    (two_theta_range : option (R * R)) (sym w : R) (p : DiffractionPattern) :
  symprec self = Some sym ->
  wavelength self = Some w ->
  0 < w ->
  (forall r pt, pt ∈ get_points_in_sphere (lattice (refined sym structure)) r ->
                0 <= pt_g pt) ->
  get_pattern self structure scaled two_theta_range = Ok p ->
  StronglySorted (fun d d' => d' < d) (pat_d_hkls p).
Proof.
  intros Hsym Hw Hw0 Hsphere Hrun.
  apply get_pattern_rows in Hrun
    as (sym' & w' & min_r & max_r & contribs & peaks & tts & m
        & Hsym' & Hw' & _ & _ & Hacc & _ & _ & _ & Hpd & _).
  rewrite Hsym in Hsym'. injection Hsym' as <-.
  rewrite Hw in Hw'. injection Hw' as <-.
  pose proof (accumulate_inv _ _ _ _ _ Hacc) as (Hnd & _).
  pose proof PI_RGT_0 as Hpi.
  assert (Hrow : forall kv, kv ∈ kept peaks m ->
            exists g, 0 < g /\ -1 <= w * g / 2 <= 1 /\
                      kv.1 = math_degrees (2 * asin (w * g / 2)) /\
                      d_hkl kv.2 = 1 / g).
  { intros [k v] Hkv. cbn [fst snd]. apply kept_elem in Hkv as [Hkv _].
    destruct (accumulate_peak_origin _ _ _ _ _ _ _ Hacc Hkv)
      as (pt & r & Hpt & Hg & Hr & -> & ->).
    apply reflection_Ok in Hr as (Hdom & _ & _ & -> & _ & _ & -> & _).
    exists (pt_g pt). split; [|auto].
    assert (0 <= pt_g pt); [|lra].
    unfold candidate_points in Hpt. destruct (decide (min_r = 0)).
    - eapply Hsphere; eauto.
    - apply list_elem_of_filter in Hpt as [_ Hpt]. eapply Hsphere; eauto. }
  rewrite Hpd.
  apply (StronglySorted_map_antitone fst (fun kv => d_hkl kv.2));
    [|apply kept_keys_ascending; exact Hnd].
  intros a b Ha Hb Hlt.
  destruct (Hrow a Ha) as (g1 & Hg1 & Hd1 & Hx1 & ->).
  destruct (Hrow b Hb) as (g2 & Hg2 & Hd2 & Hx2 & ->).
  rewrite Hx1, Hx2 in Hlt. unfold math_degrees in Hlt.
  assert (Hasin : asin (w * g1 / 2) < asin (w * g2 / 2)).
  { assert (Hk : 0 < 180 / PI) by (apply Rdiv_lt_0_compat; lra).
    apply (Rmult_lt_reg_r (180 / PI)) in Hlt; [lra | exact Hk]. }
  destruct (asin_bound (w * g1 / 2)) as [Ha0 Ha1].
  destruct (asin_bound (w * g2 / 2)) as [Hb0 Hb1].
  assert (Hsin : sin (asin (w * g1 / 2)) < sin (asin (w * g2 / 2)))
    by (apply sin_increasing_1; lra).
  rewrite !sin_asin in Hsin by assumption.
  assert (Hg : g1 < g2) by nra.
  unfold Rdiv. rewrite !Rmult_1_l. apply Rinv_lt_contravar; [nra | exact Hg].
Qed.

(** No range is the full range: [two_theta_range=None] gives the result of
    [two_theta_range=(0, 180)], be it a pattern or an exception. *)
Theorem no_range_is_full_range
    (self : XRDCalculator) (structure : Structure) (scaled : bool) :
  get_pattern self structure scaled None =
  get_pattern self structure scaled (Some (0, 180)).
Proof. apply get_pattern_full_range. Qed.

(** The flattened arrays hold one row for every species of every site, site
    by site in the order of the structure: the row of a species has its
    atomic number, the coefficients of its symbol, its Debye-Waller factor
    (0 when the table has none), the coordinates of its site and its
    occupancy. *)
Theorem flatten_sites_rows
    (self : XRDCalculator) (structure : Structure) (m : gmap string R)
    (contribs : list SiteContribution) :
  debye_waller_factors self = Some m ->
  flatten_sites self structure = Ok contribs ->
  Forall2 (fun '(site, sp, occu) sc =>
             sc_Z sc = sp_Z sp /\
             ATOMIC_SCATTERING_PARAMS !! sp_symbol sp = Some (sc_coeffs sc) /\
             sc_dw_factor sc = default 0 (m !! sp_symbol sp) /\
             sc_frac_coords sc = frac_coords site /\
             sc_occu sc = occu)
    (site_species structure) contribs.
Proof.
  intros Hm. unfold flatten_sites, site_species.
  set (row := fun '(site, sp, occu) sc =>
             sc_Z sc = sp_Z sp /\
             ATOMIC_SCATTERING_PARAMS !! sp_symbol sp = Some (sc_coeffs sc) /\
             sc_dw_factor sc = default 0 (m !! sp_symbol sp) /\
             sc_frac_coords sc = frac_coords site /\
             sc_occu sc = occu).
  assert (Hinner : forall site sps rows acc acc',
            Forall2 row rows acc ->
            for_each (flatten_species self site) sps acc = Ok acc' ->
            Forall2 row (rows ++ map (fun so => (site, so.1, so.2)) sps) acc').
  { intros site. induction sps as [|[sp occu] sps IH]; intros rows acc acc' Hrows Hrun;
      simpl in Hrun.
    - injection Hrun as <-. simpl. rewrite app_nil_r. exact Hrows.
    - bind_inv Hrun. apply flatten_species_Ok in Ha as (c & dw & Hc & Hdw & ->).
      rewrite Hm in Hdw. injection Hdw as <-.
      cbn [map]. rewrite cons_middle, app_assoc. eapply IH; [|exact Hrun].
      apply Forall2_app; [exact Hrows|]. constructor; [|constructor].
      cbn. auto. }
  assert (Houter : forall l rows acc acc',
            Forall2 row rows acc ->
            for_each (fun acc site => for_each (flatten_species self site)
                                        (species site) acc) l acc = Ok acc' ->
            Forall2 row
              (rows ++ flat_map (fun site => map (fun so => (site, so.1, so.2))
                                               (species site)) l) acc').
  { induction l as [|site l IH]; intros rows acc acc' Hrows Hrun; simpl in Hrun.
    - injection Hrun as <-. simpl. rewrite app_nil_r. exact Hrows.
    - bind_inv Hrun. cbn [flat_map]. rewrite app_assoc.
      eapply IH; [|exact Hrun]. eapply Hinner; eauto. }
  intros Hrun. apply (Houter _ [] [] _ (Forall2_nil_2 _ _ row) Hrun).
Qed.

End CalculatorExtras.

(** * Further properties of [Entry] *)

Section EntryExtras.
Import Entries.
Context {Composition : Type} `{CompositionClass Composition}.
Local Abbreviation heap := (gmap positive (@object Composition)).
Local Abbreviation Entry := (@Entry Composition).

(** A mode other than ["atom"] and ["formula_unit"] is refused before
    anything is read or allocated: [normalize] raises the [ValueError] of
    [_normalization_factor] and the heap is as it was, whatever [self] is. *)
Theorem normalize_rejects_other_modes (self : positive) (mode : string) (h : heap) :
  mode <> "atom"%string -> mode <> "formula_unit"%string ->
  normalize self mode h =
    (h, Raise (ValueError (mode ++ " is not an allowed option for normalization"))).
Proof.
  intros Hatom Hfu. unfold normalize, sbind, _normalization_factor.
  rewrite !decide_False by assumption. reflexivity.
Qed.

(** A normalization factor of 0 makes [normalize] raise with nothing
    allocated: the exception is the one of the division of the composition
    if that raises, and the [ZeroDivisionError] of the division of the
    energy otherwise. *)
Theorem normalize_zero_factor_raises
    (self : positive) (mode : string) (h : heap) (e : Entry) :
  h !! self = Some (EntryObj e) ->
  _normalization_factor self mode h = (h, Ok 0) ->
  normalize self mode h =
    (h, Raise match truediv (_composition e) 0 with
              | Ok _ => ZeroDivisionError
              | Raise err => err
              end).
Proof.
  intros Hself Hfactor. unfold normalize, sbind. rewrite Hfactor.
  unfold read_entry at 1. rewrite Hself. unfold slift at 1.
  destruct (truediv (_composition e) 0) as [c|err]; [|reflexivity].
  unfold slift at 1, py_div. rewrite decide_True by reflexivity. reflexivity.
Qed.

(** [normalize] returns when the factor of the mode is not 0, the division
    of the composition returns and the constructor accepts the dictionary of
    the quotient: the new entry holds the composition so rebuilt and the
    energy divided by the factor. *)
Theorem normalize_returns
    (self : positive) (mode : string) (h : heap) (e : Entry)
    (factor : R) (c1 c2 : Composition) :
  h !! self = Some (EntryObj e) ->
  _normalization_factor self mode h = (h, Ok factor) ->
  factor <> 0 ->
  truediv (_composition e) factor = Ok c1 ->
  Composition_new (VDict (Composition_as_dict c1)) = Ok c2 ->
  exists h' new, normalize self mode h = (h', Ok new) /\
    h' !! new = Some (EntryObj (mkEntry c2 (_energy e / factor))).
Proof. apply entry_normalize_total. Qed.

(** [as_dict] holds what the constructor needs: when a composition is
    rebuilt from its own [as_dict], [from_dict(self.as_dict())] returns a new
    entry with the composition and the energy of [self], and [self] is as it
    was. *)
Theorem as_dict_from_dict_copies
    (self : positive) (h : heap) (e : Entry) :
  (forall c : Composition, Composition_new (VDict (Composition_as_dict c)) = Ok c) ->
  h !! self = Some (EntryObj e) ->
  exists h' new,
    (run d <- as_dict self; from_dict d) h = (h', Ok new) /\
    h !! new = None /\
    h' !! new = Some (EntryObj e) /\
    h' !! self = Some (EntryObj e).
Proof.
  intros Hround Hself.
  unfold as_dict, sbind, read_entry. rewrite Hself.
  unfold alloc at 1. unfold from_dict, sbind, read_dict.
  rewrite lookup_insert_eq.
  rewrite lookup_insert_ne by discriminate.
  rewrite lookup_insert_ne by discriminate.
  rewrite lookup_insert_ne by discriminate.
  rewrite lookup_insert_eq.
  rewrite lookup_insert_ne by discriminate.
  rewrite lookup_insert_ne by discriminate.
  rewrite lookup_insert_eq.
  unfold __init__, sbind, slift. rewrite Hround. unfold alloc.
  set (d := fresh (dom h)).
  set (h1 := <[d := _]> h).
  assert (Hd : h !! d = None) by (apply not_elem_of_dom, is_fresh).
  assert (Hnew : h1 !! fresh (dom h1) = None) by (apply not_elem_of_dom, is_fresh).
  eexists _, _. split; [reflexivity|].
  assert (Hne : fresh (dom h1) <> d).
  { intros Heq. rewrite Heq in Hnew. unfold h1 in Hnew.
    rewrite lookup_insert_eq in Hnew. discriminate. }
  split; [|split].
  - unfold h1 in Hnew. rewrite lookup_insert_ne in Hnew by (symmetry; exact Hne).
    exact Hnew.
  - rewrite lookup_insert_eq. destruct e; reflexivity.
  - assert (Hds : d <> self) by (intros Heq; rewrite Heq in Hd; congruence).
    assert (Hns : fresh (dom h1) <> self).
    { intros Heq. rewrite Heq in Hnew. unfold h1 in Hnew.
      rewrite lookup_insert_ne in Hnew by exact Hds. congruence. }
    rewrite lookup_insert_ne by exact Hns.
    unfold h1. rewrite lookup_insert_ne by exact Hds. exact Hself.
Qed.

End EntryExtras.

(** * More of the worked example *)

Section ExampleMore.
Import Xrd.

Lemma example_refined (sym : R) (s : Structure) :
  refined (H := example_env) sym s = s.
Proof. unfold refined. destruct (decide (sym = 0)); reflexivity. Qed.

Lemma example_sphere (is_hex : bool) (r : R) (pt : RecipPoint) :
  pt ∈ get_points_in_sphere
         (lattice (refined (H := example_env) 0 (example_structure is_hex))) r ->
  0 <= pt_g pt <= r.
Proof.
  rewrite example_refined.
  cbn [example_structure lattice example_lattice get_points_in_sphere].
  intros Hpt. apply list_elem_of_filter in Hpt as [Hle Hpt]. split; [|exact Hle].
  unfold example_points in Hpt.
  repeat (apply elem_of_cons in Hpt as [->|Hpt]; [cbn [pt_g]; lra|]).
  apply elem_of_nil in Hpt. contradiction.
Qed.

(** A pattern returned scaled has a first peak. *)
Lemma scaled_pattern_first_peak `{Environment} (self : XRDCalculator)
    (structure : Structure) (two_theta_range : option (R * R))
    (p : DiffractionPattern) :
  get_pattern self structure true two_theta_range = Ok p ->
  exists x d, pat_x p !! 0%nat = Some x /\ pat_d_hkls p !! 0%nat = Some d.
Proof.
  intros Hrun.
  apply get_pattern_rows in Hrun
    as (sym & w & min_r & max_r & contribs & peaks & tts & m
        & _ & _ & _ & _ & _ & _ & Hx & _ & Hd & f & Hf & _).
  rewrite Hx, Hd.
  destruct (kept peaks m) as [|kv l]; [cbn in Hf; discriminate|].
  cbn. eauto.
Qed.

Lemma example_factor_atom :
  Entries._normalization_factor (H := amounts_class) 1 "atom" example_heap =
  (example_heap, Ok 2).
Proof.
  rewrite (normalization_factor_total _ _ _ example_entry)
    by apply lookup_singleton_eq.
  rewrite decide_True by reflexivity.
  cbn [Entries.num_atoms amounts_class Entries._composition example_entry].
  unfold amounts_num_atoms. rewrite map_fold_singleton.
  rewrite Rabs_pos_eq by lra. do 2 f_equal. lra.
Qed.

(** ** A proper window: the range [(24, 40)] *)

Lemma sin_cubic_lower (x : R) : 0 <= x -> x <= PI -> x - x * x * x / 6 <= sin x.
Proof.
  intros H0 H1. destruct (sin_bound x 0 H0 H1) as [Hlo _].
  unfold sin_approx, sin_term in Hlo. simpl in Hlo. lra.
Qed.

Lemma sin_window_bounds (t : R) :
  0 < t -> t <= 60 ->
  t / 120 - t / 90 * (t / 90) * (t / 90) / 6 < sin (math_radians (t / 2)) < t / 90.
Proof.
  intros Ht0 Ht1. unfold math_radians.
  pose proof PI_4 as Hpi4. pose proof PI2_3_2 as Hpi3.
  set (x := t / 2 * (PI / 180)).
  assert (Hx0 : t / 120 < x) by (unfold x; nra).
  assert (Hx1 : x <= t / 90) by (unfold x; nra).
  assert (Hxpos : 0 < x) by lra.
  split.
  - pose proof (sin_cubic_lower x ltac:(lra) ltac:(lra)) as Hlo.
    assert (Hxx : x * x <= t / 90 * (t / 90)) by nra.
    assert (Hxxx : x * x * x <= t / 90 * (t / 90) * (t / 90)) by nra.
    lra.
  - pose proof (sin_lt_x x Hxpos). lra.
Qed.

Lemma example_proper_window :
  exists min_r max_r,
    radius_window 1.54184 (Some (24, 40)) = Ok (min_r, max_r) /\
    1 / 5 < min_r /\ min_r < 2 / 5 /\ 2 / 5 < max_r /\ max_r < 3 / 5.
Proof.
  destruct (sin_window_bounds 24 ltac:(lra) ltac:(lra)) as [Hlo0 Hlo1].
  destruct (sin_window_bounds 40 ltac:(lra) ltac:(lra)) as [Hhi0 Hhi1].
  cbn [radius_window]. unfold bragg_radius, py_div.
  rewrite !decide_False by lra. cbn [bind].
  eexists _, _. split; [reflexivity|].
  set (s_lo := sin (math_radians (24 / 2))) in *.
  set (s_hi := sin (math_radians (40 / 2))) in *.
  lra.
Qed.

(** Within that window only the point (2,0,0) is a candidate: the points
    of magnitude 1/5 are below it, those of magnitude 3/5 above. *)
Lemma example_proper_candidates (is_hex : bool) (min_r max_r : R) :
  1 / 5 < min_r -> min_r < 2 / 5 -> 2 / 5 < max_r -> max_r < 3 / 5 ->
  candidate_points (example_lattice is_hex) min_r max_r =
  [mkRecipPoint (2, 0, 0) (2 / 5)].
Proof.
  intros H1 H2 H3 H4. unfold candidate_points. rewrite decide_False by lra.
  unfold example_lattice, example_points. cbn [get_points_in_sphere].
  repeat (rewrite filter_cons;
          first [ rewrite decide_True by (cbn [pt_g]; lra)
                | rewrite decide_False by (cbn [pt_g]; lra) ]);
  rewrite ?filter_nil. reflexivity.
Qed.

(** The (200) reflection of the example is bright. *)
Lemma example_bright_200 (is_hex : bool) (contribs : list SiteContribution) :
  flatten_sites (H := example_env) example_calculator (example_structure is_hex) =
    Ok contribs ->
  bright 1.54184 is_hex contribs (mkRecipPoint (2, 0, 0) (2 / 5)).
Proof.
  rewrite example_contribs. intros Heq. injection Heq as <-.
  split; [cbn [pt_g]; lra|]. intros r Hr.
  unfold reflection in Hr. cbn [pt_hkl pt_g] in Hr.
  bind_inv Hr. bind_inv Hr. cbn [g_dot_r] in Ha0. injection Ha0 as <-.
  bind_inv Hr. injection Hr as <-. cbn [r_i_hkl].
  rewrite (py_round_IZR 2), (py_round_IZR 0).
  replace (2 * PI * (0 * 2 + 0 * 0 + 0 * 0)) with 0 by ring.
  rewrite cos_0, sin_0.
  set (s2 := 2 / 5 / 2 * (2 / 5 / 2 * 1)).
  assert (Hs2 : s2 = 1 / 25) by (unfold s2; field).
  assert (Hfs : 10 < fs s2
                (mkSiteContribution 26
                   [(2.544, 64.424); (2.343, 14.88); (1.759, 2.854); (0.506, 0.35)]
                   0 (0, 0, 0) 1)).
  { unfold fs. cbn [sc_Z sc_coeffs map fold_right fst snd]. rewrite Hs2.
    pose proof (exp_neg_le_1 (64.424 * (1 / 25)) ltac:(lra)) as H1.
    pose proof (exp_neg_le_1 (14.88 * (1 / 25)) ltac:(lra)) as H2.
    pose proof (exp_neg_le_1 (2.854 * (1 / 25)) ltac:(lra)) as H3.
    pose proof (exp_neg_le_1 (0.35 * (1 / 25)) ltac:(lra)) as H4.
    rewrite <- !Ropp_mult_distr_l. lra. }
  pose proof (exp_pos (- 0 * s2)) as He.
  set (f := fs s2 _) in *. set (e := exp (- 0 * s2)) in *.
  assert (0 < e * (f * 1 * 1)) by (apply Rmult_lt_0_compat; lra).
  nra.
Qed.

(** The example returns a pattern for the range [(24, 40)]. *)
Lemma example_returns_proper_window (is_hex scaled : bool) :
  exists p, get_pattern (H := example_env) example_calculator
              (example_structure is_hex) scaled (Some (24, 40)) = Ok p.
Proof.
  destruct example_proper_window as (min_r & max_r & Hwin & H1 & H2 & H3 & H4).
  eapply (get_pattern_total (H := example_env) example_calculator
            (example_structure is_hex) scaled (Some (24, 40)) 0 1.54184 min_r max_r
            (example_site "Fe") (mkRecipPoint (2, 0, 0) (2 / 5))).
  - reflexivity.
  - reflexivity.
  - cbn. eauto.
  - lra.
  - rewrite example_refined. apply example_known.
  - rewrite example_refined. left.
  - discriminate.
  - exact Hwin.
  - rewrite example_refined. cbn [lattice example_structure].
    rewrite example_proper_candidates by assumption.
    intros q Hq _. apply list_elem_of_singleton in Hq. subst q. cbn [pt_g]. lra.
  - rewrite example_refined. cbn [lattice example_structure].
    rewrite example_proper_candidates by assumption. left.
  - cbn [pt_g]. lra.
  - intros _. split; [cbn; lra|]. split; [cbn; lra|].
    rewrite example_refined.
    intros contribs Hc. apply example_bright_200. exact Hc.
Qed.

End ExampleMore.

(** * The further properties at the worked example *)

(** The four sequences at the example. *)
Lemma pattern_sequences_parallel_witness :
  exists p,
    Xrd.get_pattern (H := example_env) example_calculator (example_structure false)
      true None = Ok p /\
    length (Xrd.pat_y p) = length (Xrd.pat_x p).
Proof.
  destruct (example_returns false true) as [p Hp]. exists p. split; [exact Hp|].
  exact (proj1 (pattern_sequences_parallel (H := example_env) _ _ _ _ _ Hp)).
Defined.

(** Bragg's law at the first peak of the example. *)
Lemma pattern_obeys_bragg_law_witness :
  exists p x d,
    Xrd.get_pattern (H := example_env) example_calculator (example_structure false)
      true None = Ok p /\
    Xrd.pat_x p !! 0%nat = Some x /\ Xrd.pat_d_hkls p !! 0%nat = Some d /\
    2 * d * sin (math_radians (x / 2)) = 1.54184.
Proof.
  destruct (example_returns false true) as [p Hp].
  destruct (scaled_pattern_first_peak _ _ _ _ Hp) as (x & d & Hx & Hd).
  exists p, x, d. repeat (split; [assumption|]).
  exact (proj1 (pattern_obeys_bragg_law (H := example_env) _ _ _ _ _ 1.54184 0 x d
                  Hp eq_refl Hx Hd)).
Defined.

(** The example, not scaled: the largest intensity that the loop
    aggregates from the six points is among the intensities of the pattern,
    and every intensity exceeds the threshold against it. *)
Lemma unscaled_intensities_exceed_threshold_witness :
  exists p peaks two_thetas m,
    Xrd.get_pattern (H := example_env) example_calculator (example_structure false)
      false None = Ok p /\
    Xrd.accumulate (H := example_env) 1.54184 false
      [Xrd.mkSiteContribution 26
         [(2.544, 64.424); (2.343, 14.88); (1.759, 2.854); (0.506, 0.35)]
         0 (0, 0, 0) 1]
      example_points = Ok (peaks, two_thetas) /\
    py_max (map Xrd.intensity (dict_values peaks)) = Ok m /\
    m ∈ Xrd.pat_y p /\
    Forall (fun y => 0 < y /\ 0.001 < y / m * 100) (Xrd.pat_y p).
Proof.
  destruct (example_returns false false) as [p Hp].
  destruct (unscaled_intensities_exceed_threshold (H := example_env) _ _ _ _
              ltac:(cbn; lra) Hp)
    as (sym & w & min_r & max_r & contribs & peaks & tts & m
        & Hsym & Hw & Hwin & Hfl & Hacc & Hm & Hall & Hbright & _).
  cbn in Hsym, Hw. injection Hsym as <-. injection Hw as <-.
  rewrite example_window in Hwin. injection Hwin as <- <-.
  rewrite example_refined in Hfl, Hacc.
  pose proof (example_bright false _ Hfl) as Hb.
  rewrite example_contribs in Hfl. injection Hfl as <-.
  cbn [Xrd.lattice example_structure] in Hacc. rewrite example_candidates in Hacc.
  cbn [Xrd.is_hexagonal example_lattice] in Hacc.
  exists p, peaks, tts, m. split; [exact Hp|]. split; [exact Hacc|].
  split; [exact Hm|]. split; [|exact Hall].
  apply Hbright; [|cbn; lra].
  destruct (accumulate_positive (H := example_env) _ _ _ _ _
              (Xrd.mkRecipPoint (1, 0, 0) (1 / 5)) ltac:(cbn; lra) Hacc
              ltac:(right; left) Hb) as (kv & Hkv & Hpos).
  apply py_max_Ok in Hm as [_ Hmax].
  assert (Xrd.intensity kv.2 <= m); [|lra].
  apply Hmax. apply list_elem_of_fmap. exists kv.2. split; [reflexivity|].
  unfold dict_values. apply list_elem_of_fmap. exists kv. auto.
Defined.

(** The example with the range [(24, 40)]: the window has a lower radius
    other than 0, so the filter of line 168 runs; it drops the points of
    magnitude 1/5, the sphere leaves out those of magnitude 3/5, and the
    pattern has a peak, within the range. *)
Lemma pattern_within_two_theta_range_witness :
  exists p x min_r max_r,
    Xrd.get_pattern (H := example_env) example_calculator (example_structure false)
      true (Some (24, 40)) = Ok p /\
    Xrd.radius_window 1.54184 (Some (24, 40)) = Ok (min_r, max_r) /\
    min_r <> 0 /\
    Xrd.candidate_points (example_lattice false) min_r max_r =
      [Xrd.mkRecipPoint (2, 0, 0) (2 / 5)] /\
    Xrd.pat_x p !! 0%nat = Some x /\
    Forall (fun x => 24 <= x <= 40) (Xrd.pat_x p).
Proof.
  destruct (example_returns_proper_window false true) as [p Hp].
  destruct (scaled_pattern_first_peak _ _ _ _ Hp) as (x & d & Hx & _).
  destruct example_proper_window as (min_r & max_r & Hwin & H1 & H2 & H3 & H4).
  exists p, x, min_r, max_r. split; [exact Hp|]. split; [exact Hwin|].
  split; [lra|]. split; [apply example_proper_candidates; assumption|].
  split; [exact Hx|].
  apply (pattern_within_two_theta_range (H := example_env) example_calculator
           (example_structure false) true 24 40 0 1.54184 p);
    [reflexivity | reflexivity | lra | lra | lra | apply example_sphere | exact Hp].
Defined.

(** The conditions of a return hold at the example. *)
Lemma get_pattern_returns_witness :
  exists p,
    Xrd.get_pattern (H := example_env) example_calculator (example_structure false)
      true None = Ok p.
Proof.
  eapply (get_pattern_returns (H := example_env) example_calculator
            (example_structure false) true None 0 1.54184 0 (2 / 1.54184)
            (example_site "Fe") (Xrd.mkRecipPoint (1, 0, 0) (1 / 5))).
  - reflexivity.
  - reflexivity.
  - cbn. eauto.
  - lra.
  - rewrite example_refined. apply example_known.
  - rewrite example_refined. left.
  - discriminate.
  - apply example_window.
  - rewrite example_refined.
    cbn [Xrd.lattice example_structure]. rewrite example_candidates.
    apply example_points_inside.
  - rewrite example_refined.
    cbn [Xrd.lattice example_structure]. rewrite example_candidates.
    right. left.
  - cbn [Xrd.pt_g]. lra.
  - intros _. split; [cbn; lra|]. split; [cbn; lra|].
    rewrite example_refined.
    intros contribs Hc. apply example_bright. exact Hc.
Defined.

(** The aggregation of the points of the example. *)
Lemma aggregation_conserves_intensity_witness :
  exists peaks two_thetas refls,
    Xrd.accumulate (H := example_env) 1.54184 false
      [Xrd.mkSiteContribution 26 [] 0 (0, 0, 0) 1] example_points =
      Ok (peaks, two_thetas) /\
    total_intensity peaks = total_weight refls /\
    recorded_indices peaks = length refls.
Proof.
  destruct (accumulate_total (H := example_env) 1.54184 false
              [Xrd.mkSiteContribution 26 [] 0 (0, 0, 0) 1] example_points)
    as [[peaks tts] Hacc].
  - discriminate.
  - lra.
  - apply example_points_inside.
  - destruct (aggregation_conserves_intensity (H := example_env) _ _ _ _ _ _
                ltac:(cbn; lra) Hacc) as (refls & _ & Hsum & Hcount & _).
    exists peaks, tts, refls. repeat (split; [assumption|]). exact Hcount.
Defined.

(** The example with its points listed the other way round. *)
Lemma pattern_independent_of_enumeration_order_witness :
  Xrd.get_pattern (H := example_env) example_calculator (example_structure false)
    true None =
  Xrd.get_pattern (H := example_env) example_calculator reversed_structure true None.
Proof.
  apply pattern_independent_of_enumeration_order.
  intros sym _. rewrite !example_refined.
  split; [reflexivity|]. split; [reflexivity|].
  intros r. cbn [reversed_structure Xrd.lattice Xrd.get_points_in_sphere].
  symmetry. apply reverse_Permutation.
Defined.

(** The default radiation. *)
Lemma named_calculator_has_positive_wavelength_witness :
  exists w, Xrd.WAVELENGTHS !! "CuKa"%string = Some w /\ 0 < w.
Proof.
  destruct (named_calculator_has_positive_wavelength "CuKa" 0 None example_calculator
              None example_init) as (w & Hw & Hpos & _).
  exists w. split; assumption.
Defined.

(** The example with an explicit factor of 0 for iron. *)
Lemma absent_debye_waller_factor_is_zero_witness :
  Xrd.get_pattern (H := example_env) example_calculator (example_structure false)
    true None =
  Xrd.get_pattern (H := example_env)
    (Xrd.mkXRDCalculator (Some "CuKa"%string) (Some 1.54184) (Some 0)
       (Some {[ "Fe"%string := 0 ]}))
    (example_structure false) true None.
Proof.
  apply (absent_debye_waller_factor_is_zero (H := example_env) _ _ ∅
           {[ "Fe"%string := 0 ]}); try reflexivity.
  intros symbol. rewrite lookup_empty.
  destruct (decide (symbol = "Fe"%string)) as [->|Hne].
  - rewrite lookup_singleton_eq. reflexivity.
  - rewrite lookup_singleton_ne by congruence. reflexivity.
Defined.

(** The angles and spacings of the example. *)
Lemma pattern_angles_and_spacings_bounded_witness :
  exists p,
    Xrd.get_pattern (H := example_env) example_calculator (example_structure false)
      true None = Ok p /\
    Forall (fun x => 0 < x <= 180) (Xrd.pat_x p) /\
    Forall (fun d => 1.54184 / 2 <= d) (Xrd.pat_d_hkls p).
Proof.
  destruct (example_returns false true) as [p Hp]. exists p. split; [exact Hp|].
  apply (pattern_angles_and_spacings_bounded (H := example_env) example_calculator
           (example_structure false) true None 0 1.54184 p);
    [reflexivity | reflexivity | lra | | exact Hp].
  intros r pt Hpt. apply (example_sphere false r pt Hpt).
Defined.

(** The spacings of the example descend. *)
Lemma pattern_spacings_descending_witness :
  exists p,
    Xrd.get_pattern (H := example_env) example_calculator (example_structure false)
      true None = Ok p /\
    StronglySorted (fun d d' => d' < d) (Xrd.pat_d_hkls p).
Proof.
  destruct (example_returns false true) as [p Hp]. exists p. split; [exact Hp|].
  apply (pattern_spacings_descending (H := example_env) example_calculator
           (example_structure false) true None 0 1.54184 p);
    [reflexivity | reflexivity | lra | | exact Hp].
  intros r pt Hpt. apply (example_sphere false r pt Hpt).
Defined.

(** The one row of the example. *)
Lemma flatten_sites_rows_witness :
  exists contribs,
    Xrd.flatten_sites (H := example_env) example_calculator (example_structure false)
      = Ok contribs /\
    length (site_species (example_structure false)) = length contribs.
Proof.
  eexists. split; [apply example_contribs|].
  exact (Forall2_length _ _ _
           (flatten_sites_rows (H := example_env) example_calculator
              (example_structure false) ∅ _ eq_refl (example_contribs false))).
Defined.

(** An unknown mode at the heap of the example. *)
Lemma normalize_rejects_other_modes_witness :
  Entries.normalize (H := amounts_class) 1 "per_atom" example_heap =
  (example_heap,
   Raise (ValueError "per_atom is not an allowed option for normalization")).
Proof.
  apply (normalize_rejects_other_modes (H := amounts_class) 1 "per_atom" example_heap);
    discriminate.
Defined.

(** An entry of no atoms, normalized per atom. *)
Lemma normalize_zero_factor_raises_witness :
  Entries.normalize (H := amounts_class) 1 "atom" empty_entry_heap =
  (empty_entry_heap, Raise ZeroDivisionError).
Proof.
  assert (Hself : empty_entry_heap !! 1%positive =
                  Some (Entries.EntryObj (Entries.mkEntry ∅ (-10))))
    by apply lookup_singleton_eq.
  assert (Hfactor : Entries._normalization_factor (H := amounts_class) 1 "atom"
                      empty_entry_heap = (empty_entry_heap, Ok 0)).
  { rewrite (normalization_factor_total _ _ _ _ Hself).
    rewrite decide_True by reflexivity. reflexivity. }
  pose proof (normalize_zero_factor_raises (H := amounts_class) 1 "atom"
                empty_entry_heap _ Hself Hfactor) as Hrun.
  cbn [Entries.truediv amounts_class] in Hrun. unfold amounts_truediv in Hrun.
  rewrite decide_True in Hrun by reflexivity. exact Hrun.
Defined.

(** The entry of the example, normalized per atom. *)
Lemma normalize_returns_witness :
  exists h' new,
    Entries.normalize (H := amounts_class) 1 "atom" example_heap = (h', Ok new) /\
    h' !! new = Some (Entries.EntryObj
                        (Entries.mkEntry ((fun amount => amount / 2) <$>
                                            {[ "Fe"%string := 2 ]}) (-10 / 2))).
Proof.
  apply (normalize_returns (H := amounts_class) 1 "atom" example_heap example_entry 2
           ((fun amount => amount / 2) <$> {[ "Fe"%string := 2 ]})
           ((fun amount => amount / 2) <$> {[ "Fe"%string := 2 ]})).
  - apply lookup_singleton_eq.
  - apply example_factor_atom.
  - lra.
  - cbn [Entries.truediv amounts_class Entries._composition example_entry].
    unfold amounts_truediv. rewrite decide_False by lra. reflexivity.
  - reflexivity.
Defined.

(** The entry of the example, copied through its dictionary. *)
Lemma as_dict_from_dict_copies_witness :
  exists h' new,
    (run d <- Entries.as_dict (H := amounts_class) 1; Entries.from_dict d) example_heap
      = (h', Ok new) /\
    h' !! new = Some (Entries.EntryObj example_entry).
Proof.
  destruct (as_dict_from_dict_copies (H := amounts_class) 1 example_heap example_entry
              (fun c => eq_refl) ltac:(apply lookup_singleton_eq))
    as (h' & new & Hrun & _ & Hnew & _).
  exists h', new. split; assumption.
Defined.
